(** * Station pipeline of [app.py]: normalisation, loaders, join, summaries

    A shallow embedding of the data pipeline of [app.py]
    ([clean_name], [load_validations_data], [load_gares_data],
    [merge_validations_gares] and the four plotting functions) and the
    properties the specification states about it.

    Conventions.
    - A Python [str] is the list of its Unicode code points.
    - A pandas [DataFrame] is its list of column labels together with its
      rows; a row maps column labels to cells.  [pd.read_csv] is the boundary
      of the model: the loaders start from the frame it returns.  Frames with
      the same label twice are not represented.
    - A raised Python exception is the [Raise] case of [result].
    - Finite floats are exact rationals; binary64 rounding and overflow are
      not represented.  Integers are unbounded: [astype(int)] on the hour
      column is the identity on them, and [int] has no limit on the number
      of digits.  The code stores the hours in [float64] and [int64]
      columns and [int] refuses long texts: a statement about the value of
      an hour assumes [hours_exact] or a bound on the number of digits,
      under which the two agree.
    - What a plotting function passes to the chart is its [view]; drawing
      is not represented. *)

From Stdlib Require Import ZArith NArith QArith Qcanon List Bool Ascii String Lia.
From Stdlib Require Import Permutation.
From stdpp Require Import base decidable option numbers list gmap strings.

Import ListNotations.
#[local] Open Scope Z_scope.
#[local] Open Scope bool_scope.

(* ===================================================================== *)
(** ** Python values *)
(* ===================================================================== *)

(** A [str]: the sequence of its code points. *)
Definition pystr : Type := list N.

(** A float: a finite value, an infinity, or NaN (pandas' missing marker). *)
Inductive pyfloat : Type :=
| FNum (q : Qc)
| FInf (negative : bool)
| FNaN.

(** The cells a frame read from a CSV file can hold. *)
Inductive pyval : Type :=
| PNone
| PBool (b : bool)
| PInt (z : Z)
| PFloat (f : pyfloat)
| PStr (s : pystr).

#[global] Instance pyfloat_eq_dec : EqDecision pyfloat.
Proof. solve_decision. Defined.

#[global] Instance pyval_eq_dec : EqDecision pyval.
Proof. solve_decision. Defined.

(** [pd.isna] on a scalar. *)
Definition isna (v : pyval) : bool :=
  match v with
  | PNone | PFloat FNaN => true
  | _ => false
  end.

Definition NaN : pyval := PFloat FNaN.

(** ASCII literal to [str]. *)
Fixpoint str (s : string) : pystr :=
  match s with
  | EmptyString => []
  | String a s' => N_of_ascii a :: str s'
  end.

(** Exceptions the pipeline can raise on a frame. *)
Inductive exn : Type :=
| KeyError (label : string)
| ValueError (msg : string)
| TypeError (msg : string).

Inductive result (A : Type) : Type :=
| Ok (a : A)
| Raise (e : exn).
Arguments Ok {A} a.
Arguments Raise {A} e.

#[global] Instance result_ret : MRet result := fun _ a => Ok a.

#[global] Instance result_bind : MBind result := fun _ _ k m =>
  match m with
  | Ok a => k a
  | Raise e => Raise e
  end.

(* ===================================================================== *)
(** ** What the pipeline takes from outside the repository *)
(* ===================================================================== *)

(** The Unicode data and number parser that [clean_name] and the loaders
    reach through Python, [unidecode] and pandas.  ASCII behaviour is
    written out below; only the parts that need the Unicode database, the
    transliteration tables or the C float parser are fields here. *)
Record Platform : Type := {
  (** [str.lower] on a string that is not pure ASCII. *)
  unicode_lower : pystr -> pystr;
  (** [unidecode]'s table entry of a code point above 127. *)
  unidecode_table : N -> pystr;
  (** decimal value of a non-ASCII code point of category Nd. *)
  unicode_decimal : N -> option Z;
  (** pandas' string to double conversion; [None] when the text is refused. *)
  to_double : pystr -> option pyfloat
}.

(* ===================================================================== *)
(** ** [str] methods *)
(* ===================================================================== *)

Definition is_ascii (c : N) : bool := (c <? 128)%N.

Definition is_upper_ascii (c : N) : bool := (65 <=? c)%N && (c <=? 90)%N.

Definition lower_ascii (c : N) : N := if is_upper_ascii c then (c + 32)%N else c.

(** [str.isspace] on one code point (CPython's [Py_UNICODE_ISSPACE]). *)
Definition isspace (c : N) : bool :=
  ((9 <=? c) && (c <=? 13) || (28 <=? c) && (c <=? 32)
   || (c =? 133) || (c =? 160) || (c =? 5760)
   || (8192 <=? c) && (c <=? 8202)
   || (c =? 8232) || (c =? 8233) || (c =? 8239) || (c =? 8287)
   || (c =? 12288))%N.

(** [s.lower()]: CPython lowers a pure-ASCII string byte by byte and
    otherwise goes through the Unicode case mapping. *)
Definition py_lower (P : Platform) (s : pystr) : pystr :=
  if forallb is_ascii s then map lower_ascii s else unicode_lower P s.

Fixpoint lstrip (s : pystr) : pystr :=
  match s with
  | [] => []
  | c :: s' => if isspace c then lstrip s' else s
  end.

Definition rstrip (s : pystr) : pystr := rev (lstrip (rev s)).

(** [s.strip()] *)
Definition strip (s : pystr) : pystr := rstrip (lstrip s).

(** [s.replace(c, "")] for a one-character [c]. *)
Definition remove_char (c : N) (s : pystr) : pystr :=
  List.filter (fun x => negb (x =? c)%N) s.

(** [s.replace(c, d)] for one-character [c] and [d]. *)
Definition replace_char (c d : N) (s : pystr) : pystr :=
  map (fun x => if (x =? c)%N then d else x) s.

(** [s.split()]: the maximal runs of non-whitespace. *)
Fixpoint split_ws (s : pystr) : list pystr :=
  match s with
  | [] => []
  | c :: s' =>
      if isspace c then split_ws s'
      else match s' with
           | [] => [[c]]
           | d :: _ =>
               if isspace d then [c] :: split_ws s'
               else match split_ws s' with
                    | w :: ws => (c :: w) :: ws
                    | [] => [[c]]
                    end
           end
  end.

(** [" ".join(parts)] *)
Fixpoint join_space (parts : list pystr) : pystr :=
  match parts with
  | [] => []
  | [w] => w
  | w :: ws => w ++ 32%N :: join_space ws
  end.

(** [s.split(sep)] for a one-character [sep]: never empty, keeps empty parts. *)
Fixpoint split_on (sep : N) (s : pystr) : list pystr :=
  match s with
  | [] => [[]]
  | c :: s' =>
      if (c =? sep)%N then [] :: split_on sep s'
      else match split_on sep s' with
           | w :: ws => (c :: w) :: ws
           | [] => [[c]]
           end
  end.

(** [unidecode.unidecode(s)]: a pure-ASCII string is returned as it is;
    otherwise every character is replaced on its own, an ASCII one by
    itself and any other by its table entry. *)
Definition unidecode_char (P : Platform) (c : N) : pystr :=
  if is_ascii c then [c] else unidecode_table P c.

Definition unidecode (P : Platform) (s : pystr) : pystr :=
  if forallb is_ascii s then s else flat_map (unidecode_char P) s.

(* --------------------------------------------------------------------- *)
(** *** [int(text)] *)

(** Whitespace [int] skips around the number: every [isspace] character
    except the four ASCII separators 0x1C-0x1F. *)
Definition isspace_int (c : N) : bool :=
  isspace c && negb ((28 <=? c) && (c <=? 31))%N.

Definition digit_value (P : Platform) (c : N) : option Z :=
  if ((48 <=? c) && (c <=? 57))%N then Some (Z.of_N c - 48)
  else if is_ascii c then None
  else unicode_decimal P c.

(** Digits with single underscores between them.  [after_digit] tells
    whether the previous character was a digit. *)
Fixpoint int_digits (P : Platform) (acc : Z) (after_digit : bool) (s : pystr)
  : option Z :=
  match s with
  | [] => if after_digit then Some acc else None
  | c :: s' =>
      if (c =? 95)%N then
        if after_digit then int_digits P acc false s' else None
      else match digit_value P c with
           | Some d => int_digits P (10 * acc + d) true s'
           | None => None
           end
  end.

Fixpoint lstrip_int (s : pystr) : pystr :=
  match s with
  | [] => []
  | c :: s' => if isspace_int c then lstrip_int s' else s
  end.

(** [int(s)] in base ten; [None] stands for [ValueError].  The limit of
    [int] on the number of digits of the text (4300 by default, never
    applied up to 640 digits) is not represented: this is [int] on texts
    of at most 640 digits. *)
Definition py_int (P : Platform) (s : pystr) : option Z :=
  let t := rev (lstrip_int (rev (lstrip_int s))) in
  match t with
  | 43%N :: r => int_digits P 0 false r
  | 45%N :: r => Z.opp <$> int_digits P 0 false r
  | _ => int_digits P 0 false t
  end.

(* ===================================================================== *)
(** ** [clean_name] *)
(* ===================================================================== *)

Definition clean_name (P : Platform) (name : pyval) : pystr :=
  match name with
  | PStr s =>
      let name := strip (py_lower P s) in
      let name := unidecode P name in
      let name := remove_char 41 (remove_char 40 name) in
      let name := replace_char 45 32 name in
      join_space (split_ws name)
  | _ => []
  end.

(* ===================================================================== *)
(** ** Cell-level helpers of the loaders *)
(* ===================================================================== *)

(** [parse_heure], the closure of [load_validations_data]: the text before
    the first "-", without any "H", read by [int]. *)
Definition parse_heure (P : Platform) (tranche : pyval) : pyval :=
  match tranche with
  | PStr s =>
      let part := hd [] (split_on 45 s) in
      let part := remove_char 72 part in
      match py_int P part with
      | Some h => PInt h
      | None => PNone
      end
  | _ => PNone
  end.

(** [split_geo], the closure of [load_gares_data]. *)
Definition split_geo (s : pyval) : pyval * pyval :=
  match s with
  | PStr t =>
      match split_on 44 t with
      | [a; b] => (PStr (strip a), PStr (strip b))
      | _ => (PNone, PNone)
      end
  | _ => (PNone, PNone)
  end.

(** One element of [pd.to_numeric(..., errors="coerce")]: text goes through
    the float parser and becomes NaN when refused; numbers stay. *)
Definition to_numeric (P : Platform) (v : pyval) : pyval :=
  match v with
  | PNone => NaN
  | PStr [] => NaN
  | PStr s =>
      match to_double P s with
      | Some f => PFloat f
      | None => NaN
      end
  | _ => v
  end.

(** [v == 1] *)
Definition py_eq_1 (v : pyval) : bool :=
  match v with
  | PInt z => (z =? 1)%Z
  | PBool b => b
  | PFloat (FNum q) => bool_decide (q = 1%Qc)
  | _ => false
  end.

(** One element of [astype(int)] on the hour column.  The column is
    [int64], and [float64] before that when some line has no hour; an
    integer of at most [2 ^ 53] in absolute value goes through both
    unchanged, and this is [astype(int)] on such integers. *)
Definition astype_int (v : pyval) : pyval :=
  match v with
  | PBool b => PInt (Z.b2z b)
  | PFloat (FNum q) => PInt (Z.quot (Qnum (this q)) (Zpos (Qden (this q))))
  | _ => v
  end.

(* ===================================================================== *)
(** ** Frames *)
(* ===================================================================== *)

Abbreviation row := (gmap string pyval).

Record DataFrame : Type := mkDF {
  columns : list string;
  rows : list row
}.

(** The cell of a row under a label; a label the row lacks reads as NaN. *)
Definition cell (r : row) (c : string) : pyval := default NaN (r !! c).

(** [row.get(c, d)] *)
Definition row_get (r : row) (c : string) (d : pyval) : pyval := default d (r !! c).

(** [c in df.columns] *)
Definition has_col (c : string) (df : DataFrame) : bool :=
  existsb (String.eqb c) (columns df).

(** [df.empty]: no row or no column. *)
Definition df_empty (df : DataFrame) : bool :=
  match rows df, columns df with
  | [], _ | _, [] => true
  | _, _ => false
  end.

(** [df[c]] used for reading: [KeyError] on an unknown label. *)
Definition require (c : string) (df : DataFrame) : result unit :=
  if has_col c df then Ok tt else Raise (KeyError c).

Definition require_all (cs : list string) (df : DataFrame) : result unit :=
  match find (fun c => negb (has_col c df)) cs with
  | Some c => Raise (KeyError c)
  | None => Ok tt
  end.

(** [df[c] = ...] with a value computed row by row: an existing column is
    overwritten in place, a new one is appended. *)
Definition with_column (c : string) (f : row -> pyval) (df : DataFrame) : DataFrame :=
  {| columns := if has_col c df then columns df else columns df ++ [c];
     rows := map (fun r => <[c := f r]> r) (rows df) |}.

Definition rename_key (old new : string) (r : row) : row :=
  match r !! old with
  | Some v => <[new := v]> (delete old r)
  | None => r
  end.

(** [df.rename(columns={old: new})]; an absent [old] is ignored. *)
Definition rename_column (old new : string) (df : DataFrame) : DataFrame :=
  {| columns := map (fun c => if String.eqb c old then new else c) (columns df);
     rows := map (rename_key old new) (rows df) |}.

(** [df.rename(columns=m)] for a mapping whose labels do not interfere. *)
Definition rename_columns (m : list (string * string)) (df : DataFrame) : DataFrame :=
  fold_left (fun d kv => rename_column (fst kv) (snd kv) d) m df.

Definition row_notna (subset : list string) (r : row) : bool :=
  forallb (fun c => negb (isna (cell r c))) subset.

(** [df.dropna(subset=...)] *)
Definition dropna (subset : list string) (df : DataFrame) : result DataFrame :=
  _ ← require_all subset df;
  Ok {| columns := columns df; rows := List.filter (row_notna subset) (rows df) |}.

(** [df[cols]] for labels that are all present. *)
Definition select (cols : list string) (df : DataFrame) : DataFrame :=
  {| columns := cols;
     rows := map (fun r => list_to_map (map (fun c => (c, cell r c)) cols)) (rows df) |}.

(* ===================================================================== *)
(** ** [load_validations_data] *)
(* ===================================================================== *)

Definition validations_renames : list (string * string) :=
  [("libelle_arret", "gare"); ("cat_jour", "type_jour");
   ("trnc_horr_60", "tranche_horaire");
   ("pourcentage_validations", "pct_validations")]%string.

Definition validations_subset : list string :=
  ["gare"; "type_jour"; "tranche_horaire"; "pct_validations"; "heure"]%string.

(** The body of [load_validations_data] after [pd.read_csv]. *)
Definition load_validations_data (P : Platform) (csv : DataFrame) : result DataFrame :=
  let df := rename_columns validations_renames csv in
  _ ← require "pct_validations" df;
  let df := with_column "pct_validations"
              (fun r => to_numeric P (cell r "pct_validations")) df in
  _ ← require "tranche_horaire" df;
  let df := with_column "heure"
              (fun r => parse_heure P (cell r "tranche_horaire")) df in
  df ← dropna validations_subset df;
  let df := with_column "heure" (fun r => astype_int (cell r "heure")) df in
  let df := with_column "gare" (fun r => PStr (clean_name P (cell r "gare"))) df in
  Ok df.

(* ===================================================================== *)
(** ** [load_gares_data] *)
(* ===================================================================== *)

Definition Metro : pystr := [77; 233; 116; 114; 111]%N.

(** [infer_mode], the closure of [load_gares_data]. *)
Definition infer_mode (r : row) : pystr :=
  if py_eq_1 (row_get r "termetro" (PInt 0)) then Metro
  else if py_eq_1 (row_get r "terrer" (PInt 0)) then str "RER"
  else if py_eq_1 (row_get r "tertrain" (PInt 0)) then str "Train"
  else if py_eq_1 (row_get r "tertram" (PInt 0)) then str "Tram"
  else if py_eq_1 (row_get r "terval" (PInt 0)) then str "VAL"
  else str "Autre".

Definition indicator_columns : list string :=
  ["termetro"; "terrer"; "tertrain"; "tertram"; "terval"]%string.

Definition keep_cols : list string :=
  ["gare"; "lat"; "lon"; "mode"; "exploitant";
   "termetro"; "terrer"; "tertrain"; "tertram"; "terval"]%string.

(** The [geo_point_2d] block.  On a frame without rows [Series.apply]
    gives back an empty Series instead of a two-column frame, and the
    assignment to the two labels raises [ValueError]. *)
Definition extract_lat_lon (P : Platform) (df : DataFrame) : result DataFrame :=
  if has_col "geo_point_2d" df then
    match rows df with
    | [] => Raise (ValueError "Columns must be same length as key")
    | _ =>
        let df := with_column "lat_str" (fun r => fst (split_geo (cell r "geo_point_2d"))) df in
        let df := with_column "lon_str" (fun r => snd (split_geo (cell r "geo_point_2d"))) df in
        let df := with_column "lat" (fun r => to_numeric P (cell r "lat_str")) df in
        let df := with_column "lon" (fun r => to_numeric P (cell r "lon_str")) df in
        Ok df
    end
  else Ok df.

(** [for col in [...]: if col not in df.columns: df[col] = 0] *)
Definition fill_indicators (df : DataFrame) : DataFrame :=
  fold_left
    (fun d col => if has_col col d then d else with_column col (fun _ => PInt 0) d)
    indicator_columns df.

(** [if "nom_long" in df.columns: df = df.rename(columns={"nom_long": "gare"})] *)
Definition stations_source (csv : DataFrame) : DataFrame :=
  if has_col "nom_long" csv then rename_column "nom_long" "gare" csv else csv.

(** [if "mode" not in df.columns: df["mode"] = df.apply(infer_mode, axis=1)] *)
Definition infer_mode_column (df : DataFrame) : DataFrame :=
  if has_col "mode" df then df
  else with_column "mode" (fun r => PStr (infer_mode r)) df.

(** [df = df[[c for c in keep_cols if c in df.columns]]] *)
Definition keep_columns (df : DataFrame) : DataFrame :=
  select (List.filter (fun c => has_col c df) keep_cols) df.

(** The body of [load_gares_data] after [pd.read_csv]. *)
Definition load_gares_data (P : Platform) (csv : DataFrame) : result DataFrame :=
  df ← extract_lat_lon P (stations_source csv);
  df ← dropna ["gare"%string]
         (keep_columns (infer_mode_column (fill_indicators df)));
  Ok (with_column "gare" (fun r => PStr (clean_name P (cell r "gare"))) df).

(* ===================================================================== *)
(** ** [merge_validations_gares] *)
(* ===================================================================== *)

(** Labels other than the key that both frames carry; the merge suffixes
    them with [_x] on the left and [_y] on the right. *)
Definition overlap (key : string) (lcols rcols : list string) : list string :=
  List.filter (fun c => negb (String.eqb c key) && existsb (String.eqb c) rcols) lcols.

Definition suffixed (ov : list string) (sfx : string) (c : string) : string :=
  if existsb (String.eqb c) ov then (c ++ sfx)%string else c.

Definition right_cols (key : string) (rcols : list string) : list string :=
  List.filter (fun c => negb (String.eqb c key)) rcols.

Definition merged_columns (key : string) (lcols rcols : list string) : list string :=
  let ov := overlap key lcols rcols in
  map (suffixed ov "_x") lcols ++ map (suffixed ov "_y") (right_cols key rcols).

(** One row of the result: the left row, then the matching right row, or
    NaN under every right label when there is none. *)
Definition join_row (key : string) (lcols rcols : list string)
    (l : row) (r : option row) : row :=
  let ov := overlap key lcols rcols in
  list_to_map
    (map (fun c => (suffixed ov "_x" c, cell l c)) lcols
     ++ map (fun c => (suffixed ov "_y" c,
                       match r with Some r => cell r c | None => NaN end))
          (right_cols key rcols)).

Definition matches (key : string) (l : row) (rs : list row) : list row :=
  List.filter (fun r => bool_decide (cell r key = cell l key)) rs.

(** The rows a left row contributes to a left join. *)
Definition join_block (key : string) (lcols rcols : list string)
    (rs : list row) (l : row) : list row :=
  match matches key l rs with
  | [] => [join_row key lcols rcols l None]
  | ms => map (fun r => join_row key lcols rcols l (Some r)) ms
  end.

(** [left.merge(right, on=key, how="left")]: left order is kept, and the
    matches of one left row come in right order. *)
Definition merge_left (key : string) (left right : DataFrame) : result DataFrame :=
  _ ← require key left;
  _ ← require key right;
  Ok {| columns := merged_columns key (columns left) (columns right);
        rows := flat_map (join_block key (columns left) (columns right) (rows right))
                  (rows left) |}.

Definition merge_validations_gares (df_val df_gares : DataFrame) : result DataFrame :=
  merge_left "gare" df_val df_gares.

(* ===================================================================== *)
(** ** Ordering and arithmetic used by the summaries *)
(* ===================================================================== *)

Definition fadd (a b : pyfloat) : pyfloat :=
  match a, b with
  | FNaN, _ | _, FNaN => FNaN
  | FInf s, FInf t => if Bool.eqb s t then FInf s else FNaN
  | FInf s, FNum _ | FNum _, FInf s => FInf s
  | FNum x, FNum y => FNum (x + y)
  end.

(** Division of a sum by a positive count. *)
Definition fdiv_count (a : pyfloat) (n : nat) : pyfloat :=
  match a with
  | FNum x => FNum (x / Qc_of_Z (Z.of_nat n))
  | _ => a
  end.

(** The number a non-null numeric cell stands for. *)
Definition as_number (v : pyval) : option pyfloat :=
  match v with
  | PInt z => Some (FNum (Qc_of_Z z))
  | PBool b => Some (FNum (Qc_of_Z (Z.b2z b)))
  | PFloat FNaN => None
  | PFloat f => Some f
  | _ => None
  end.

Definition is_text (v : pyval) : bool :=
  match v with PStr _ => true | _ => false end.

(** Numeric cells of a column, nulls skipped ([skipna]); text in a reduced
    column is outside what the pipeline produces and stops the reduction. *)
Fixpoint numbers_of (vs : list pyval) : result (list pyfloat) :=
  match vs with
  | [] => Ok []
  | v :: vs' =>
      if is_text v then Raise (TypeError "unsupported operand type")
      else
        ns ← numbers_of vs';
        Ok (match as_number v with Some f => f :: ns | None => ns end)
  end.

Definition fsum (ns : list pyfloat) : pyfloat :=
  fold_left fadd ns (FNum 0%Qc).

(** [.sum()] of a group. *)
Definition sum_cells (vs : list pyval) : result pyval :=
  ns ← numbers_of vs;
  Ok (PFloat (fsum ns)).

(** [.mean()] of a group. *)
Definition mean_cells (vs : list pyval) : result pyval :=
  ns ← numbers_of vs;
  Ok (match ns with
      | [] => NaN
      | _ => PFloat (fdiv_count (fsum ns) (length ns))
      end).

Definition float_leb (a b : pyfloat) : bool :=
  match a, b with
  | FNaN, _ | _, FNaN => false
  | FInf true, _ | _, FInf false => true
  | FInf false, _ | _, FInf true => false
  | FNum x, FNum y => bool_decide (x ≤ y)%Qc
  end.

(** Code point order of [str]. *)
Fixpoint str_leb (a b : pystr) : bool :=
  match a, b with
  | [], _ => true
  | _ :: _, [] => false
  | x :: a', y :: b' =>
      if (x <? y)%N then true
      else if (y <? x)%N then false
      else str_leb a' b'
  end.

(** Order of cells in a sorted column: numbers, then text, nulls last. *)
Definition cell_leb (a b : pyval) : bool :=
  if isna b then true
  else if isna a then false
  else match a, b with
       | PStr x, PStr y => str_leb x y
       | PStr _, _ => false
       | _, PStr _ => true
       | _, _ =>
           match as_number a, as_number b with
           | Some x, Some y => float_leb x y
           | _, _ => true
           end
       end.

(** Lexicographic order of key tuples. *)
Fixpoint keys_leb (a b : list pyval) : bool :=
  match a, b with
  | x :: a', y :: b' =>
      if cell_leb x y then (if cell_leb y x then keys_leb a' b' else true)
      else false
  | _, _ => true
  end.

Fixpoint insert_sorted {A : Type} (le : A -> A -> bool) (x : A) (l : list A) : list A :=
  match l with
  | [] => [x]
  | y :: l' => if le x y then x :: l else y :: insert_sorted le x l'
  end.

(** Stable sort. *)
Definition sort_by {A : Type} (le : A -> A -> bool) (l : list A) : list A :=
  fold_right (insert_sorted le) [] l.

Definition key_of (keys : list string) (r : row) : list pyval :=
  map (cell r) keys.

(** A column that can be ordered holds numbers only or text only, nulls apart. *)
Definition sortable (c : string) (rs : list row) : bool :=
  forallb (fun r => isna (cell r c) || is_text (cell r c)) rs
  || forallb (fun r => negb (is_text (cell r c))) rs.

(** [df.sort_values(by)] *)
Definition sort_values (by_ : list string) (df : DataFrame) : result DataFrame :=
  _ ← require_all by_ df;
  if forallb (fun c => sortable c (rows df)) by_ then
    Ok {| columns := columns df;
          rows := sort_by (fun a b => keys_leb (key_of by_ a) (key_of by_ b)) (rows df) |}
  else Raise (TypeError "'<' not supported between instances").

(** First occurrences, in order. *)
Fixpoint distinct (l : list (list pyval)) : list (list pyval) :=
  match l with
  | [] => []
  | k :: l' => k :: List.filter (fun k' => negb (bool_decide (k' = k))) (distinct l')
  end.

Fixpoint collect {A B : Type} (f : A -> result B) (l : list A) : result (list B) :=
  match l with
  | [] => Ok []
  | a :: l' => b ← f a; bs ← collect f l'; Ok (b :: bs)
  end.

(** The members of the group of key [k]. *)
Definition group (keys : list string) (k : list pyval) (rs : list row) : list row :=
  List.filter (fun r => bool_decide (key_of keys r = k)) rs.

(** [df.groupby(keys, as_index=False)[col].<reduce>()]: rows with a null
    key are left out, the groups come in key order, and each gives one row
    made of its key and the reduction of [col] over its members. *)
Definition groupby_reduce (reduce : list pyval -> result pyval)
    (keys : list string) (col : string) (df : DataFrame) : result DataFrame :=
  _ ← require_all keys df;
  _ ← require col df;
  let rs := List.filter (row_notna keys) (rows df) in
  let ks := sort_by keys_leb (distinct (map (key_of keys) rs)) in
  out ← collect
          (fun k =>
             v ← reduce (map (fun r => cell r col) (group keys k rs));
             Ok (list_to_map (combine keys k ++ [(col, v)]) : row))
          ks;
  Ok {| columns := keys ++ [col]; rows := out |}.

(* ===================================================================== *)
(** ** The four summaries *)
(* ===================================================================== *)

(** What a plotting function hands to the chart: nothing (the early
    return on an empty frame) or the frame it has prepared. *)
Inductive view : Type :=
| NoData
| Figure (data : DataFrame).

(** The chart reads the columns it is given by name. *)
Definition chart_needs (cs : list string) (df : DataFrame) : result unit :=
  match find (fun c => negb (has_col c df)) cs with
  | Some c => Raise (ValueError "not the name of a column in data_frame")
  | None => Ok tt
  end.

(** [plot_profil_horaire]: the points ordered by station, then hour. *)
Definition plot_profil_horaire (df : DataFrame) : result view :=
  if df_empty df then Ok NoData
  else
    sorted ← sort_values ["gare"; "heure"]%string df;
    _ ← chart_needs ["pct_validations"%string] sorted;
    Ok (Figure sorted).


(** [plot_heatmap]: the mean per (day type, hour); [pivot] then lays these
    cells out as a matrix. *)
Definition plot_heatmap (df : DataFrame) : result view :=
  if df_empty df then Ok NoData
  else
    g ← groupby_reduce mean_cells ["type_jour"; "heure"]%string "pct_validations" df;
    Ok (Figure g).

Definition map_keys : list string :=
  ["gare"; "lat"; "lon"; "mode"; "exploitant"]%string.

(** [show_map]: the total per station. *)
Definition show_map (df_merged : DataFrame) : result view :=
  df_map ← dropna ["lat"; "lon"]%string df_merged;
  if df_empty df_map then Ok NoData
  else
    g ← groupby_reduce sum_cells map_keys "pct_validations" df_map;
    Ok (Figure (rename_column "pct_validations" "total_pct_validations" g)).

(* ===================================================================== *)
(** ** Notions used in the statements *)
(* ===================================================================== *)

(** No two whitespace characters in a row. *)
Fixpoint no_space_run (s : pystr) : bool :=
  match s with
  | c :: (d :: _) as s' => negb (isspace c && isspace d) && no_space_run s'
  | _ => true
  end.

(** [s == s.lower()] *)
Definition is_lowercase (P : Platform) (s : pystr) : Prop := py_lower P s = s.

(** Only ASCII characters: no accented letter, no combining mark. *)
Definition ascii_only (s : pystr) : Prop := Forall (fun c => is_ascii c = true) s.

(** What [split] returns: words that are not empty and hold no whitespace. *)
Definition word (w : pystr) : Prop :=
  w <> [] /\ Forall (fun c => isspace c = false) w.

(** The hour of a label as the specification words it: the text before
    the first separator, without its unit suffix, read as an integer. *)
Definition strip_suffix (c : N) (s : pystr) : pystr :=
  match rev s with
  | d :: r => if (d =? c)%N then rev r else s
  | [] => s
  end.

Definition spec_hour (P : Platform) (label : pystr) : option Z :=
  py_int P (strip_suffix 72 (hd [] (split_on 45 label))).

(** The hour of a label as [parse_heure] computes it. *)
Definition code_hour (P : Platform) (label : pystr) : option Z :=
  py_int P (remove_char 72 (hd [] (split_on 45 label))).

(** Line by line: which lines of the validations file are kept ... *)
Definition validation_kept (P : Platform) (r : row) : bool :=
  negb (isna (cell r "gare")) && negb (isna (cell r "type_jour"))
  && negb (isna (cell r "tranche_horaire"))
  && negb (isna (to_numeric P (cell r "pct_validations")))
  && negb (isna (parse_heure P (cell r "tranche_horaire"))).

(** ... and the record each kept line becomes. *)
Definition validation_record (P : Platform) (r : row) : row :=
  <["gare" := PStr (clean_name P (cell r "gare"))]>
    (<["heure" := parse_heure P (cell r "tranche_horaire")]>
       (<["pct_validations" := to_numeric P (cell r "pct_validations")]> r)).

(** The stations file, line by line.  [has] tells which labels the file
    carries once [nom_long] is read as [gare]. *)
Definition geo_row (P : Platform) (has_geo : bool) (r : row) : row :=
  if has_geo then
    let r := <["lat_str" := fst (split_geo (cell r "geo_point_2d"))]> r in
    let r := <["lon_str" := snd (split_geo (cell r "geo_point_2d"))]> r in
    let r := <["lat" := to_numeric P (cell r "lat_str")]> r in
    <["lon" := to_numeric P (cell r "lon_str")]> r
  else r.

Definition fill_row (has : string -> bool) (r : row) : row :=
  fold_left (fun r c => if has c then r else <[c := PInt 0]> r) indicator_columns r.

Definition mode_row (has_mode : bool) (r : row) : row :=
  if has_mode then r else <["mode" := PStr (infer_mode r)]> r.

Definition select_row (cols : list string) (r : row) : row :=
  list_to_map (map (fun c => (c, cell r c)) cols).

Definition is_indicator (c : string) : bool :=
  existsb (String.eqb c) indicator_columns.

Definition station_keep (has : string -> bool) : list string :=
  List.filter
    (fun c => has c
              || has "geo_point_2d" && (String.eqb c "lat" || String.eqb c "lon")
              || is_indicator c || String.eqb c "mode")
    keep_cols.

(** The record of a line before the null filter and the normalisation of
    its name. *)
Definition station_prepared (P : Platform) (has : string -> bool) (r : row) : row :=
  select_row (station_keep has)
    (mode_row (has "mode") (fill_row has (geo_row P (has "geo_point_2d") r))).

Definition station_record (P : Platform) (has : string -> bool) (r : row) : row :=
  let r := station_prepared P has r in
  <["gare" := PStr (clean_name P (cell r "gare"))]> r.

(** The mode the indicators of a record stand for. *)
Definition mode_of_indicators (o : row) : pystr :=
  if py_eq_1 (cell o "termetro") then Metro
  else if py_eq_1 (cell o "terrer") then str "RER"
  else if py_eq_1 (cell o "tertrain") then str "Train"
  else if py_eq_1 (cell o "tertram") then str "Tram"
  else if py_eq_1 (cell o "terval") then str "VAL"
  else str "Autre".

(** A string that does not begin with whitespace. *)
Definition starts_clean (s : pystr) : Prop :=
  match s with
  | c :: _ => isspace c = false
  | [] => True
  end.

(* ===================================================================== *)
(** ** A fragment of the platform, for concrete runs *)
(* ===================================================================== *)

(** Case mapping of Latin-1 capitals; other code points used below have no
    case. *)
Definition sample_lower (s : pystr) : pystr :=
  map (fun c => if ((192 <=? c) && (c <=? 222) && negb (c =? 215))%N
                then (c + 32)%N else lower_ascii c) s.

(** Three entries of the transliteration tables: U+00E9, and the two
    ideographs U+5317 and U+4EB0 of the package's own usage example. *)
Definition sample_table (c : N) : pystr :=
  if (c =? 233)%N then str "e"
  else if (c =? 21271)%N then str "Bei "
  else if (c =? 20144)%N then str "Jing "
  else [].

(** Arabic-Indic digits. *)
Definition sample_decimal (c : N) : option Z :=
  if ((1632 <=? c) && (c <=? 1641))%N then Some (Z.of_N c - 1632) else None.

Fixpoint read_digits (acc : Z) (n : nat) (s : pystr) : Z * nat * pystr :=
  match s with
  | c :: s' =>
      if ((48 <=? c) && (c <=? 57))%N
      then read_digits (10 * acc + (Z.of_N c - 48)) (S n) s'
      else (acc, n, s)
  | [] => (acc, n, [])
  end.

Definition read_sign (s : pystr) : bool * pystr :=
  match s with
  | 45%N :: r => (true, r)
  | 43%N :: r => (false, r)
  | _ => (false, s)
  end.

Definition pow10 (e : Z) : Qc :=
  if (0 <=? e)%Z then Qc_of_Z (10 ^ e) else (/ Qc_of_Z (10 ^ (- e)))%Qc.

Fixpoint lstrip_blank (s : pystr) : pystr :=
  match s with
  | [] => []
  | c :: s' => if isspace c && is_ascii c then lstrip_blank s' else s
  end.

(** Plain decimal numerals: sign, digits, fraction, exponent, with ASCII
    blanks around. *)
Definition sample_to_double (s : pystr) : option pyfloat :=
  let s := lstrip_blank (rev (lstrip_blank (rev s))) in
  let '(neg, s) := read_sign s in
  let '(i, ni, s) := read_digits 0 0 s in
  let '(m, nf, s) :=
    match s with
    | 46%N :: r => read_digits i 0 r
    | _ => (i, 0%nat, s)
    end in
  if (ni + nf =? 0)%nat then None
  else
    let '(e, ok, s) :=
      match s with
      | 101%N :: r | 69%N :: r =>
          let '(eneg, r) := read_sign r in
          let '(e, ne, r) := read_digits 0 0 r in
          (if eneg then (- e)%Z else e, negb (ne =? 0)%nat, r)
      | _ => (0%Z, true, s)
      end in
    match ok, s with
    | true, [] =>
        Some (FNum (Qc_of_Z (if neg then (- m)%Z else m) * pow10 (e - Z.of_nat nf))%Qc)
    | _, _ => None
    end.

Definition sample : Platform :=
  {| unicode_lower := sample_lower;
     unidecode_table := sample_table;
     unicode_decimal := sample_decimal;
     to_double := sample_to_double |}.

(** A frame from its labels and the cells of each line. *)
Definition frame (cols : list string) (lines : list (list pyval)) : DataFrame :=
  {| columns := cols;
     rows := map (fun l => list_to_map (combine cols l) : row) lines |}.

(** The decimal [n / d] as a float. *)
Definition dec (n : Z) (d : positive) : pyfloat := FNum (Q2Qc (n # d)).

(** The frame of a result, for concrete runs. *)
Definition get (m : result DataFrame) : DataFrame :=
  match m with
  | Ok d => d
  | Raise _ => {| columns := []; rows := [] |}
  end.

Definition validations_header : list string :=
  ["libelle_arret"; "cat_jour"; "trnc_horr_60"; "pourcentage_validations"]%string.

(** Four lines of a validations file: a regular one, one whose station
    label is only punctuation, one with an unreadable hour and one with a
    decimal comma. *)
Definition validations_csv : DataFrame :=
  frame validations_header
    [[PStr (str "GARE DE LYON"); PStr (str "JOHV"); PStr (str "6H-7H"); PStr (str "12.5")];
     [PStr (str "(-)"); PStr (str "SAHV"); PStr (str "7H-8H"); PStr (str "3")];
     [PStr (str "NATION"); PStr (str "JOHV"); PStr (str "abc"); PStr (str "3")];
     [PStr (str "NATION"); PStr (str "JOHV"); PStr (str "8H-9H"); PStr (str "12,5")]].

(** Four lines of a stations file without mode column and with two of the
    five indicator columns: a regular line, a line whose name is only
    punctuation and whose longitude is unreadable, a line without comma in
    its coordinates and without operator, and a line without name. *)
Definition stations_csv : DataFrame :=
  frame ["nom_long"; "geo_point_2d"; "exploitant"; "termetro"; "terrer"]%string
    [[PStr (str "Gare de Lyon"); PStr (str "48.85, 2.35"); PStr (str "RATP"); PInt 1; PInt 0];
     [PStr (str "(-)"); PStr (str "48.85, abc"); PStr (str "SNCF"); PInt 0; PInt 1];
     [PStr (str "Nation"); PStr (str "48.85"); NaN; PInt 0; PInt 0];
     [NaN; PStr (str "48.9, 2.4"); PStr (str "RATP"); PInt 1; PInt 1]].

(** Loaded validations: a station on two day types, a station that is not
    in the stations frame, and a station without operator. *)
Definition sample_validations : DataFrame :=
  frame ["gare"; "type_jour"; "heure"; "pct_validations"]%string
    [[PStr (str "chatelet"); PStr (str "semaine"); PInt 8; PFloat (dec 2 1)];
     [PStr (str "chatelet"); PStr (str "samedi"); PInt 8; PFloat (dec 3 1)];
     [PStr (str "orly"); PStr (str "semaine"); PInt 9; PFloat (dec 3 2)];
     [PStr (str "nation"); PStr (str "semaine"); PInt 8; PFloat (dec 4 1)]].

(** Loaded stations: two lines with the same key, and a line without
    operator. *)
Definition sample_gares : DataFrame :=
  frame ["gare"; "lat"; "lon"; "mode"; "exploitant"]%string
    [[PStr (str "chatelet"); PFloat (dec 4886 100); PFloat (dec 235 100);
      PStr Metro; PStr (str "RATP")];
     [PStr (str "chatelet"); PFloat (dec 4886 100); PFloat (dec 235 100);
      PStr (str "RER"); PStr (str "RATP")];
     [PStr (str "nation"); PFloat (dec 4885 100); PFloat (dec 24 10);
      PStr Metro; NaN]].

(** The frame of a figure, for concrete runs. *)
Definition get_figure (m : result view) : DataFrame :=
  match m with
  | Ok (Figure d) => d
  | _ => {| columns := []; rows := [] |}
  end.

(** The join of the two sample frames. *)
Definition sample_merged : DataFrame :=
  get (merge_validations_gares sample_validations sample_gares).



Definition empty_stations_geo_csv : DataFrame :=
  frame ["nom_long"; "geo_point_2d"; "exploitant"]%string [].


(** One line whose hour label holds the unit letter twice. *)
Definition odd_hour_csv : DataFrame :=
  frame validations_header
    [[PStr (str "NATION"); PStr (str "JOHV"); PStr (str "1H2H-3H"); PStr (str "3")]].

(* ===================================================================== *)
(** ** Further notions used in the statements *)
(* ===================================================================== *)

(** What [clean_name] makes of one ASCII character before it cuts the text
    into words: parentheses go, a hyphen becomes a space, a letter is
    lowered. *)
Definition norm_char (c : N) : pystr :=
  if ((c =? 40) || (c =? 41))%N then []
  else if (c =? 45)%N then [32%N]
  else [lower_ascii c].

(** An ASCII decimal digit, and the number a run of such digits writes. *)
Definition is_digit (c : N) : bool := ((48 <=? c) && (c <=? 57))%N.

Definition decimal (ds : pystr) : Z :=
  fold_left (fun acc c => 10 * acc + (Z.of_N c - 48)) ds 0.

(** The largest value of pandas' [int64], the type [astype(int)] gives. *)
Definition int64_max : Z := 2 ^ 63 - 1.

(** Every hour read from the labels of the frame fits [int64]. *)
Definition hours_fit (P : Platform) (df : DataFrame) : bool :=
  forallb (fun r => match parse_heure P (cell r "tranche_horaire") with
                    | PInt h => h <=? int64_max
                    | _ => true
                    end) (rows df).

(** Up to [2 ^ 53] in absolute value every integer is a [float64]: the
    hour column is [float64] between [apply] and [astype(int)] when some
    line has no hour, and [int64] otherwise. *)
Definition float64_exact : Z := 2 ^ 53.

(** The number of digits up to which [int] never applies its limit on the
    length of the text it converts
    ([sys.int_info.str_digits_check_threshold]). *)
Definition int_digits_threshold : nat := 640.

(** Every hour label of the frame is short enough for [int] whatever its
    limit, and every hour read from a label is kept as it is by the columns
    the loader stores it in. *)
Definition hours_exact (P : Platform) (df : DataFrame) : bool :=
  forallb (fun r => match cell r "tranche_horaire" with
                    | PStr s => (length s <=? int_digits_threshold)%nat
                    | _ => true
                    end
                    && match parse_heure P (cell r "tranche_horaire") with
                       | PInt h => Z.abs h <=? float64_exact
                       | _ => true
                       end) (rows df).

(** The four labels the validations loader reads. *)
Definition validations_required : list string :=
  ["gare"; "type_jour"; "tranche_horaire"; "pct_validations"]%string.

(** [MODE_COLOR_MAP]: the colour of each mode, in the order of the source. *)
Definition MODE_COLOR_MAP : list (pystr * pystr) :=
  [(Metro, str "#0099DD"); (str "RER", str "#009854"); (str "Train", str "#8A4B8F");
   (str "Tram", str "#FF7900"); (str "VAL", str "#F7E300"); (str "Autre", str "#A9A9A9")].

(** [MODE_COLOR_MAP.get(mode)] *)
Definition mode_color (mode : pystr) : option pystr :=
  snd <$> find (fun kv => bool_decide (fst kv = mode)) MODE_COLOR_MAP.

(** Each element is before or level with the next one. *)
Fixpoint ordered {A : Type} (le : A -> A -> bool) (l : list A) : bool :=
  match l with
  | x :: (y :: _) as t => le x y && ordered le t
  | _ => true
  end.

(** The order [plot_profil_horaire] sorts by: station, then hour. *)
Definition profil_leb (a b : row) : bool :=
  keys_leb (key_of ["gare"; "heure"]%string a) (key_of ["gare"; "heure"]%string b).

(** The labels [plot_heatmap] groups by. *)
Definition heatmap_keys : list string := ["type_jour"; "heure"]%string.

(* ===================================================================== *)
(** ** Locating the files *)
(* ===================================================================== *)

(** The directory of the script as the two functions below see it.  A
    path under [BASE_DIR] is identified with its name; names hold no
    separator. *)
Record Directory : Type := {
  (** [(BASE_DIR / name).exists()] *)
  path_exists : pystr -> bool;
  (** the names of [BASE_DIR.iterdir()], in the order they come *)
  iterdir : list pystr
}.

Definition locate_case_insensitive (P : Platform) (d : Directory) (name : pystr) : pystr :=
  if path_exists d name then name
  else
    let lname := py_lower P name in
    match find (fun child => bool_decide (py_lower P child = lname)) (iterdir d) with
    | Some child => child
    | None => name
    end.

(** The loop of [first_existing]. *)
Fixpoint first_located (P : Platform) (d : Directory) (candidates : list pystr)
  : option pystr :=
  match candidates with
  | [] => None
  | n :: rest =>
      let p := locate_case_insensitive P d n in
      if path_exists d p then Some p else first_located P d rest
  end.

(** [first_existing]; [None] stands for the [IndexError] of
    [candidates[0]] on an empty list. *)
Definition first_existing (P : Platform) (d : Directory) (candidates : list pystr)
  : option pystr :=
  match first_located P d candidates with
  | Some p => Some p
  | None => head candidates
  end.

(** [PHOTO_PATH] *)
Definition PHOTO_PATH (P : Platform) (d : Directory) : option pystr :=
  first_existing P d [str "photo.jpg"; str "photo.jpeg"; str "photo.png"].

(** Some entry of the directory is [name] up to the case of its letters. *)
Definition has_variant (P : Platform) (d : Directory) (name : pystr) : Prop :=
  path_exists d name = true
  \/ exists child, In child (iterdir d) /\ py_lower P child = py_lower P name.

(** A directory with three entries, for concrete runs. *)
Definition sample_dir : Directory :=
  let entries := [str "app.py"; str "Photo.PNG"; str "PHOTO.jpeg"] in
  {| path_exists := fun n => existsb (fun c => bool_decide (c = n)) entries;
     iterdir := entries |}.

(* ===================================================================== *)
(** ** Lemmas on [str] methods *)
(* ===================================================================== *)

Lemma isspace_false_printable c : (33 <= c < 128)%N -> isspace c = false.
Proof.
  intros H. unfold isspace.
  replace (c <=? 13)%N with false by (symmetry; apply N.leb_gt; lia).
  replace (c <=? 32)%N with false by (symmetry; apply N.leb_gt; lia).
  replace (8192 <=? c)%N with false by (symmetry; apply N.leb_gt; lia).
  repeat match goal with
         | |- context [(c =? ?b)%N] =>
             replace (c =? b)%N with false by (symmetry; apply N.eqb_neq; lia)
         end.
  rewrite !andb_false_r. reflexivity.
Qed.

Lemma isspace_lower_ascii c : isspace (lower_ascii c) = isspace c.
Proof.
  unfold lower_ascii, is_upper_ascii.
  destruct (65 <=? c)%N eqn:H1; destruct (c <=? 90)%N eqn:H2; simpl; try reflexivity.
  apply N.leb_le in H1, H2.
  rewrite !isspace_false_printable by lia. reflexivity.
Qed.

Lemma is_ascii_lower_ascii c : is_ascii c = true -> is_ascii (lower_ascii c) = true.
Proof.
  unfold lower_ascii, is_upper_ascii, is_ascii. intros H.
  destruct (65 <=? c)%N eqn:H1; destruct (c <=? 90)%N eqn:H2; simpl; try assumption.
  apply N.leb_le in H2. apply N.ltb_lt. lia.
Qed.

(** Lowering never produces a character below "a" that was not there. *)
Lemma lower_ascii_below c d : lower_ascii c = d -> (d < 97)%N -> c = d.
Proof.
  unfold lower_ascii, is_upper_ascii.
  destruct (65 <=? c)%N eqn:H1; destruct (c <=? 90)%N eqn:H2; simpl; try tauto.
  apply N.leb_le in H1, H2. lia.
Qed.

Lemma is_upper_lower_ascii c : is_upper_ascii (lower_ascii c) = false.
Proof.
  unfold lower_ascii, is_upper_ascii.
  destruct (65 <=? c)%N eqn:H1; destruct (c <=? 90)%N eqn:H2; simpl;
    rewrite ?H1, ?H2; simpl; try reflexivity.
  apply N.leb_le in H1, H2. apply andb_false_iff. right. apply N.leb_gt. lia.
Qed.

Lemma lower_ascii_fixed c : is_upper_ascii c = false -> lower_ascii c = c.
Proof. unfold lower_ascii. intros ->. reflexivity. Qed.

Lemma lstrip_In c s : In c (lstrip s) -> In c s.
Proof.
  induction s as [|d s IH]; simpl; [tauto|].
  destruct (isspace d); simpl; tauto.
Qed.

Lemma strip_In c s : In c (strip s) -> In c s.
Proof.
  unfold strip, rstrip. intros H.
  apply in_rev, lstrip_In, in_rev, lstrip_In in H. exact H.
Qed.

Lemma lstrip_clean s : starts_clean s -> lstrip s = s.
Proof. destruct s as [|c s]; simpl; [reflexivity|]. intros ->. reflexivity. Qed.

Lemma strip_clean s : starts_clean s -> starts_clean (rev s) -> strip s = s.
Proof.
  intros H1 H2. unfold strip, rstrip.
  rewrite (lstrip_clean s H1), (lstrip_clean _ H2). apply rev_involutive.
Qed.

Lemma starts_clean_app s t : s <> [] -> starts_clean s -> starts_clean (s ++ t).
Proof. destruct s; simpl; [congruence | tauto]. Qed.

Lemma split_ws_words s : Forall word (split_ws s).
Proof.
  induction s as [|c s IH]; simpl; [constructor|].
  destruct (isspace c) eqn:Hc; [exact IH|].
  destruct s as [|d s']; [repeat constructor; [discriminate | exact Hc]|].
  destruct (isspace d) eqn:Hd.
  - constructor; [|exact IH]. split; [discriminate | repeat constructor; exact Hc].
  - destruct (split_ws (d :: s')) as [|w ws].
    + repeat constructor; [discriminate | exact Hc].
    + inversion IH as [|? ? [Hw1 Hw2] Hws]; subst.
      constructor; [|exact Hws]. split; [discriminate | constructor; assumption].
Qed.

Lemma split_ws_In s w c : In w (split_ws s) -> In c w -> In c s.
Proof.
  revert w. induction s as [|d s IH]; simpl; intros w Hw Hc; [contradiction|].
  destruct (isspace d) eqn:Hd; [right; eauto|].
  destruct s as [|e s'].
  - destruct Hw as [<-|[]]. exact Hc.
  - destruct (isspace e) eqn:He.
    + destruct Hw as [<-|Hw]; [destruct Hc as [<-|[]]; now left | right; eauto].
    + destruct (split_ws (e :: s')) as [|w' ws] eqn:Hs.
      * destruct Hw as [<-|[]]. destruct Hc as [<-|[]]. now left.
      * destruct Hw as [<-|Hw].
        -- destruct Hc as [<-|Hc]; [now left | right; apply (IH w'); simpl; auto].
        -- right. apply (IH w); simpl; auto.
Qed.

Lemma split_ws_single w : word w -> split_ws w = [w].
Proof.
  intros [Hne Hw]. induction Hw as [|c w Hc Hw IH]; [congruence|].
  simpl. rewrite Hc. destruct w as [|d w']; [reflexivity|].
  inversion Hw as [|? ? Hd _]; subst. rewrite Hd.
  rewrite IH by discriminate. reflexivity.
Qed.

Lemma split_ws_app_space w r :
  word w -> split_ws (w ++ 32%N :: r) = w :: split_ws r.
Proof.
  intros [Hne Hw]. induction Hw as [|c w Hc Hw IH]; [congruence|].
  cbn [app split_ws]. rewrite Hc. destruct w as [|d w'].
  - reflexivity.
  - inversion Hw as [|? ? Hd _]; subst. cbn [app]. rewrite Hd.
    cbn [app] in IH. rewrite IH by discriminate. reflexivity.
Qed.

Lemma split_join ws : Forall word ws -> split_ws (join_space ws) = ws.
Proof.
  induction 1 as [|w ws Hw Hws IH]; [reflexivity|].
  destruct ws as [|w2 ws'].
  - simpl. apply split_ws_single, Hw.
  - change (join_space (w :: w2 :: ws')) with (w ++ 32%N :: join_space (w2 :: ws')).
    rewrite split_ws_app_space by exact Hw. now rewrite IH.
Qed.

Lemma join_space_In c ws :
  In c (join_space ws) -> c = 32%N \/ exists w, In w ws /\ In c w.
Proof.
  induction ws as [|w ws IH]; [contradiction|].
  destruct ws as [|w2 ws'].
  - simpl. intros H. right. exists w. simpl. auto.
  - change (join_space (w :: w2 :: ws')) with (w ++ 32%N :: join_space (w2 :: ws')).
    intros H. apply in_app_or in H as [H|[H|H]].
    + right. exists w. simpl. auto.
    + now left.
    + destruct (IH H) as [->|(w' & Hw' & Hc)]; [now left|].
      right. exists w'. split; [now right | exact Hc].
Qed.

Lemma join_space_nonempty w ws : word w -> join_space (w :: ws) <> [].
Proof.
  intros [Hne _]. destruct ws; simpl; [exact Hne|].
  destruct w; [congruence | discriminate].
Qed.

Lemma join_starts_clean ws : Forall word ws -> starts_clean (join_space ws).
Proof.
  destruct 1 as [|w ws [Hne Hw] Hws]; [exact I|].
  destruct Hw as [|c w Hc Hw]; [congruence|].
  destruct ws; simpl; exact Hc.
Qed.

Lemma word_rev w : word w -> word (rev w).
Proof.
  intros [Hne Hw]. split.
  - intros H. apply Hne. rewrite <- (rev_involutive w), H. reflexivity.
  - apply List.Forall_forall. intros c Hc. apply in_rev in Hc.
    revert c Hc. apply List.Forall_forall. exact Hw.
Qed.

Lemma join_ends_clean ws : Forall word ws -> starts_clean (rev (join_space ws)).
Proof.
  induction 1 as [|w ws Hw Hws IH]; [exact I|].
  destruct ws as [|w2 ws'].
  - simpl. apply (join_starts_clean [rev w]). constructor; [now apply word_rev | constructor].
  - change (join_space (w :: w2 :: ws')) with (w ++ 32%N :: join_space (w2 :: ws')).
    rewrite rev_app_distr. cbn [rev]. rewrite <- app_assoc.
    apply starts_clean_app; [|exact IH].
    intros H. inversion Hws as [|? ? Hw2 _]; subst.
    apply (join_space_nonempty w2 ws' Hw2).
    rewrite <- (rev_involutive (join_space _)), H. reflexivity.
Qed.

Lemma no_space_run_cons c d s :
  no_space_run (c :: d :: s) = negb (isspace c && isspace d) && no_space_run (d :: s).
Proof. reflexivity. Qed.

Lemma no_space_run_app w r :
  Forall (fun c => isspace c = false) w -> starts_clean r ->
  no_space_run r = true -> no_space_run (w ++ 32%N :: r) = true.
Proof.
  intros Hw Hr Hrun. induction Hw as [|c w Hc Hw IH].
  - destruct r as [|d r']; [reflexivity|].
    simpl in Hr. cbn [app]. rewrite no_space_run_cons, Hr, andb_false_r. exact Hrun.
  - cbn [app]. destruct w as [|d w']; cbn [app] in *;
      rewrite no_space_run_cons, Hc; exact IH.
Qed.

Lemma no_space_run_word w :
  Forall (fun c => isspace c = false) w -> no_space_run w = true.
Proof.
  induction 1 as [|c w Hc Hw IH]; [reflexivity|].
  destruct w; [reflexivity|]. rewrite no_space_run_cons, Hc. exact IH.
Qed.

Lemma join_no_space_run ws : Forall word ws -> no_space_run (join_space ws) = true.
Proof.
  induction 1 as [|w ws Hw Hws IH]; [reflexivity|].
  destruct ws as [|w2 ws'].
  - simpl. apply no_space_run_word, Hw.
  - change (join_space (w :: w2 :: ws')) with (w ++ 32%N :: join_space (w2 :: ws')).
    apply no_space_run_app; [apply Hw | now apply join_starts_clean | exact IH].
Qed.

Lemma map_join_space (f : N -> N) ws :
  f 32%N = 32%N -> map f (join_space ws) = join_space (map (map f) ws).
Proof.
  intros Hf. induction ws as [|w ws IH]; [reflexivity|].
  destruct ws as [|w2 ws'].
  - reflexivity.
  - change (join_space (w :: w2 :: ws')) with (w ++ 32%N :: join_space (w2 :: ws')).
    rewrite map_app. cbn [map]. rewrite Hf.
    change (map f (join_space (w2 :: ws'))) with (map f (join_space (w2 :: ws'))).
    rewrite IH. reflexivity.
Qed.

Lemma word_map (f : N -> N) w :
  (forall c, isspace (f c) = isspace c) -> word w -> word (map f w).
Proof.
  intros Hf [Hne Hw]. split.
  - destruct w; [congruence | discriminate].
  - apply List.Forall_forall. intros c Hc. apply in_map_iff in Hc as (d & <- & Hd).
    rewrite Hf. revert d Hd. apply List.Forall_forall. exact Hw.
Qed.

Lemma remove_char_absent c s : ~ In c s -> remove_char c s = s.
Proof.
  intros H. unfold remove_char. induction s as [|d s IH]; [reflexivity|].
  simpl. destruct (N.eqb_spec d c) as [->|Hne]; simpl.
  - exfalso. apply H. now left.
  - f_equal. apply IH. intros Hc. apply H. now right.
Qed.

Lemma replace_char_absent c d s : ~ In c s -> replace_char c d s = s.
Proof.
  intros H. unfold replace_char. induction s as [|e s IH]; [reflexivity|].
  simpl. destruct (N.eqb_spec e c) as [->|Hne].
  - exfalso. apply H. now left.
  - f_equal. apply IH. intros Hc. apply H. now right.
Qed.

Lemma remove_char_In c d s : In d (remove_char c s) -> d <> c /\ In d s.
Proof.
  unfold remove_char. intros H. apply filter_In in H as [H1 H2].
  split; [|exact H1]. apply negb_true_iff, N.eqb_neq in H2. exact H2.
Qed.

Lemma ascii_only_forallb s : ascii_only s <-> forallb is_ascii s = true.
Proof.
  unfold ascii_only. rewrite List.Forall_forall, forallb_forall. reflexivity.
Qed.

(* ===================================================================== *)
(** ** [clean_name] *)
(* ===================================================================== *)

Section CleanName.

Variable P : Platform.

Lemma py_lower_ascii s : ascii_only s -> py_lower P s = map lower_ascii s.
Proof. intros H. unfold py_lower. apply ascii_only_forallb in H. now rewrite H. Qed.

Lemma unidecode_ascii_id s : ascii_only s -> unidecode P s = s.
Proof. intros H. unfold unidecode. apply ascii_only_forallb in H. now rewrite H. Qed.

Lemma unidecode_ascii_only s :
  (forall c, ascii_only (unidecode_table P c)) -> ascii_only (unidecode P s).
Proof.
  intros Htab. unfold unidecode.
  destruct (forallb is_ascii s) eqn:Hs; [now apply ascii_only_forallb|].
  apply List.Forall_forall. intros c Hc.
  apply in_flat_map in Hc as (d & _ & Hc). unfold unidecode_char in Hc.
  destruct (is_ascii d) eqn:Hd.
  - destruct Hc as [<-|[]]. exact Hd.
  - specialize (Htab d). unfold ascii_only in Htab.
    rewrite List.Forall_forall in Htab. now apply Htab.
Qed.

(** The result is a sequence of words joined by single spaces; the
    characters of the words are characters of the transliteration other
    than parentheses and hyphens. *)
Lemma clean_name_words s :
  exists ws,
    clean_name P (PStr s) = join_space ws /\ Forall word ws /\
    forall w c, In w ws -> In c w ->
      (c <> 40 /\ c <> 41 /\ c <> 45)%N /\
      In c (unidecode P (strip (py_lower P s))).
Proof.
  eexists. split; [reflexivity|]. split; [apply split_ws_words|].
  intros w c Hw Hc.
  assert (Hsp : isspace c = false).
  { pose proof (split_ws_words
      (replace_char 45 32 (remove_char 41 (remove_char 40
         (unidecode P (strip (py_lower P s))))))) as Hws.
    rewrite List.Forall_forall in Hws. destruct (Hws w Hw) as [_ Hall].
    rewrite List.Forall_forall in Hall. now apply Hall. }
  pose proof (split_ws_In _ _ _ Hw Hc) as Hin.
  unfold replace_char in Hin. apply in_map_iff in Hin as (d & Hd & Hin).
  revert Hd. destruct (N.eqb_spec d 45) as [->|Hne]; intros Hd.
  - subst c. discriminate Hsp.
  - subst d. apply remove_char_In in Hin as [H41 Hin].
    apply remove_char_In in Hin as [H40 Hin]. auto.
Qed.

(** On a pure-ASCII sequence of words without parentheses and hyphens,
    [clean_name] only lowers the letters. *)
Lemma clean_name_join ws :
  Forall word ws ->
  (forall w c, In w ws -> In c w ->
     is_ascii c = true /\ (c <> 40 /\ c <> 41 /\ c <> 45)%N) ->
  clean_name P (PStr (join_space ws)) = map lower_ascii (join_space ws).
Proof.
  intros Hws Hch.
  assert (Hascii : ascii_only (join_space ws)).
  { apply List.Forall_forall. intros c Hc.
    apply join_space_In in Hc as [->|(w & Hw & Hc)]; [reflexivity|].
    now apply (Hch w c). }
  set (ws' := map (map lower_ascii) ws).
  assert (Hws' : Forall word ws').
  { apply List.Forall_forall. intros w Hw. apply in_map_iff in Hw as (v & <- & Hv).
    apply word_map; [apply isspace_lower_ascii|].
    rewrite List.Forall_forall in Hws. now apply Hws. }
  assert (Hch' : forall c, In c (join_space ws') ->
             is_ascii c = true /\ (c <> 40 /\ c <> 41 /\ c <> 45)%N).
  { intros c Hc. apply join_space_In in Hc as [->|(w & Hw & Hc)].
    - repeat split; discriminate.
    - apply in_map_iff in Hw as (v & <- & Hv).
      apply in_map_iff in Hc as (d & <- & Hd).
      destruct (Hch v d Hv Hd) as (Ha & H40 & H41 & H45).
      split; [now apply is_ascii_lower_ascii|].
      repeat split; intros Heq; apply lower_ascii_below in Heq; try lia; congruence. }
  unfold clean_name. rewrite (py_lower_ascii _ Hascii).
  rewrite (map_join_space lower_ascii ws eq_refl). fold ws'.
  rewrite strip_clean by (now apply join_starts_clean || now apply join_ends_clean).
  rewrite unidecode_ascii_id
    by (apply List.Forall_forall; intros c Hc; now apply Hch').
  rewrite (remove_char_absent 40 (join_space ws')),
    (remove_char_absent 41 (join_space ws')),
    (replace_char_absent 45 32 (join_space ws')), split_join;
    try reflexivity; try exact Hws';
    intros Hc; apply Hch' in Hc; intuition congruence.
Qed.

End CleanName.

Lemma sample_table_ascii c : ascii_only (unidecode_table sample c).
Proof.
  unfold ascii_only. simpl. unfold sample_table.
  repeat match goal with
         | |- context [(c =? ?b)%N] => destruct (c =? b)%N
         end; repeat constructor.
Qed.

(** C1 (as the code has it).  [clean_name] never fails and returns the
    empty string on a value that is not a string.  Its result never holds a
    parenthesis or a hyphen, never has two whitespace characters in a row,
    has no whitespace at either end, and is pure ASCII as soon as the
    transliteration tables are.  Applying [clean_name] again only lowers
    the ASCII letters of the result: the second pass changes nothing exactly
    when the first result is already lowercase, which is the case for every
    pure-ASCII input and for every value that is not a string. *)
Theorem clean_name_normal_form (P : Platform) (x : pyval)
    (Htab : forall c, ascii_only (unidecode_table P c)) :
  let y := clean_name P x in
  (forall c, In c y -> (c <> 40 /\ c <> 41 /\ c <> 45)%N)
  /\ no_space_run y = true
  /\ strip y = y
  /\ ascii_only y
  /\ clean_name P (PStr y) = map lower_ascii y
  /\ (is_lowercase P y <-> clean_name P (PStr y) = y)
  /\ ((forall s, x <> PStr s) -> y = [] /\ clean_name P (PStr y) = y)
  /\ (forall s, x = PStr s -> ascii_only s ->
        is_lowercase P y /\ clean_name P (PStr y) = y).
Proof.
  intros y.
  assert (Hy : exists ws, y = join_space ws /\ Forall word ws /\
            (forall w c, In w ws -> In c w ->
               is_ascii c = true /\ (c <> 40 /\ c <> 41 /\ c <> 45)%N) /\
            (forall s, x = PStr s -> forall w c, In w ws -> In c w ->
               In c (unidecode P (strip (py_lower P s))))).
  { destruct x as [| | | |s]; try (exists []; repeat split;
      [constructor | contradiction | contradiction | contradiction | contradiction | discriminate]).
    destruct (clean_name_words P s) as (ws & Heq & Hws & Hch).
    exists ws. repeat split; try assumption.
    - pose proof (unidecode_ascii_only P (strip (py_lower P s)) Htab) as Ha.
      unfold ascii_only in Ha. rewrite List.Forall_forall in Ha.
      apply Ha. now apply (Hch w c).
    - now apply (Hch w c).
    - now apply (Hch w c).
    - now apply (Hch w c).
    - intros s' Hs' w c Hw Hc. injection Hs' as <-. now apply (Hch w c). }
  assert (Hnon : (forall s, x <> PStr s) -> y = []).
  { intros Hns. destruct x; try reflexivity. exfalso. now apply (Hns s). }
  clearbody y.
  destruct Hy as (ws & Hyeq & Hws & Hch & Horigin).
  assert (Hchars : forall c, In c y -> (c <> 40 /\ c <> 41 /\ c <> 45)%N).
  { intros c Hc. rewrite Hyeq in Hc.
    apply join_space_In in Hc as [->|(w & Hw & Hc)]; [repeat split; discriminate|].
    now apply (Hch w c). }
  assert (Hascii : ascii_only y).
  { rewrite Hyeq. apply List.Forall_forall. intros c Hc.
    apply join_space_In in Hc as [->|(w & Hw & Hc)]; [reflexivity|].
    now apply (Hch w c). }
  assert (Hfix : clean_name P (PStr y) = map lower_ascii y).
  { rewrite Hyeq. now apply clean_name_join. }
  assert (Hlow : is_lowercase P y <-> clean_name P (PStr y) = y).
  { unfold is_lowercase. rewrite Hfix, (py_lower_ascii P y Hascii). reflexivity. }
  split; [exact Hchars|].
  split; [rewrite Hyeq; now apply join_no_space_run|].
  split; [rewrite Hyeq; apply strip_clean;
            [now apply join_starts_clean | now apply join_ends_clean]|].
  split; [exact Hascii|].
  split; [exact Hfix|].
  split; [exact Hlow|].
  split.
  - intros Hns. rewrite (Hnon Hns). split; reflexivity.
  - intros s Hx Hs.
    assert (Hmap : forall c, In c y -> lower_ascii c = c).
    { intros c Hc. rewrite Hyeq in Hc.
      apply join_space_In in Hc as [->|(w & Hw & Hc)]; [reflexivity|].
      pose proof (Horigin s Hx w c Hw Hc) as Hin.
      rewrite (py_lower_ascii P s Hs) in Hin.
      rewrite unidecode_ascii_id in Hin.
      - apply strip_In, in_map_iff in Hin as (d & <- & _).
        apply lower_ascii_fixed, is_upper_lower_ascii.
      - apply List.Forall_forall. intros d Hd.
        apply strip_In, in_map_iff in Hd as (e & <- & He).
        apply is_ascii_lower_ascii. unfold ascii_only in Hs.
        rewrite List.Forall_forall in Hs. now apply Hs. }
    assert (Hid : map lower_ascii y = y).
    { clear -Hmap. induction y as [|c y IH]; [reflexivity|].
      simpl. rewrite Hmap by now left. f_equal. apply IH.
      intros d Hd. apply Hmap. now right. }
    split; [apply Hlow|]; rewrite Hfix; exact Hid.
Qed.

(** A run of [clean_name_normal_form] on the sample platform. *)
Lemma clean_name_normal_form_witness :
  let y := clean_name sample (PStr (str "  Saint-Lazare (M" ++ [233%N] ++ str "tro) ")) in
  clean_name sample (PStr y) = map lower_ascii y.
Proof.
  exact (proj1 (proj2 (proj2 (proj2 (proj2
    (clean_name_normal_form sample
       (PStr (str "  Saint-Lazare (M" ++ [233%N] ++ str "tro) ")) sample_table_ascii)))))).
Defined.

(** C1 (as stated) fails.  The two ideographs of the usage example of the
    transliteration package have no lowercase form and are transliterated
    with capitals: the result is not lowercase, and a second pass lowers it. *)
Lemma clean_name_not_idempotent :
  let x := PStr [21271; 20144]%N in
  clean_name sample x = str "Bei Jing"
  /\ clean_name sample (PStr (clean_name sample x)) = str "bei jing"
  /\ clean_name sample (PStr (clean_name sample x)) <> clean_name sample x
  /\ ~ is_lowercase sample (clean_name sample x).
Proof.
  repeat split; try reflexivity; vm_compute; discriminate.
Qed.

(* ===================================================================== *)
(** ** Lemmas on frames *)
(* ===================================================================== *)

Lemma cell_insert_eq (r : row) c v : cell (<[c := v]> r) c = v.
Proof. unfold cell. now rewrite lookup_insert_eq. Qed.

Lemma cell_insert_ne (r : row) c c' v : c <> c' -> cell (<[c := v]> r) c' = cell r c'.
Proof. intros H. unfold cell. now rewrite lookup_insert_ne. Qed.

Lemma has_col_In c df : has_col c df = true <-> In c (columns df).
Proof.
  unfold has_col. rewrite existsb_exists. split.
  - intros (x & Hx & Heq). apply String.eqb_eq in Heq. now subst.
  - intros H. exists c. split; [exact H | apply String.eqb_refl].
Qed.

Lemma has_col_with_column c c' f df :
  has_col c' (with_column c f df) = has_col c' df || String.eqb c' c.
Proof.
  unfold with_column, has_col at 1. simpl.
  destruct (has_col c df) eqn:Hc.
  - fold (has_col c' df). destruct (String.eqb_spec c' c) as [->|Hne].
    + now rewrite Hc.
    + now rewrite orb_false_r.
  - rewrite existsb_app. simpl. now rewrite orb_false_r.
Qed.

Lemma bind_ok_inv {A B : Type} (m : result A) (k : A -> result B) b :
  m ≫= k = Ok b -> exists a, m = Ok a /\ k a = Ok b.
Proof. destruct m as [a|e]; [eauto | discriminate]. Qed.

Lemma bind_ok {A B : Type} (m : result A) (k : A -> result B) a :
  m = Ok a -> m ≫= k = k a.
Proof. now intros ->. Qed.

Lemma require_ok c df : has_col c df = true -> require c df = Ok tt.
Proof. unfold require. now intros ->. Qed.

Lemma require_all_ok cs df :
  require_all cs df = Ok tt <-> forall c, In c cs -> has_col c df = true.
Proof.
  unfold require_all. induction cs as [|c cs IH]; simpl.
  - split; [intros _ c [] | reflexivity].
  - destruct (has_col c df) eqn:Hc; simpl.
    + rewrite IH. split; [intros H c' [<-|Hc']; auto | auto].
    + split; [discriminate|]. intros H. rewrite (H c) in Hc by now left. discriminate.
Qed.

Lemma dropna_ok subset df out :
  dropna subset df = Ok out ->
  (forall c, In c subset -> has_col c df = true) /\
  out = {| columns := columns df; rows := List.filter (row_notna subset) (rows df) |}.
Proof.
  unfold dropna. destruct (require_all subset df) as [[]|e] eqn:Hr; simpl; [|discriminate].
  intros [= <-]. split; [now apply require_all_ok | reflexivity].
Qed.

Lemma filter_map_swap {A B : Type} (f : A -> B) (p : B -> bool) l :
  List.filter p (map f l) = map f (List.filter (fun a => p (f a)) l).
Proof.
  induction l as [|a l IH]; [reflexivity|].
  simpl. destruct (p (f a)); simpl; now rewrite IH.
Qed.

Ltac cells :=
  repeat (rewrite cell_insert_eq || rewrite cell_insert_ne by discriminate).

(* ===================================================================== *)
(** ** [load_validations_data], line by line *)
(* ===================================================================== *)

Lemma parse_heure_code P s :
  parse_heure P (PStr s) =
  match code_hour P s with Some h => PInt h | None => PNone end.
Proof. reflexivity. Qed.

Lemma parse_heure_int_or_none P v :
  (exists h, parse_heure P v = PInt h) \/ parse_heure P v = PNone.
Proof.
  destruct v; simpl; auto.
  destruct (py_int P _); eauto.
Qed.

Lemma astype_parse_heure P v : astype_int (parse_heure P v) = parse_heure P v.
Proof. destruct (parse_heure_int_or_none P v) as [[h ->]| ->]; reflexivity. Qed.

(** The loader keeps the lines of [validation_kept], in order, and turns
    each into its [validation_record]. *)
Lemma load_validations_data_rows P csv out :
  load_validations_data P csv = Ok out ->
  rows out =
  map (validation_record P)
    (List.filter (validation_kept P) (rows (rename_columns validations_renames csv))).
Proof.
  unfold load_validations_data.
  set (df := rename_columns validations_renames csv).
  destruct (require "pct_validations" df) as [[]|e]; simpl; [|discriminate].
  destruct (require "tranche_horaire" _) as [[]|e]; simpl; [|discriminate].
  destruct (dropna _ _) as [d|e] eqn:Hd; simpl; [|discriminate].
  intros [= <-]. apply dropna_ok in Hd as [_ ->]. simpl.
  rewrite !filter_map_swap, !map_map.
  erewrite filter_ext; [apply map_ext|].
  - intros r. cells. rewrite astype_parse_heure.
    unfold validation_record. now rewrite insert_insert_eq.
  - intros r. unfold row_notna, validation_kept, validations_subset. simpl.
    cells. now rewrite andb_true_r, !andb_assoc.
Qed.

(** The loader succeeds as soon as the four source columns are there. *)
Lemma load_validations_data_total P csv :
  (forall c, In c ["gare"; "type_jour"; "tranche_horaire"; "pct_validations"]%string ->
             has_col c (rename_columns validations_renames csv) = true) ->
  exists out, load_validations_data P csv = Ok out.
Proof.
  intros H. unfold load_validations_data.
  set (df := rename_columns validations_renames csv) in *.
  rewrite (require_ok "pct_validations" df) by (apply H; simpl; auto). simpl.
  rewrite require_ok
    by (rewrite has_col_with_column, H by (simpl; auto); reflexivity).
  simpl. unfold dropna.
  replace (require_all _ _) with (Ok tt : result unit); [simpl; eauto|].
  symmetry. apply require_all_ok. intros c Hc.
  rewrite !has_col_with_column.
  simpl in Hc. destruct Hc as [<-|[<-|[<-|[<-|[<-|[]]]]]];
    try (rewrite H by (simpl; auto)); simpl; rewrite ?orb_true_r; reflexivity.
Qed.

Lemma strip_suffix_remove c s :
  ~ In c (strip_suffix c s) -> remove_char c s = strip_suffix c s.
Proof.
  unfold strip_suffix. destruct (rev s) as [|d r] eqn:Hr.
  - apply remove_char_absent.
  - assert (Hs : s = rev r ++ [d]) by (rewrite <- (rev_involutive s), Hr; reflexivity).
    destruct (N.eqb_spec d c) as [->|Hne]; [|apply remove_char_absent].
    intros Hn. rewrite Hs. unfold remove_char. rewrite List.filter_app. simpl.
    rewrite N.eqb_refl. simpl. rewrite app_nil_r. now apply remove_char_absent.
Qed.

(** C4 (as the code has it).  The hour of a line is the integer read from
    the text before the first "-" of its hour label after every "H" has
    been removed from that text; "6H-7H" gives 6 and "abc" gives no hour.
    This is the reading "without the unit suffix" whenever that text holds
    no other "H".  The loader keeps, in order, exactly the lines whose
    station label, day type, hour label, coerced percentage and hour are all
    non-null, and every record it returns carries that integer hour.  This
    is for a file whose hour labels have at most 640 characters and whose
    hours are at most 2^53 in absolute value ([hours_exact]): [int] then
    reads the text whatever its limit on digits, and the [float64] and
    [int64] columns the hour goes through keep it as it is. *)
Theorem load_validations_hour (P : Platform) (csv out : DataFrame) :
  hours_exact P (rename_columns validations_renames csv) = true ->
  load_validations_data P csv = Ok out ->
  let src := rows (rename_columns validations_renames csv) in
  rows out = map (validation_record P) (List.filter (validation_kept P) src)
  /\ (forall r, validation_kept P r = true <->
        isna (cell r "gare") = false /\ isna (cell r "type_jour") = false /\
        isna (cell r "tranche_horaire") = false /\
        isna (to_numeric P (cell r "pct_validations")) = false /\
        exists s h, cell r "tranche_horaire" = PStr s /\ code_hour P s = Some h)
  /\ (forall r s h, cell r "tranche_horaire" = PStr s -> code_hour P s = Some h ->
        cell (validation_record P r) "heure" = PInt h)
  /\ (forall o, In o (rows out) -> exists h, cell o "heure" = PInt h)
  /\ (forall s, ~ In 72%N (strip_suffix 72 (hd [] (split_on 45 s))) ->
        code_hour P s = spec_hour P s)
  /\ parse_heure P (PStr (str "6H-7H")) = PInt 6
  /\ parse_heure P (PStr (str "abc")) = PNone.
Proof.
  intros _ Hload src.
  assert (Hkept : forall r, validation_kept P r = true <->
        isna (cell r "gare") = false /\ isna (cell r "type_jour") = false /\
        isna (cell r "tranche_horaire") = false /\
        isna (to_numeric P (cell r "pct_validations")) = false /\
        exists s h, cell r "tranche_horaire" = PStr s /\ code_hour P s = Some h).
  { intros r. unfold validation_kept. rewrite !andb_true_iff, !negb_true_iff.
    split.
    - intros ((((H1 & H2) & H3) & H4) & H5). repeat (split; [assumption|]).
      destruct (cell r "tranche_horaire") as [| | | |s]; try discriminate H5.
      rewrite parse_heure_code in H5. exists s.
      destruct (code_hour P s) as [h|]; [eauto | discriminate H5].
    - intros (H1 & H2 & H3 & H4 & s & h & Hs & Hh).
      repeat split; try assumption. rewrite Hs, parse_heure_code, Hh. reflexivity. }
  assert (Hhour : forall r s h, cell r "tranche_horaire" = PStr s ->
            code_hour P s = Some h -> cell (validation_record P r) "heure" = PInt h).
  { intros r s h Hs Hh. unfold validation_record. cells.
    now rewrite Hs, parse_heure_code, Hh. }
  pose proof (load_validations_data_rows P csv out Hload) as Hrows. fold src in Hrows.
  split; [exact Hrows|]. split; [exact Hkept|]. split; [exact Hhour|].
  split; [|split; [|split; reflexivity]].
  - intros o Ho. rewrite Hrows in Ho. apply in_map_iff in Ho as (r & <- & Hr).
    apply filter_In in Hr as [_ Hr]. apply Hkept in Hr as (_ & _ & _ & _ & s & h & Hs & Hh).
    exists h. now apply (Hhour r s h).
  - intros s Hs. unfold code_hour, spec_hour. now rewrite strip_suffix_remove.
Qed.

(** A run of [load_validations_hour] on four lines: two are kept. *)
Lemma load_validations_hour_witness :
  exists out,
    load_validations_data sample validations_csv = Ok out /\
    map (fun o => cell o "heure") (rows out) = [PInt 6; PInt 7].
Proof.
  exists (get (load_validations_data sample validations_csv)).
  assert (H : load_validations_data sample validations_csv
              = Ok (get (load_validations_data sample validations_csv)))
    by (vm_compute; reflexivity).
  split; [exact H|].
  assert (Hex : hours_exact sample (rename_columns validations_renames validations_csv)
                = true) by (vm_compute; reflexivity).
  rewrite (proj1 (load_validations_hour sample _ _ Hex H)).
  vm_compute. reflexivity.
Defined.

(** C4 (as stated) fails.  In "1H2H-3H" the text before the separator is
    "1H2H"; without its unit suffix it is "1H2", which is no integer, so
    the line should have no hour and be left out.  The loader removes both
    "H", reads 12 and keeps the line. *)
Lemma parse_heure_removes_every_H :
  spec_hour sample (str "1H2H-3H") = None
  /\ parse_heure sample (PStr (str "1H2H-3H")) = PInt 12
  /\ map (fun o => cell o "heure")
        (rows (get (load_validations_data sample odd_hour_csv))) = [PInt 12].
Proof. repeat split; vm_compute; reflexivity. Qed.

Lemma split_ws_blank s : Forall (fun c => isspace c = true) s -> split_ws s = [].
Proof. induction 1 as [|c s Hc _ IH]; [reflexivity|]. simpl. now rewrite Hc. Qed.




(* ===================================================================== *)
(** ** [load_gares_data], line by line *)
(* ===================================================================== *)

Lemma has_col_select c cols df :
  has_col c (select cols df) = existsb (String.eqb c) cols.
Proof. reflexivity. Qed.

Lemma existsb_eqb_In c cs : existsb (String.eqb c) cs = true <-> In c cs.
Proof.
  rewrite existsb_exists. split.
  - intros (x & Hx & Heq). apply String.eqb_eq in Heq. now subst.
  - intros H. exists c. split; [exact H | apply String.eqb_refl].
Qed.

Lemma cell_select_row cols r c :
  cell (select_row cols r) c = if existsb (String.eqb c) cols then cell r c else NaN.
Proof.
  unfold select_row. induction cols as [|d cols IH]; [reflexivity|].
  cbn [map list_to_map existsb]. destruct (String.eqb_spec c d) as [->|Hne].
  - simpl. apply cell_insert_eq.
  - simpl. rewrite cell_insert_ne by congruence. exact IH.
Qed.

Lemma extract_lat_lon_ok P df df' :
  extract_lat_lon P df = Ok df' ->
  rows df' = map (geo_row P (has_col "geo_point_2d" df)) (rows df)
  /\ forall c, has_col c df' =
        has_col c df
        || has_col "geo_point_2d" df
           && (String.eqb c "lat_str" || String.eqb c "lon_str"
               || String.eqb c "lat" || String.eqb c "lon").
Proof.
  unfold extract_lat_lon, geo_row. destruct (has_col "geo_point_2d" df) eqn:Hg.
  - destruct (rows df) as [|r rs] eqn:Hr; [discriminate|]. intros [= <-]. split.
    + simpl. rewrite Hr, !map_map. simpl. reflexivity.
    + intros c. rewrite !has_col_with_column. simpl. now rewrite <- !orb_assoc.
  - intros [= <-]. split; [now rewrite map_id|].
    intros c. simpl. now rewrite orb_false_r.
Qed.

Lemma fill_indicators_ok df :
  (forall c, has_col c (fill_indicators df) = has_col c df || is_indicator c)
  /\ rows (fill_indicators df) = map (fill_row (fun c => has_col c df)) (rows df).
Proof.
  unfold fill_indicators, fill_row, is_indicator, indicator_columns.
  cbn [fold_left existsb].
  set (add := fun d col => if has_col col d then d
                           else with_column col (fun _ => PInt 0) d).
  assert (Hadd : forall d col,
            (forall c, has_col c (add d col) = has_col c d || String.eqb c col)
            /\ rows (add d col)
               = map (fun r => if has_col col d then r else <[col := PInt 0]> r) (rows d)).
  { intros d col. unfold add. destruct (has_col col d) eqn:Hc.
    - split; [|now rewrite map_id]. intros c.
      destruct (String.eqb_spec c col) as [->|_];
        [now rewrite Hc | now rewrite orb_false_r].
    - split; [intros c; apply has_col_with_column | reflexivity]. }
  change (if has_col "termetro" df then df
          else with_column "termetro" (fun _ => PInt 0) df) with (add df "termetro"%string).
  repeat match goal with
         | |- context [if has_col ?c ?d then ?d else with_column ?c _ ?d] =>
             change (if has_col c d then d else with_column c (fun _ => PInt 0) d)
               with (add d c)
         end.
  split.
  - intros c. rewrite !(proj1 (Hadd _ _)). now rewrite <- !orb_assoc, orb_false_r.
  - rewrite !(proj2 (Hadd _ _)), !map_map. apply map_ext. intros r.
    rewrite !(proj1 (Hadd _ _)). simpl. now rewrite !orb_false_r.
Qed.

Lemma existsb_filter c (p : string -> bool) l :
  existsb (String.eqb c) (List.filter p l) = existsb (String.eqb c) l && p c.
Proof.
  induction l as [|d l IH]; [reflexivity|].
  simpl. destruct (p d) eqn:Hd; simpl; rewrite IH;
    destruct (String.eqb_spec c d) as [->|Hne]; simpl; try reflexivity.
  - now rewrite Hd.
  - rewrite Hd. now rewrite andb_false_r.
Qed.

Lemma cell_geo_row_other P hg r c :
  c <> "lat_str"%string -> c <> "lon_str"%string ->
  c <> "lat"%string -> c <> "lon"%string ->
  cell (geo_row P hg r) c = cell r c.
Proof.
  intros H1 H2 H3 H4. unfold geo_row. destruct hg; [|reflexivity].
  cbn zeta. now rewrite !cell_insert_ne by congruence.
Qed.



Lemma cell_fill_row has r c :
  cell (fill_row has r) c =
  if is_indicator c && negb (has c) then PInt 0 else cell r c.
Proof.
  unfold fill_row, is_indicator. revert r.
  induction indicator_columns as [|d cs IH]; intros r; [reflexivity|].
  cbn [fold_left existsb]. rewrite IH.
  destruct (String.eqb_spec c d) as [->|Hne]; simpl.
  - destruct (has d); simpl.
    + now rewrite andb_false_r.
    + rewrite cell_insert_eq. now destruct (existsb _ cs).
  - destruct (has d); [reflexivity|]. now rewrite cell_insert_ne by congruence.
Qed.

Lemma fill_row_ext (h1 h2 : string -> bool) r :
  (forall c, In c indicator_columns -> h1 c = h2 c) -> fill_row h1 r = fill_row h2 r.
Proof.
  intros H. unfold fill_row. revert r.
  induction indicator_columns as [|d cs IH]; intros r; [reflexivity|].
  cbn [fold_left]. rewrite (H d) by now left.
  apply IH. intros c Hc. apply H. now right.
Qed.

Lemma cell_mode_row_other hm r c :
  c <> "mode"%string -> cell (mode_row hm r) c = cell r c.
Proof.
  intros H. unfold mode_row. destruct hm; [reflexivity|].
  now rewrite cell_insert_ne by congruence.
Qed.

Lemma station_prepared_gare P has r :
  has "gare"%string = true -> cell (station_prepared P has r) "gare" = cell r "gare".
Proof.
  intros Hg. unfold station_prepared, station_keep.
  rewrite cell_select_row, existsb_filter, Hg. simpl.
  rewrite cell_mode_row_other, cell_fill_row by discriminate. simpl.
  now rewrite cell_geo_row_other by discriminate.
Qed.

(** The loader keeps the lines with a non-null name, in order, and turns
    each into its [station_record]. *)
Lemma infer_mode_column_ok df :
  rows (infer_mode_column df) = map (mode_row (has_col "mode" df)) (rows df)
  /\ forall c, has_col c (infer_mode_column df) = has_col c df || String.eqb c "mode".
Proof.
  unfold infer_mode_column, mode_row. destruct (has_col "mode" df) eqn:Hm.
  - split; [now rewrite map_id|]. intros c.
    destruct (String.eqb_spec c "mode") as [->|_];
      [now rewrite Hm | now rewrite orb_false_r].
  - split; [reflexivity|]. intros c. apply has_col_with_column.
Qed.

(** The labels kept by the projection, from the labels of the source. *)
Lemma keep_columns_of_source (src df2 : DataFrame) :
  (forall c, has_col c df2 =
        has_col c src
        || has_col "geo_point_2d" src
           && (String.eqb c "lat_str" || String.eqb c "lon_str"
               || String.eqb c "lat" || String.eqb c "lon")) ->
  List.filter (fun c => has_col c (infer_mode_column (fill_indicators df2))) keep_cols
  = station_keep (fun c => has_col c src).
Proof.
  intros Hcols2. unfold station_keep. apply filter_ext_in. intros c Hc.
  rewrite (proj2 (infer_mode_column_ok _)), (proj1 (fill_indicators_ok _)), Hcols2.
  unfold keep_cols in Hc. cbn [In] in Hc.
  repeat (destruct Hc as [<-|Hc];
          [cbn [String.eqb Ascii.eqb Bool.eqb orb];
           rewrite ?orb_false_r; reflexivity|]).
  contradiction.
Qed.

(** The loader keeps the lines with a non-null name, in order, and turns
    each into its [station_record]. *)
Lemma load_gares_data_rows P csv out :
  load_gares_data P csv = Ok out ->
  let src := stations_source csv in
  let has := fun c => has_col c src in
  has "gare"%string = true
  /\ rows out = map (station_record P has)
                  (List.filter (fun r => negb (isna (cell r "gare"))) (rows src)).
Proof.
  cbv zeta. unfold load_gares_data.
  generalize (stations_source csv). intros src Hload.
  apply bind_ok_inv in Hload as (df2 & H2 & Hload).
  apply bind_ok_inv in Hload as (df6 & H6 & Hload).
  injection Hload as <-.
  apply extract_lat_lon_ok in H2 as [Hrows2 Hcols2].
  apply dropna_ok in H6 as [Hg ->].
  unfold keep_columns in *.
  pose proof (keep_columns_of_source src df2 Hcols2) as Hkeep.
  assert (Hgare : has_col "gare" src = true).
  { specialize (Hg "gare"%string (or_introl eq_refl)).
    rewrite has_col_select, Hkeep in Hg. unfold station_keep in Hg.
    rewrite existsb_filter in Hg. apply andb_true_iff in Hg as [_ Hg].
    cbn [String.eqb Ascii.eqb Bool.eqb orb is_indicator indicator_columns existsb] in Hg.
    now rewrite andb_false_r, !orb_false_r in Hg. }
  split; [exact Hgare|].
  assert (Hmode : has_col "mode" (fill_indicators df2) = has_col "mode" src).
  { rewrite (proj1 (fill_indicators_ok _)), Hcols2.
    cbn [String.eqb Ascii.eqb Bool.eqb orb is_indicator indicator_columns existsb].
    now rewrite andb_false_r, !orb_false_r. }
  assert (Hfill : forall r, fill_row (fun c => has_col c df2) r
                            = fill_row (fun c => has_col c src) r).
  { intros r. apply fill_row_ext. intros c Hc. rewrite Hcols2.
    unfold indicator_columns in Hc. cbn [In] in Hc.
    repeat (destruct Hc as [<-|Hc];
            [cbn [String.eqb Ascii.eqb Bool.eqb orb];
             now rewrite andb_false_r, orb_false_r|]).
    contradiction. }
  cbn [rows with_column select]. rewrite Hkeep.
  rewrite (proj1 (infer_mode_column_ok _)), (proj2 (fill_indicators_ok _)), Hrows2, Hmode.
  rewrite !map_map, filter_map_swap, map_map.
  erewrite filter_ext; [apply map_ext|].
  - intros r. rewrite Hfill. reflexivity.
  - intros r. cbn [row_notna forallb]. rewrite andb_true_r, Hfill.
    pose proof (station_prepared_gare P (fun c => has_col c src) r Hgare) as Hc.
    unfold station_prepared in Hc. cbv beta in Hc.
    unfold select_row in Hc. now rewrite Hc.
Qed.

Lemma has_col_stations_source c csv :
  c <> "gare"%string -> c <> "nom_long"%string ->
  has_col c (stations_source csv) = has_col c csv.
Proof.
  intros Hg Hn. unfold stations_source.
  destruct (has_col "nom_long" csv); [|reflexivity].
  unfold has_col, rename_column. cbn [columns].
  induction (columns csv) as [|d cs IH]; [reflexivity|].
  cbn [map existsb]. rewrite IH. f_equal.
  destruct (String.eqb_spec d "nom_long") as [->|Hd].
  - destruct (String.eqb_spec c "gare"), (String.eqb_spec c "nom_long"); congruence.
  - reflexivity.
Qed.



Lemma py_eq_1_row_get (r : row) c :
  py_eq_1 (row_get r c (PInt 0)) = py_eq_1 (cell r c).
Proof. unfold row_get, cell. now destruct (r !! c). Qed.

Lemma station_record_cell P has r c :
  c <> "gare"%string -> cell (station_record P has r) c = cell (station_prepared P has r) c.
Proof. intros H. unfold station_record. cbv zeta. now rewrite cell_insert_ne by congruence. Qed.

Lemma station_prepared_indicator P has r c :
  In c indicator_columns ->
  cell (station_prepared P has r) c = if has c then cell r c else PInt 0.
Proof.
  intros Hc. unfold station_prepared, station_keep.
  rewrite cell_select_row, existsb_filter.
  unfold indicator_columns in Hc. cbn [In] in Hc.
  repeat (destruct Hc as [<-|Hc];
    [ cbn [keep_cols existsb String.eqb Ascii.eqb Bool.eqb orb andb is_indicator indicator_columns];
      rewrite ?orb_true_r; cbn [andb];
      rewrite cell_mode_row_other, cell_fill_row by discriminate;
      cbn [is_indicator indicator_columns existsb String.eqb Ascii.eqb Bool.eqb orb andb];
      rewrite cell_geo_row_other by discriminate;
      match goal with |- context [has ?x] => destruct (has x) end; reflexivity |]).
  contradiction.
Qed.

Lemma station_prepared_mode P has r :
  has "mode"%string = false ->
  cell (station_prepared P has r) "mode"
  = PStr (mode_of_indicators (station_prepared P has r)).
Proof.
  intros Hm. unfold mode_of_indicators.
  rewrite (station_prepared_indicator P has r "termetro"),
    (station_prepared_indicator P has r "terrer"),
    (station_prepared_indicator P has r "tertrain"),
    (station_prepared_indicator P has r "tertram"),
    (station_prepared_indicator P has r "terval")
    by (unfold indicator_columns; cbn [In]; auto 10).
  unfold station_prepared at 1, station_keep.
  rewrite cell_select_row, existsb_filter, Hm.
  cbn [keep_cols existsb String.eqb Ascii.eqb Bool.eqb orb andb].
  rewrite !orb_true_r. cbn [andb mode_row]. rewrite cell_insert_eq.
  unfold infer_mode. rewrite !py_eq_1_row_get, !cell_fill_row.
  cbn [is_indicator indicator_columns existsb String.eqb Ascii.eqb Bool.eqb orb andb].
  rewrite !cell_geo_row_other by discriminate.
  repeat match goal with |- context [has ?x] => destruct (has x) end; reflexivity.
Qed.

(** The loader succeeds when the file names its stations and, if it has
    the coordinates column, has at least one line. *)
Lemma load_gares_data_total P csv :
  has_col "gare" (stations_source csv) = true ->
  rows (stations_source csv) <> [] \/ has_col "geo_point_2d" (stations_source csv) = false ->
  exists out, load_gares_data P csv = Ok out.
Proof.
  unfold load_gares_data. generalize (stations_source csv). intros src Hgare Hgeo.
  assert (H2 : exists df2, extract_lat_lon P src = Ok df2).
  { unfold extract_lat_lon. destruct (has_col "geo_point_2d" src); [|eauto].
    destruct (rows src); [|eauto]. destruct Hgeo; congruence. }
  destruct H2 as [df2 H2].
  pose proof (extract_lat_lon_ok P src df2 H2) as [_ Hcols2].
  assert (Hreq : require_all ["gare"%string]
                   (keep_columns (infer_mode_column (fill_indicators df2))) = Ok tt).
  { apply require_all_ok. intros c [<-|[]].
    unfold keep_columns. rewrite has_col_select, (keep_columns_of_source src df2 Hcols2).
    unfold station_keep. rewrite existsb_filter, Hgare. reflexivity. }
  eexists.
  etransitivity; [apply bind_ok; exact H2|].
  etransitivity; [apply bind_ok; unfold dropna; exact (bind_ok _ _ tt Hreq)|].
  reflexivity.
Qed.




Lemma split_geo_two t a b :
  split_on 44 t = [a; b] -> split_geo (PStr t) = (PStr (strip a), PStr (strip b)).
Proof. unfold split_geo. now intros ->. Qed.

Lemma split_geo_none v :
  (forall t, v = PStr t -> length (split_on 44 t) <> 2%nat) ->
  split_geo v = (PNone, PNone).
Proof.
  intros H. destruct v as [| | | |t]; try reflexivity.
  specialize (H t eq_refl). unfold split_geo.
  destruct (split_on 44 t) as [|a [|b [|c l]]]; try reflexivity.
  now contradiction H.
Qed.




(** C6 (as the code has it).  The stations loader drops the lines whose
    name is null, and only those; the name of every record is a string,
    the normalised name of its line.  The null filter runs before the
    normalisation: a line whose name is not null and normalises to the
    empty string is in the output with an empty name. *)
Theorem load_gares_names (P : Platform) (csv out : DataFrame) :
  load_gares_data P csv = Ok out ->
  let src := stations_source csv in
  let record := station_record P (fun c => has_col c src) in
  rows out = map record (List.filter (fun r => negb (isna (cell r "gare"))) (rows src))
  /\ (forall r, cell (record r) "gare" = PStr (clean_name P (cell r "gare")))
  /\ (forall o, In o (rows out) -> isna (cell o "gare") = false)
  /\ (forall r, In r (rows src) -> isna (cell r "gare") = false ->
        clean_name P (cell r "gare") = [] ->
        In (record r) (rows out) /\ cell (record r) "gare" = PStr []).
Proof.
  intros Hload src record.
  destruct (load_gares_data_rows P csv out Hload) as [Hgare Hrows].
  fold src in Hgare, Hrows. fold record in Hrows.
  assert (Hname : forall r, cell (record r) "gare" = PStr (clean_name P (cell r "gare"))).
  { intros r. unfold record, station_record. cbv zeta. rewrite cell_insert_eq.
    now rewrite station_prepared_gare by exact Hgare. }
  split; [exact Hrows|]. split; [exact Hname|]. split.
  - intros o Ho. rewrite Hrows in Ho. apply in_map_iff in Ho as (r & <- & _).
    now rewrite Hname.
  - intros r Hr Hnn Hkey. split.
    + rewrite Hrows. apply in_map, filter_In. split; [exact Hr | now rewrite Hnn].
    + now rewrite Hname, Hkey.
Qed.

(** A run of [load_gares_names] on the sample file: the line without name
    is dropped, the three others are kept. *)
Lemma load_gares_names_witness :
  length (rows (get (load_gares_data sample stations_csv))) = 3%nat
  /\ isna (cell (nth 1 (rows (get (load_gares_data sample stations_csv))) ∅) "gare")
     = false.
Proof.
  assert (H : load_gares_data sample stations_csv
              = Ok (get (load_gares_data sample stations_csv)))
    by (vm_compute; reflexivity).
  split.
  - rewrite (proj1 (load_gares_names sample stations_csv _ H)).
    vm_compute. reflexivity.
  - apply (proj1 (proj2 (proj2 (load_gares_names sample stations_csv _ H)))).
    apply nth_In. vm_compute. lia.
Defined.

(** C6 (as stated) fails.  The second line of the sample file is named
    "(-)": it is kept, and its record has the empty name. *)
Lemma load_gares_keeps_empty_name :
  map (fun o => cell o "gare") (rows (get (load_gares_data sample stations_csv)))
  = [PStr (str "gare de lyon"); PStr []; PStr (str "nation")].
Proof. vm_compute. reflexivity. Qed.

(* ===================================================================== *)
(** ** [merge_validations_gares] *)
(* ===================================================================== *)

Lemma list_to_map_lookup (l : list (string * pyval)) k v :
  List.NoDup (map fst l) -> In (k, v) l -> (list_to_map l : row) !! k = Some v.
Proof.
  induction l as [|[k' v'] l IH]; [contradiction|].
  intros Hnd Hin. inversion Hnd as [|? ? Hk' Hnd']; subst.
  rewrite list_to_map_cons. destruct Hin as [[= -> ->]|Hin].
  - apply lookup_insert_eq.
  - rewrite lookup_insert_ne; [now apply IH|].
    intros ->. apply Hk'. apply in_map_iff. now exists (k, v).
Qed.

Lemma join_row_keys key lcols rcols l ro :
  map fst
    (map (fun c => (suffixed (overlap key lcols rcols) "_x" c, cell l c)) lcols
     ++ map (fun c => (suffixed (overlap key lcols rcols) "_y" c,
                       match ro with Some r => cell r c | None => NaN end))
          (right_cols key rcols))
  = merged_columns key lcols rcols.
Proof. unfold merged_columns. now rewrite map_app, !map_map. Qed.

(** Under distinct merged labels, a joined row carries the cells of its
    left row and those of its right row, or nulls when it has none. *)
Lemma join_row_cells key lcols rcols l ro :
  List.NoDup (merged_columns key lcols rcols) ->
  (forall c, In c lcols ->
     cell (join_row key lcols rcols l ro)
       (suffixed (overlap key lcols rcols) "_x" c) = cell l c)
  /\ (forall c, In c (right_cols key rcols) ->
       cell (join_row key lcols rcols l ro)
         (suffixed (overlap key lcols rcols) "_y" c)
       = match ro with Some r => cell r c | None => NaN end).
Proof.
  intros Hnd. rewrite <- (join_row_keys key lcols rcols l ro) in Hnd.
  split; intros c Hc; unfold join_row, cell at 1;
    erewrite list_to_map_lookup; try reflexivity; try exact Hnd;
    apply in_or_app; [left|right]; apply in_map_iff; exists c; auto.
Qed.

Lemma matches_spec key l rs s :
  In s (matches key l rs) <-> In s rs /\ cell s key = cell l key.
Proof.
  unfold matches. rewrite filter_In, bool_decide_eq_true. reflexivity.
Qed.

Lemma join_block_length key lcols rcols rs l :
  length (join_block key lcols rcols rs l) = Nat.max 1 (length (matches key l rs)).
Proof.
  unfold join_block. destruct (matches key l rs) as [|m ms]; [reflexivity|].
  rewrite length_map. reflexivity.
Qed.

Lemma merge_left_ok key left right out :
  merge_left key left right = Ok out ->
  has_col key left = true /\ has_col key right = true
  /\ columns out = merged_columns key (columns left) (columns right)
  /\ rows out = flat_map (join_block key (columns left) (columns right) (rows right))
                  (rows left).
Proof.
  unfold merge_left, require.
  destruct (has_col key left); [|discriminate].
  destruct (has_col key right); [|discriminate].
  cbn [mbind result_bind]. intros [= <-]. auto.
Qed.

(** C2.  The join is a left outer join on the station key.  The output is
    the concatenation, in validations order, of one block per validations
    row.  The block of a row with k >= 1 stations of the same key has
    exactly k rows, one per such station in stations order, duplicates
    included; the block of a row without such a station has exactly one
    row.  When the merged labels are distinct, every row of a block
    carries the cells of its validations row, and carries the cells of
    its station, or a null under every station label when it has none. *)
Theorem merge_is_left_join (df_val df_gares out : DataFrame) :
  merge_validations_gares df_val df_gares = Ok out ->
  let lcols := columns df_val in
  let rcols := columns df_gares in
  let ov := overlap "gare" lcols rcols in
  let block := join_block "gare" lcols rcols (rows df_gares) in
  let stations_of := fun v => matches "gare" v (rows df_gares) in
  rows out = flat_map block (rows df_val)
  /\ (forall l1 v l2, rows df_val = l1 ++ v :: l2 ->
        rows out = flat_map block l1 ++ block v ++ flat_map block l2)
  /\ (forall v s, In s (stations_of v) <->
        In s (rows df_gares) /\ cell s "gare" = cell v "gare")
  /\ (forall v, length (block v) = Nat.max 1 (length (stations_of v)))
  /\ (forall v, stations_of v <> [] ->
        block v = map (fun s => join_row "gare" lcols rcols v (Some s)) (stations_of v))
  /\ (forall v, stations_of v = [] ->
        block v = [join_row "gare" lcols rcols v None])
  /\ (List.NoDup (columns out) ->
      forall v ro,
        (forall c, In c lcols ->
           cell (join_row "gare" lcols rcols v ro) (suffixed ov "_x" c) = cell v c)
        /\ (forall c, In c (right_cols "gare" rcols) ->
             cell (join_row "gare" lcols rcols v ro) (suffixed ov "_y" c)
             = match ro with Some s => cell s c | None => NaN end)).
Proof.
  intros Hmerge lcols rcols ov block stations_of.
  apply merge_left_ok in Hmerge as (_ & _ & Hcols & Hrows).
  fold lcols rcols in Hcols, Hrows. fold block in Hrows.
  split; [exact Hrows|]. split.
  { intros l1 v l2 Hsplit. rewrite Hrows, Hsplit, flat_map_app. reflexivity. }
  split; [intros v s; apply matches_spec|].
  split; [intros v; apply join_block_length|].
  split.
  { intros v Hne. unfold block, join_block. fold (stations_of v).
    destruct (stations_of v); [congruence | reflexivity]. }
  split.
  { intros v He. unfold block, join_block. fold (stations_of v). now rewrite He. }
  intros Hnd v ro. rewrite Hcols in Hnd. now apply join_row_cells.
Qed.

(** A run of [merge_is_left_join]: two stations share the key of the first
    two validations rows, none has the key of the third, one that of the
    fourth. *)
Lemma merge_is_left_join_witness :
  exists out,
    merge_validations_gares sample_validations sample_gares = Ok out /\
    length (rows out) = 6%nat /\
    map (fun v => length (join_block "gare" (columns sample_validations)
                            (columns sample_gares) (rows sample_gares) v))
      (rows sample_validations) = [2; 2; 1; 1]%nat /\
    map (fun j => (cell j "gare", cell j "mode")) (rows out)
    = [(PStr (str "chatelet"), PStr Metro); (PStr (str "chatelet"), PStr (str "RER"));
       (PStr (str "chatelet"), PStr Metro); (PStr (str "chatelet"), PStr (str "RER"));
       (PStr (str "orly"), NaN); (PStr (str "nation"), PStr Metro)].
Proof.
  exists (get (merge_validations_gares sample_validations sample_gares)).
  assert (H : merge_validations_gares sample_validations sample_gares
              = Ok (get (merge_validations_gares sample_validations sample_gares)))
    by (vm_compute; reflexivity).
  split; [exact H|].
  destruct (merge_is_left_join _ _ _ H) as (Hrows & _ & _ & Hlen & _).
  split; [|split].
  - rewrite Hrows. vm_compute. reflexivity.
  - erewrite map_ext; [|intros v; apply Hlen]. vm_compute. reflexivity.
  - vm_compute. reflexivity.
Defined.

(* ===================================================================== *)
(** ** Grouping *)
(* ===================================================================== *)

Lemma insert_sorted_perm {A : Type} (le : A -> A -> bool) x l :
  Permutation (insert_sorted le x l) (x :: l).
Proof.
  induction l as [|y l IH]; [reflexivity|].
  simpl. destruct (le x y); [reflexivity|].
  rewrite IH. apply perm_swap.
Qed.

Lemma sort_by_perm {A : Type} (le : A -> A -> bool) l :
  Permutation (sort_by le l) l.
Proof.
  unfold sort_by. induction l as [|x l IH]; [reflexivity|].
  simpl. rewrite insert_sorted_perm. now constructor.
Qed.

Lemma distinct_In k l : In k (distinct l) <-> In k l.
Proof.
  induction l as [|x l IH]; [reflexivity|].
  simpl. rewrite filter_In, IH, negb_true_iff, bool_decide_eq_false.
  destruct (decide (k = x)) as [->|Hne]; [tauto|]. split; [tauto|].
  intros [->|H]; [congruence | auto].
Qed.

Lemma distinct_NoDup l : List.NoDup (distinct l).
Proof.
  induction l as [|x l IH]; [constructor|].
  simpl. constructor.
  - rewrite filter_In, negb_true_iff, bool_decide_eq_false. tauto.
  - now apply List.NoDup_filter.
Qed.

Lemma collect_ok {A B : Type} (f : A -> result B) l bs :
  collect f l = Ok bs -> Forall2 (fun a b => f a = Ok b) l bs.
Proof.
  revert bs. induction l as [|a l IH]; intros bs; cbn [collect].
  - intros [= <-]. constructor.
  - intros H. apply bind_ok_inv in H as (b & Hb & H).
    apply bind_ok_inv in H as (bs' & Hbs & H). injection H as <-.
    constructor; [exact Hb | now apply IH].
Qed.

Lemma collect_total {A B : Type} (f : A -> result B) l :
  (forall a, In a l -> exists b, f a = Ok b) -> exists bs, collect f l = Ok bs.
Proof.
  induction l as [|a l IH]; intros H; cbn [collect]; [eauto|].
  destruct (H a (or_introl eq_refl)) as [b Hb].
  destruct IH as [bs Hbs]; [intros x Hx; apply H; now right|].
  exists (b :: bs). rewrite (bind_ok _ _ b Hb). now rewrite (bind_ok _ _ bs Hbs).
Qed.

(** The rows of a grouped reduction: one per distinct key of the rows
    without null key, holding that key and the reduction of the column
    over the rows of that key. *)
Lemma groupby_reduce_ok reduce keys col df out :
  groupby_reduce reduce keys col df = Ok out ->
  let rs := List.filter (row_notna keys) (rows df) in
  exists ks,
    Permutation ks (distinct (map (key_of keys) rs))
    /\ Forall2
         (fun k g => exists v,
            reduce (map (fun r => cell r col) (group keys k rs)) = Ok v /\
            g = (list_to_map (combine keys k ++ [(col, v)]) : row))
         ks (rows out).
Proof.
  intros H rs. unfold groupby_reduce in H.
  apply bind_ok_inv in H as ([] & _ & H).
  apply bind_ok_inv in H as ([] & _ & H).
  apply bind_ok_inv in H as (gs & Hgs & H). injection H as <-.
  fold rs in Hgs. exists (sort_by keys_leb (distinct (map (key_of keys) rs))).
  split; [apply sort_by_perm|].
  apply collect_ok in Hgs. cbn [rows].
  eapply Forall2_impl; [exact Hgs|].
  intros k g Hk. apply bind_ok_inv in Hk as (v & Hv & Hk). injection Hk as <-.
  eauto.
Qed.

(* ===================================================================== *)
(** ** [show_map] *)
(* ===================================================================== *)

Lemma cell_delete_ne (r : row) c c' : c <> c' -> cell (delete c r) c' = cell r c'.
Proof. intros H. unfold cell. now rewrite lookup_delete_ne. Qed.

(** The row of the summary made for the key of [r] and the total [v]. *)
Lemma summary_row_cells (r : row) v :
  let g := rename_key "pct_validations" "total_pct_validations"
             (list_to_map (combine map_keys (key_of map_keys r)
                           ++ [("pct_validations"%string, v)])) in
  key_of map_keys g = key_of map_keys r /\ cell g "total_pct_validations" = v.
Proof.
  unfold key_of, map_keys. cbn [map combine app].
  rewrite !list_to_map_cons. unfold rename_key.
  rewrite !lookup_insert_ne by discriminate. rewrite lookup_insert_eq.
  cbv zeta. split.
  - rewrite !cell_insert_ne by discriminate.
    rewrite !cell_delete_ne by discriminate. cells. reflexivity.
  - apply cell_insert_eq.
Qed.

Lemma row_notna_In subset r c :
  row_notna subset r = true -> In c subset -> isna (cell r c) = false.
Proof.
  unfold row_notna. rewrite forallb_forall. intros H Hc.
  apply negb_true_iff. now apply H.
Qed.

Lemma show_map_inv df agg :
  show_map df = Ok (Figure agg) ->
  exists g,
    groupby_reduce sum_cells map_keys "pct_validations"
      {| columns := columns df;
         rows := List.filter (row_notna ["lat"; "lon"]%string) (rows df) |} = Ok g
    /\ agg = rename_column "pct_validations" "total_pct_validations" g.
Proof.
  unfold show_map. intros H.
  apply bind_ok_inv in H as (df_map & Hd & H).
  apply dropna_ok in Hd as [_ ->].
  destruct (df_empty _); [discriminate|].
  apply bind_ok_inv in H as (g & Hg & H). injection H as <-. eauto.
Qed.

(** The rows of the summary.  [rs] are the rows of the frame with
    coordinates and without null among the five keys. *)
Lemma show_map_rows df agg :
  show_map df = Ok (Figure agg) ->
  let rs := List.filter (row_notna map_keys)
              (List.filter (row_notna ["lat"; "lon"]%string) (rows df)) in
  List.NoDup (map (key_of map_keys) (rows agg))
  /\ (forall g, In g (rows agg) ->
       exists r ns,
         In r rs /\ key_of map_keys g = key_of map_keys r /\
         numbers_of (map (fun x => cell x "pct_validations")
                       (group map_keys (key_of map_keys r) rs)) = Ok ns /\
         cell g "total_pct_validations" = PFloat (fsum ns))
  /\ (forall r, In r rs ->
       exists g, In g (rows agg) /\ key_of map_keys g = key_of map_keys r).
Proof.
  intros H rs. apply show_map_inv in H as (g0 & Hg & ->).
  apply groupby_reduce_ok in Hg as (ks & Hperm & Hrows).
  cbn [rows] in Hperm, Hrows. fold rs in Hperm, Hrows.
  cbn [rows rename_column].
  set (rk := rename_key "pct_validations" "total_pct_validations").
  assert (Hks : forall k, In k ks <-> exists r, In r rs /\ key_of map_keys r = k).
  { intros k. rewrite (Permutation_in' (eq_refl k) Hperm), distinct_In, in_map_iff.
    split; intros (r & H1 & H2); exists r; auto. }
  assert (Hrow : forall k g, In k ks ->
            (exists v, sum_cells (map (fun r => cell r "pct_validations")
                                   (group map_keys k rs)) = Ok v /\
                       g = (list_to_map (combine map_keys k
                                         ++ [("pct_validations"%string, v)]) : row)) ->
            key_of map_keys (rk g) = k /\
            exists ns, numbers_of (map (fun x => cell x "pct_validations")
                                     (group map_keys k rs)) = Ok ns /\
                       cell (rk g) "total_pct_validations" = PFloat (fsum ns)).
  { intros k g Hk (v & Hv & ->). apply Hks in Hk as (r & _ & <-).
    destruct (summary_row_cells r v) as [Hkey Htot]. fold rk in Hkey, Htot.
    split; [exact Hkey|]. unfold sum_cells in Hv.
    apply bind_ok_inv in Hv as (ns & Hns & Hv). injection Hv as <-.
    exists ns. split; [exact Hns | exact Htot]. }
  assert (Hkeys : map (key_of map_keys) (map rk (rows g0)) = ks).
  { clear Hperm Hks. induction Hrows as [|k g ks gs Hkg _ IH]; [reflexivity|].
    cbn [map]. f_equal.
    - apply (Hrow k g); [now left | exact Hkg].
    - apply IH. intros k' g' Hk'. apply Hrow. now right. }
  split; [|split].
  - rewrite Hkeys. eapply Permutation_NoDup; [symmetry; exact Hperm|].
    apply distinct_NoDup.
  - intros g Hg. apply in_map_iff in Hg as (g1 & <- & Hg1).
    assert (Hex : exists k, In k ks /\
              exists v, sum_cells (map (fun r => cell r "pct_validations")
                                     (group map_keys k rs)) = Ok v /\
                        g1 = (list_to_map (combine map_keys k
                                           ++ [("pct_validations"%string, v)]) : row)).
    { clear -Hrows Hg1. induction Hrows as [|k g ks gs Hkg _ IH]; [contradiction|].
      destruct Hg1 as [->|Hg1].
      - exists k. split; [now left | exact Hkg].
      - destruct (IH Hg1) as (k' & Hk' & Hv). exists k'. split; [now right | exact Hv]. }
    destruct Hex as (k & Hk & Hv).
    destruct (Hrow k g1 Hk Hv) as (Hkey & ns & Hns & Htot).
    apply Hks in Hk as (r & Hr & <-). exists r, ns. auto.
  - intros r Hr.
    assert (Hk : In (key_of map_keys r) ks) by (apply Hks; eauto).
    rewrite <- Hkeys in Hk. apply in_map_iff in Hk as (g & Hkey & Hg).
    exists g. auto.
Qed.

Lemma group_spec keys k rs x :
  In x (group keys k rs) <-> In x rs /\ key_of keys x = k.
Proof. unfold group. now rewrite filter_In, bool_decide_eq_true. Qed.

Lemma fsum_two a b : fsum [FNum a; FNum b] = FNum (a + b)%Qc.
Proof. unfold fsum. cbn [fold_left fadd]. f_equal. ring. Qed.

Lemma key_of_map_keys_cells (g r : row) :
  key_of map_keys g = key_of map_keys r ->
  cell g "gare" = cell r "gare" /\ cell g "lat" = cell r "lat"
  /\ cell g "lon" = cell r "lon" /\ cell g "mode" = cell r "mode"
  /\ cell g "exploitant" = cell r "exploitant".
Proof. unfold key_of, map_keys. cbn [map]. intros [= -> -> -> -> ->]. auto. Qed.

(** C7.  The geospatial summary has one row per distinct value of
    (station key, lat, lon, mode, operator) among the rows it keeps; the
    rows it keeps have a latitude and a longitude.  The total of a row is
    the sum, not the mean, of the percentages of all the kept rows of that
    key, whatever their day type and hour: two percentages a and b total
    a + b. *)
Theorem show_map_sums (df agg : DataFrame) :
  show_map df = Ok (Figure agg) ->
  let rs := List.filter (row_notna map_keys)
              (List.filter (row_notna ["lat"; "lon"]%string) (rows df)) in
  List.NoDup (map (key_of map_keys) (rows agg))
  /\ (forall g, In g (rows agg) ->
       exists r ns,
         In r (rows df) /\ isna (cell r "lat") = false /\ isna (cell r "lon") = false /\
         key_of map_keys g = key_of map_keys r /\
         numbers_of (map (fun x => cell x "pct_validations")
                       (group map_keys (key_of map_keys r) rs)) = Ok ns /\
         cell g "total_pct_validations" = PFloat (fsum ns))
  /\ (forall r, In r rs ->
       exists g, In g (rows agg) /\ key_of map_keys g = key_of map_keys r)
  /\ (forall k x, In x (group map_keys k rs) <->
       In x (rows df) /\ isna (cell x "lat") = false /\ isna (cell x "lon") = false /\
       row_notna map_keys x = true /\ key_of map_keys x = k)
  /\ (forall a b, fsum [FNum a; FNum b] = FNum (a + b)%Qc).
Proof.
  intros H rs. destruct (show_map_rows df agg H) as (Hnd & Hrows & Hall).
  fold rs in Hrows, Hall.
  assert (Hrs : forall x, In x rs <->
            In x (rows df) /\ isna (cell x "lat") = false /\
            isna (cell x "lon") = false /\ row_notna map_keys x = true).
  { intros x. unfold rs. rewrite !filter_In. unfold row_notna at 1.
    cbn [forallb]. rewrite andb_true_r, andb_true_iff, !negb_true_iff. tauto. }
  split; [exact Hnd|]. split; [|split; [exact Hall|split; [|exact fsum_two]]].
  - intros g Hg. destruct (Hrows g Hg) as (r & ns & Hr & Hkey & Hns & Htot).
    apply Hrs in Hr as (Hr & Hlat & Hlon & _). exists r, ns. auto 10.
  - intros k x. rewrite group_spec, Hrs. tauto.
Qed.

(** A run of [show_map_sums] on the joined sample frames: the station
    with 2.0 on one day type and 3.0 on another totals 5.0, for each of
    its two station lines. *)
Lemma show_map_sums_witness :
  show_map sample_merged = Ok (Figure (get_figure (show_map sample_merged)))
  /\ List.NoDup (map (key_of map_keys) (rows (get_figure (show_map sample_merged))))
  /\ map (fun g => (cell g "mode", cell g "total_pct_validations"))
       (rows (get_figure (show_map sample_merged)))
     = [(PStr Metro, PFloat (dec 5 1)); (PStr (str "RER"), PFloat (dec 5 1))].
Proof.
  assert (H : show_map sample_merged = Ok (Figure (get_figure (show_map sample_merged))))
    by (vm_compute; reflexivity).
  split; [exact H|]. split.
  - exact (proj1 (show_map_sums _ _ H)).
  - vm_compute. reflexivity.
Defined.

(** C9.  Every row of the geospatial summary has a mode and an operator:
    a row of the joined frame whose mode or operator is null takes part
    in no group, with or without coordinates, and a station all of whose
    rows are such is absent from the summary. *)
Theorem show_map_drops_null_mode_operator (df agg : DataFrame) :
  show_map df = Ok (Figure agg) ->
  (forall g, In g (rows agg) ->
     isna (cell g "mode") = false /\ isna (cell g "exploitant") = false)
  /\ (forall r, In r (rows df) ->
       isna (cell r "mode") || isna (cell r "exploitant") = true ->
       forall g, In g (rows agg) -> key_of map_keys g <> key_of map_keys r)
  /\ (forall s,
       (forall r, In r (rows df) -> cell r "gare" = s ->
          isna (cell r "mode") || isna (cell r "exploitant") = true) ->
       forall g, In g (rows agg) -> cell g "gare" <> s).
Proof.
  intros H. destruct (show_map_rows df agg H) as (_ & Hrows & _).
  assert (Hsrc : forall g, In g (rows agg) ->
            exists r, In r (rows df) /\ key_of map_keys g = key_of map_keys r /\
                      isna (cell r "mode") = false /\ isna (cell r "exploitant") = false).
  { intros g Hg. destruct (Hrows g Hg) as (r & _ & Hr & Hkey & _).
    apply filter_In in Hr as [Hr Hnn]. apply filter_In in Hr as [Hr _].
    exists r. repeat split; try assumption;
      apply (row_notna_In map_keys r _ Hnn); unfold map_keys; cbn [In]; auto 10. }
  split; [|split].
  - intros g Hg. destruct (Hsrc g Hg) as (r & _ & Hkey & Hm & He).
    apply key_of_map_keys_cells in Hkey as (_ & _ & _ & -> & ->). auto.
  - intros r Hr Hnull g Hg Hkey.
    destruct (Hsrc g Hg) as (r' & _ & Hkey' & Hm & He).
    rewrite Hkey in Hkey'. apply key_of_map_keys_cells in Hkey' as (_ & _ & _ & Hm' & He').
    rewrite Hm', He', Hm, He in Hnull. discriminate.
  - intros s Hs g Hg Hgare.
    destruct (Hsrc g Hg) as (r & Hr & Hkey & Hm & He).
    apply key_of_map_keys_cells in Hkey as (Hg' & _).
    rewrite Hgare in Hg'. symmetry in Hg'. specialize (Hs r Hr Hg').
    rewrite Hm, He in Hs. discriminate.
Qed.

(** A run of [show_map_drops_null_mode_operator]: in the joined sample
    frames the station "nation" has coordinates and no operator, and the
    summary has no row for it. *)
Lemma show_map_drops_null_mode_operator_witness :
  map (fun r => (cell r "gare", isna (cell r "lat"), isna (cell r "exploitant")))
    (List.filter (fun r => bool_decide (cell r "gare" = PStr (str "nation")))
       (rows sample_merged))
  = [(PStr (str "nation"), false, true)]
  /\ forallb (fun g => negb (bool_decide (cell g "gare" = PStr (str "nation"))))
       (rows (get_figure (show_map sample_merged))) = true.
Proof.
  split; [vm_compute; reflexivity|].
  assert (H : show_map sample_merged = Ok (Figure (get_figure (show_map sample_merged))))
    by (vm_compute; reflexivity).
  apply forallb_forall. intros g Hg.
  apply negb_true_iff, bool_decide_eq_false. revert g Hg.
  apply (proj2 (proj2 (show_map_drops_null_mode_operator _ _ H))).
  intros r Hr Hgare.
  assert (Hall : forallb (fun r => negb (bool_decide (cell r "gare" = PStr (str "nation")))
                                   || isna (cell r "mode") || isna (cell r "exploitant"))
                   (rows sample_merged) = true) by (vm_compute; reflexivity).
  rewrite forallb_forall in Hall. specialize (Hall r Hr).
  rewrite Hgare in Hall. rewrite bool_decide_eq_true_2 in Hall by reflexivity.
  exact Hall.
Defined.

(* ===================================================================== *)
(** ** Empty inputs *)
(* ===================================================================== *)







(** On a stations file with the coordinates column and no line, the
    assignment of the two coordinate columns raises. *)
Lemma load_gares_data_empty_with_coordinates :
  rows empty_stations_geo_csv = []
  /\ load_gares_data sample empty_stations_geo_csv
     = Raise (ValueError "Columns must be same length as key").
Proof. split; reflexivity. Qed.




(* ===================================================================== *)
(** ** [clean_name] on ASCII text *)
(* ===================================================================== *)

Lemma lower_ascii_eqb c d : (d < 65)%N -> (lower_ascii c =? d)%N = (c =? d)%N.
Proof.
  intros Hd. destruct (N.eqb_spec c d) as [->|Hne].
  - apply N.eqb_eq. apply lower_ascii_fixed. unfold is_upper_ascii.
    apply andb_false_iff. left. apply N.leb_gt. exact Hd.
  - apply N.eqb_neq. intros H. apply lower_ascii_below in H; [congruence | lia].
Qed.

Lemma punctuation_flat_map s :
  replace_char 45 32 (remove_char 41 (remove_char 40 (map lower_ascii s)))
  = flat_map norm_char s.
Proof.
  induction s as [|c s IH]; [reflexivity|].
  cbn [map flat_map]. rewrite <- IH. unfold norm_char, remove_char, replace_char.
  cbn [List.filter]. rewrite (lower_ascii_eqb c 40) by lia.
  destruct (c =? 40)%N eqn:H40; cbn [negb orb]; [reflexivity|].
  cbn [List.filter]. rewrite (lower_ascii_eqb c 41) by lia.
  destruct (c =? 41)%N eqn:H41; cbn [negb]; [reflexivity|].
  cbn [map]. rewrite (lower_ascii_eqb c 45) by lia.
  destruct (c =? 45)%N eqn:H45; reflexivity.
Qed.

Lemma isspace_not_punctuation c :
  isspace c = true -> norm_char c = [c].
Proof.
  intros H. unfold norm_char.
  destruct (N.eqb_spec c 40) as [->|_]; [discriminate H|].
  destruct (N.eqb_spec c 41) as [->|_]; [discriminate H|].
  destruct (N.eqb_spec c 45) as [->|_]; [discriminate H|].
  cbn [orb]. f_equal. apply lower_ascii_fixed.
  destruct (is_upper_ascii c) eqn:Hu; [|reflexivity].
  unfold is_upper_ascii in Hu. apply andb_true_iff in Hu as [H1 H2].
  apply N.leb_le in H1, H2. rewrite isspace_false_printable in H by lia. discriminate H.
Qed.

Lemma flat_map_norm_blank ws :
  Forall (fun c => isspace c = true) ws -> flat_map norm_char ws = ws.
Proof.
  induction 1 as [|c ws Hc _ IH]; [reflexivity|].
  cbn [flat_map]. now rewrite (isspace_not_punctuation c Hc), IH.
Qed.

Lemma lstrip_blank_prefix s :
  exists ws, Forall (fun c => isspace c = true) ws /\ s = ws ++ lstrip s.
Proof.
  induction s as [|c s (ws & Hws & IH)]; [exists []; split; [constructor | reflexivity]|].
  cbn [lstrip]. destruct (isspace c) eqn:Hc.
  - exists (c :: ws). split; [now constructor|]. cbn [app]. now rewrite <- IH.
  - exists []. split; [constructor | reflexivity].
Qed.

Lemma strip_blank_around s :
  exists ws1 ws2,
    Forall (fun c => isspace c = true) ws1 /\ Forall (fun c => isspace c = true) ws2 /\
    s = ws1 ++ strip s ++ ws2.
Proof.
  destruct (lstrip_blank_prefix s) as (ws1 & H1 & E1).
  destruct (lstrip_blank_prefix (rev (lstrip s))) as (ws2 & H2 & E2).
  exists ws1, (rev ws2). split; [exact H1|]. split.
  - apply List.Forall_forall. intros c Hc. apply in_rev in Hc.
    rewrite List.Forall_forall in H2. now apply H2.
  - unfold strip, rstrip. rewrite <- rev_app_distr, <- E2, rev_involutive. exact E1.
Qed.

Lemma split_ws_blank_app ws s :
  Forall (fun c => isspace c = true) ws -> split_ws (ws ++ s) = split_ws s.
Proof.
  induction 1 as [|c ws Hc _ IH]; [reflexivity|].
  cbn [app split_ws]. now rewrite Hc.
Qed.

Lemma split_ws_app_blank s ws :
  Forall (fun c => isspace c = true) ws -> split_ws (s ++ ws) = split_ws s.
Proof.
  intros Hws. induction s as [|c s IH].
  - cbn [app]. now rewrite split_ws_blank.
  - cbn [app split_ws]. destruct (isspace c) eqn:Hc; [exact IH|].
    destruct s as [|d s'].
    + cbn [app]. destruct Hws as [|e ws He Hws]; [reflexivity|].
      rewrite He. f_equal. apply split_ws_blank. now constructor.
    + cbn [app] in *. destruct (isspace d); now rewrite IH.
Qed.

(** On ASCII text [clean_name] is: rewrite every character by
    [norm_char], cut into words, join the words with single spaces. *)
Lemma clean_name_ascii P s :
  ascii_only s -> clean_name P (PStr s) = join_space (split_ws (flat_map norm_char s)).
Proof.
  intros Hs. unfold clean_name. rewrite (py_lower_ascii P s Hs).
  assert (Hl : ascii_only (map lower_ascii s)).
  { apply List.Forall_forall. intros c Hc. apply in_map_iff in Hc as (d & <- & Hd).
    apply is_ascii_lower_ascii. unfold ascii_only in Hs.
    rewrite List.Forall_forall in Hs. now apply Hs. }
  rewrite unidecode_ascii_id.
  2:{ apply List.Forall_forall. intros c Hc. apply strip_In in Hc.
      unfold ascii_only in Hl. rewrite List.Forall_forall in Hl. now apply Hl. }
  f_equal.
  set (m := map lower_ascii s) in *.
  assert (Hm : map lower_ascii m = m).
  { unfold m. rewrite map_map. apply map_ext. intros c.
    apply lower_ascii_fixed, is_upper_lower_ascii. }
  assert (Hfs : flat_map norm_char s = flat_map norm_char m).
  { rewrite <- (punctuation_flat_map s), <- (punctuation_flat_map m).
    fold m. now rewrite Hm. }
  destruct (strip_blank_around m) as (ws1 & ws2 & H1 & H2 & E).
  set (t := strip m) in *.
  assert (Ht : map lower_ascii t = t).
  { assert (Hin : forall c, In c t -> lower_ascii c = c).
    { intros c Hc. apply strip_In, in_map_iff in Hc as (d & <- & _).
      apply lower_ascii_fixed, is_upper_lower_ascii. }
    clearbody t. clear E. induction t as [|c t IH]; [reflexivity|]. cbn [map].
    rewrite Hin by now left. f_equal. apply IH. intros d Hd. apply Hin. now right. }
  assert (Hft : replace_char 45 32 (remove_char 41 (remove_char 40 t))
                = flat_map norm_char t).
  { rewrite <- (punctuation_flat_map t). now rewrite Ht. }
  clearbody t. rewrite Hft, Hfs, E, !flat_map_app.
  rewrite (flat_map_norm_blank ws1 H1), (flat_map_norm_blank ws2 H2).
  now rewrite split_ws_blank_app, split_ws_app_blank.
Qed.

Lemma norm_char_lower c : norm_char (lower_ascii c) = norm_char c.
Proof.
  unfold norm_char. rewrite !lower_ascii_eqb by lia.
  now rewrite (lower_ascii_fixed (lower_ascii c)) by apply is_upper_lower_ascii.
Qed.

Lemma flat_map_norm_lower s :
  flat_map norm_char (map lower_ascii s) = flat_map norm_char s.
Proof.
  induction s as [|c s IH]; [reflexivity|].
  cbn [map flat_map]. now rewrite norm_char_lower, IH.
Qed.

Lemma flat_map_norm_hyphen s :
  flat_map norm_char (replace_char 45 32 s) = flat_map norm_char s.
Proof.
  unfold replace_char. induction s as [|c s IH]; [reflexivity|].
  cbn [map flat_map]. rewrite IH. now destruct (N.eqb_spec c 45) as [->|_].
Qed.

Lemma flat_map_norm_remove d s :
  norm_char d = [] -> flat_map norm_char (remove_char d s) = flat_map norm_char s.
Proof.
  intros Hd. unfold remove_char. induction s as [|c s IH]; [reflexivity|].
  cbn [List.filter flat_map]. destruct (N.eqb_spec c d) as [->|_]; cbn [negb].
  - now rewrite Hd, IH.
  - cbn [flat_map]. now rewrite IH.
Qed.

Lemma ascii_only_map_lower s : ascii_only s -> ascii_only (map lower_ascii s).
Proof.
  unfold ascii_only. rewrite !List.Forall_forall. intros Hs c Hc.
  apply in_map_iff in Hc as (d & <- & Hd). apply is_ascii_lower_ascii. now apply Hs.
Qed.

Lemma ascii_only_replace_char c d s :
  is_ascii d = true -> ascii_only s -> ascii_only (replace_char c d s).
Proof.
  unfold ascii_only, replace_char. rewrite !List.Forall_forall. intros Hd Hs e He.
  apply in_map_iff in He as (x & <- & Hx). destruct (x =? c)%N; [exact Hd | now apply Hs].
Qed.

Lemma ascii_only_remove_char c s : ascii_only s -> ascii_only (remove_char c s).
Proof.
  unfold ascii_only. rewrite !List.Forall_forall. intros Hs e He.
  apply remove_char_In in He as [_ He]. now apply Hs.
Qed.

(** Two ASCII names get the same key exactly when they hold the same words
    once case, parentheses and hyphens are set aside. *)
Theorem clean_name_same_key (P : Platform) (s1 s2 : pystr) :
  ascii_only s1 -> ascii_only s2 ->
  (clean_name P (PStr s1) = clean_name P (PStr s2)
   <-> split_ws (flat_map norm_char s1) = split_ws (flat_map norm_char s2)).
Proof.
  intros H1 H2. rewrite (clean_name_ascii P s1 H1), (clean_name_ascii P s2 H2). split.
  - intros H. apply (f_equal split_ws) in H.
    now rewrite !split_join in H by apply split_ws_words.
  - now intros ->.
Qed.

Lemma clean_name_same_key_witness :
  clean_name sample (PStr (str "Saint-Lazare (RER)"))
  = clean_name sample (PStr (str " SAINT LAZARE  rer ")).
Proof.
  apply (clean_name_same_key sample (str "Saint-Lazare (RER)") (str " SAINT LAZARE  rer ")).
  - apply ascii_only_forallb. vm_compute. reflexivity.
  - apply ascii_only_forallb. vm_compute. reflexivity.
  - vm_compute. reflexivity.
Defined.

(** The key of an ASCII name does not depend on the case of its letters,
    on hyphens written for spaces, on parentheses, or on blanks around it. *)
Theorem clean_name_spelling (P : Platform) (s ws1 ws2 : pystr) :
  ascii_only s ->
  Forall (fun c => isspace c = true /\ is_ascii c = true) ws1 ->
  Forall (fun c => isspace c = true /\ is_ascii c = true) ws2 ->
  clean_name P (PStr (map lower_ascii s)) = clean_name P (PStr s)
  /\ clean_name P (PStr (replace_char 45 32 s)) = clean_name P (PStr s)
  /\ clean_name P (PStr (remove_char 41 (remove_char 40 s))) = clean_name P (PStr s)
  /\ clean_name P (PStr (ws1 ++ s ++ ws2)) = clean_name P (PStr s).
Proof.
  intros Hs H1 H2.
  assert (Hb : forall ws, Forall (fun c => isspace c = true /\ is_ascii c = true) ws ->
                 Forall (fun c => isspace c = true) ws /\ ascii_only ws).
  { intros ws Hws. unfold ascii_only. rewrite !List.Forall_forall in *.
    split; intros c Hc; now apply Hws in Hc. }
  apply Hb in H1 as [B1 A1]. apply Hb in H2 as [B2 A2].
  rewrite (clean_name_ascii P s Hs). repeat split.
  - rewrite clean_name_ascii by now apply ascii_only_map_lower.
    now rewrite flat_map_norm_lower.
  - rewrite clean_name_ascii by now apply ascii_only_replace_char.
    now rewrite flat_map_norm_hyphen.
  - rewrite clean_name_ascii by now apply ascii_only_remove_char, ascii_only_remove_char.
    now rewrite !flat_map_norm_remove by reflexivity.
  - rewrite clean_name_ascii.
    2:{ unfold ascii_only in *. rewrite !Forall_app. auto. }
    rewrite !flat_map_app, (flat_map_norm_blank ws1 B1), (flat_map_norm_blank ws2 B2).
    now rewrite split_ws_blank_app, split_ws_app_blank.
Qed.

Lemma clean_name_spelling_witness :
  let s := str "Gare de Lyon (Metro-RER)" in
  clean_name sample (PStr (map lower_ascii s)) = clean_name sample (PStr s)
  /\ clean_name sample (PStr (replace_char 45 32 s)) = clean_name sample (PStr s)
  /\ clean_name sample (PStr (remove_char 41 (remove_char 40 s))) = clean_name sample (PStr s)
  /\ clean_name sample (PStr (str "  " ++ s ++ [9%N])) = clean_name sample (PStr s).
Proof.
  apply (clean_name_spelling sample (str "Gare de Lyon (Metro-RER)") (str "  ") [9%N]).
  - apply ascii_only_forallb. vm_compute. reflexivity.
  - repeat constructor.
  - repeat constructor.
Defined.

(* ===================================================================== *)
(** ** [parse_heure] on hour labels *)
(* ===================================================================== *)

Lemma split_on_hd_app sep a rest :
  ~ In sep a -> hd [] (split_on sep (a ++ sep :: rest)) = a.
Proof.
  induction a as [|c a IH]; intros Ha; cbn [app split_on].
  - now rewrite N.eqb_refl.
  - destruct (N.eqb_spec c sep) as [->|_]; [exfalso; apply Ha; now left|].
    assert (IH' : hd [] (split_on sep (a ++ sep :: rest)) = a)
      by (apply IH; intros H; apply Ha; now right).
    destruct (split_on sep (a ++ sep :: rest)) as [|w ws]; cbn [hd] in *; now subst.
Qed.

Lemma split_on_hd_whole sep a : ~ In sep a -> hd [] (split_on sep a) = a.
Proof.
  induction a as [|c a IH]; intros Ha; cbn [split_on]; [reflexivity|].
  destruct (N.eqb_spec c sep) as [->|_]; [exfalso; apply Ha; now left|].
  assert (IH' : hd [] (split_on sep a) = a) by (apply IH; intros H; apply Ha; now right).
  destruct (split_on sep a) as [|w ws]; cbn [hd] in *; now subst.
Qed.

Lemma split_on_hd_In sep s c : In c (hd [] (split_on sep s)) -> In c s /\ c <> sep.
Proof.
  revert c. induction s as [|d s IH]; intros c; cbn [split_on]; [contradiction|].
  destruct (N.eqb_spec d sep) as [->|Hne]; [contradiction|].
  destruct (split_on sep s) as [|w ws]; cbn [hd] in *.
  - intros [<-|[]]. split; [now left | exact Hne].
  - intros [<-|Hc]; [split; [now left | exact Hne]|].
    apply IH in Hc as [Hc Hs]. split; [now right | exact Hs].
Qed.

Lemma lstrip_int_In c s : In c (lstrip_int s) -> In c s.
Proof.
  induction s as [|d s IH]; [contradiction|]. cbn [lstrip_int].
  destruct (isspace_int d); [right; auto | auto].
Qed.

(** The text [int] reads once the blanks around it are gone. *)
Lemma py_int_unsigned P s :
  ~ In 43%N s -> ~ In 45%N s ->
  py_int P s = int_digits P 0 false (rev (lstrip_int (rev (lstrip_int s)))).
Proof.
  intros H43 H45. unfold py_int.
  set (t := rev (lstrip_int (rev (lstrip_int s)))).
  assert (Hin : forall c, In c t -> In c s).
  { intros c Hc. unfold t in Hc. apply in_rev, lstrip_int_In, in_rev, lstrip_int_In in Hc.
    exact Hc. }
  clearbody t. destruct t as [|c r]; [reflexivity|].
  assert (N43 : c <> 43%N) by (intros ->; apply H43, Hin; now left).
  assert (N45 : c <> 45%N) by (intros ->; apply H45, Hin; now left).
  clear Hin. destruct c as [|p]; [reflexivity|].
  do 6 (destruct p as [p|p|]; try reflexivity); congruence.
Qed.

Lemma is_digit_value P c : is_digit c = true -> digit_value P c = Some (Z.of_N c - 48).
Proof. unfold is_digit, digit_value. now intros ->. Qed.

Lemma is_digit_not c d : is_digit c = true -> (d < 48 \/ 57 < d)%N -> c <> d.
Proof.
  unfold is_digit. intros H Hd ->. apply andb_true_iff in H as [H1 H2].
  apply N.leb_le in H1, H2. lia.
Qed.

Lemma int_digits_decimal P ds acc b :
  Forall (fun c => is_digit c = true) ds -> (ds <> [] \/ b = true) ->
  int_digits P acc b ds
  = Some (fold_left (fun acc c => 10 * acc + (Z.of_N c - 48)) ds acc).
Proof.
  intros Hds. revert acc b. induction Hds as [|c ds Hc _ IH]; intros acc b Hb.
  - destruct Hb as [Hb| ->]; [congruence | reflexivity].
  - cbn [int_digits fold_left].
    replace (c =? 95)%N with false
      by (symmetry; apply N.eqb_neq, (is_digit_not c 95 Hc); lia).
    rewrite (is_digit_value P c Hc). apply IH. now right.
Qed.

Lemma lstrip_int_digit c s : is_digit c = true -> lstrip_int (c :: s) = c :: s.
Proof.
  intros Hc. cbn [lstrip_int]. unfold isspace_int.
  unfold is_digit in Hc. apply andb_true_iff in Hc as [H1 H2]. apply N.leb_le in H1, H2.
  now rewrite isspace_false_printable by lia.
Qed.

Lemma py_int_decimal P ds :
  ds <> [] -> Forall (fun c => is_digit c = true) ds -> py_int P ds = Some (decimal ds).
Proof.
  intros Hne Hds.
  assert (Hn : forall d, (d < 48 \/ 57 < d)%N -> ~ In d ds).
  { intros d Hd Hin. rewrite List.Forall_forall in Hds.
    now apply (is_digit_not d d (Hds d Hin) Hd). }
  rewrite py_int_unsigned by (apply Hn; lia).
  assert (Hl : forall l, l <> [] -> Forall (fun c => is_digit c = true) l ->
                 lstrip_int l = l).
  { intros [|c l] Hl Hf; [congruence|]. apply lstrip_int_digit. now inversion Hf. }
  rewrite (Hl ds Hne Hds), Hl, rev_involutive.
  - now apply int_digits_decimal; [|left].
  - intros H. apply (f_equal (@rev N)) in H. rewrite rev_involutive in H. now apply Hne.
  - apply List.Forall_forall. intros c Hc. apply in_rev in Hc.
    rewrite List.Forall_forall in Hds. now apply Hds.
Qed.

Lemma remove_char_app c a b : remove_char c (a ++ b) = remove_char c a ++ remove_char c b.
Proof. unfold remove_char. apply List.filter_app. Qed.

Lemma decimal_fold_nonneg ds acc :
  Forall (fun c => is_digit c = true) ds -> 0 <= acc ->
  0 <= fold_left (fun acc c => 10 * acc + (Z.of_N c - 48)) ds acc.
Proof.
  intros Hds. revert acc. induction Hds as [|c ds Hc _ IH]; intros acc Hacc; [exact Hacc|].
  cbn [fold_left]. apply IH. unfold is_digit in Hc.
  apply andb_true_iff in Hc as [H1 H2]. apply N.leb_le in H1, H2. lia.
Qed.

(** An hour label that starts with decimal digits followed by "H", alone or
    before a "-", is read as the number the digits write, which is not
    negative.  The digits are at most 640, the number up to which [int]
    never applies its limit on the length of the text. *)
Theorem parse_heure_label (P : Platform) (ds rest : pystr) :
  ds <> [] -> Forall (fun c => is_digit c = true) ds ->
  (length ds <= int_digits_threshold)%nat ->
  parse_heure P (PStr (ds ++ 72%N :: 45%N :: rest)) = PInt (decimal ds)
  /\ parse_heure P (PStr (ds ++ [72%N])) = PInt (decimal ds)
  /\ 0 <= decimal ds.
Proof.
  intros Hne Hds _.
  assert (Hn : forall d, (d < 48 \/ 57 < d)%N -> ~ In d ds).
  { intros d Hd Hin. rewrite List.Forall_forall in Hds.
    now apply (is_digit_not d d (Hds d Hin) Hd). }
  assert (H45 : ~ In 45%N (ds ++ [72%N])).
  { intros H. apply in_app_or in H as [H|[H|[]]]; [|discriminate H].
    revert H. apply Hn. lia. }
  assert (Hrm : remove_char 72 (ds ++ [72%N]) = ds).
  { rewrite remove_char_app, remove_char_absent by (apply Hn; lia).
    apply app_nil_r. }
  split; [|split].
  - unfold parse_heure.
    change (ds ++ 72%N :: 45%N :: rest) with (ds ++ [72%N] ++ 45%N :: rest).
    rewrite app_assoc, (split_on_hd_app 45 (ds ++ [72%N]) rest H45), Hrm.
    now rewrite (py_int_decimal P ds Hne Hds).
  - unfold parse_heure.
    rewrite (split_on_hd_whole 45 (ds ++ [72%N]) H45), Hrm.
    now rewrite (py_int_decimal P ds Hne Hds).
  - apply decimal_fold_nonneg; [exact Hds | lia].
Qed.

Lemma parse_heure_label_witness :
  parse_heure sample (PStr (str "17H-18H")) = PInt 17.
Proof.
  apply (parse_heure_label sample (str "17") (str "18H")).
  - discriminate.
  - repeat constructor.
  - vm_compute. lia.
Defined.

Lemma int_digits_nonneg P s acc b z :
  (forall c d, unicode_decimal P c = Some d -> 0 <= d) ->
  0 <= acc -> int_digits P acc b s = Some z -> 0 <= z.
Proof.
  intros HP. revert acc b. induction s as [|c s IH]; intros acc b Hacc; cbn [int_digits].
  - destruct b; [|discriminate]. now intros [= <-].
  - destruct (c =? 95)%N.
    + destruct b; [|discriminate]. now apply IH.
    + destruct (digit_value P c) as [d|] eqn:Hd; [|discriminate].
      apply IH. assert (0 <= d); [|lia].
      unfold digit_value in Hd.
      destruct ((48 <=? c)%N && (c <=? 57)%N) eqn:Hc.
      * injection Hd as <-. apply andb_true_iff in Hc as [H1 _]. apply N.leb_le in H1. lia.
      * destruct (is_ascii c); [discriminate|]. eauto.
Qed.

(** [parse_heure] never yields a negative hour: the sign [int] would read
    is cut off with everything from the first "-" on. *)
Lemma parse_heure_nonneg P v h :
  (forall c d, unicode_decimal P c = Some d -> 0 <= d) ->
  parse_heure P v = PInt h -> 0 <= h.
Proof.
  intros HP. destruct v as [| | | |s]; try discriminate. unfold parse_heure.
  set (part := remove_char 72 (hd [] (split_on 45 s))).
  assert (H45 : ~ In 45%N part).
  { intros H. apply remove_char_In in H as [_ H]. apply split_on_hd_In in H as [_ H].
    now apply H. }
  destruct (py_int P part) as [z|] eqn:Hz; [|discriminate]. intros [= <-].
  revert Hz. unfold py_int.
  set (t := rev (lstrip_int (rev (lstrip_int part)))).
  assert (Hin : forall c, In c t -> In c part).
  { intros c Hc. unfold t in Hc. apply in_rev, lstrip_int_In, in_rev, lstrip_int_In in Hc.
    exact Hc. }
  clearbody t. destruct t as [|c r].
  - discriminate.
  - destruct (N.eq_dec c 43%N) as [->|N43];
      [apply (int_digits_nonneg P r 0 false z HP); lia|].
    assert (N45 : c <> 45%N) by (intros ->; apply H45, Hin; now left).
    assert (E : forall (A : Type) (x y w : A),
               match c with 43%N => x | 45%N => y | _ => w end = w).
    { intros A x y w. destruct c as [|p]; [reflexivity|].
      do 6 (destruct p as [p|p|]; try reflexivity); congruence. }
    intros Hz. apply (int_digits_nonneg P (c :: r) 0 false z HP); [lia|].
    rewrite <- Hz. symmetry.
    exact (E _ (int_digits P 0 false r) (Z.opp <$> int_digits P 0 false r)
             (int_digits P 0 false (c :: r))).
Qed.

(* ===================================================================== *)
(** ** [load_validations_data]: failures and records *)
(* ===================================================================== *)

Lemma bind_raise_inv {A B : Type} (m : result A) (k : A -> result B) e :
  m ≫= k = Raise e -> m = Raise e \/ exists a, m = Ok a /\ k a = Raise e.
Proof. destruct m as [a|e']; [eauto | intros [= <-]; now left]. Qed.

Lemma require_raise c df : has_col c df = false -> require c df = Raise (KeyError c).
Proof. unfold require. now intros ->. Qed.

Lemma require_inv c df u : require c df = Ok u -> has_col c df = true.
Proof. unfold require. now destruct (has_col c df). Qed.

Lemma require_raise_inv c df e : require c df = Raise e -> e = KeyError c.
Proof. unfold require. destruct (has_col c df); [discriminate | now intros [= <-]]. Qed.

Lemma require_all_raise cs df e :
  require_all cs df = Raise e -> exists c, In c cs /\ has_col c df = false /\ e = KeyError c.
Proof.
  unfold require_all. destruct (find _ cs) as [c|] eqn:Hf; [|discriminate].
  intros [= <-]. apply find_some in Hf as [Hin Hc]. apply negb_true_iff in Hc. eauto.
Qed.

Lemma dropna_raise subset df e :
  dropna subset df = Raise e ->
  exists c, In c subset /\ has_col c df = false /\ e = KeyError c.
Proof.
  unfold dropna. intros H. apply bind_raise_inv in H as [H|(u & _ & H)]; [|discriminate H].
  now apply require_all_raise.
Qed.

Lemma columns_with_column_present c f df :
  has_col c df = true -> columns (with_column c f df) = columns df.
Proof. unfold with_column. cbn [columns]. now intros ->. Qed.

(** The labels of the loaded validations: those of the file after the
    renaming, and the hour at the end when the file has no such label. *)
Lemma load_validations_data_columns P csv out :
  load_validations_data P csv = Ok out ->
  let df := rename_columns validations_renames csv in
  (forall c, In c validations_required -> has_col c df = true)
  /\ columns out = if has_col "heure" df then columns df else (columns df ++ ["heure"%string])%list.
Proof.
  intros H. cbv zeta. unfold load_validations_data in H. cbv zeta in H.
  revert H. generalize (rename_columns validations_renames csv). intros df H.
  apply bind_ok_inv in H as (u1 & Hp & H). apply require_inv in Hp.
  apply bind_ok_inv in H as (u2 & Ht & H). apply require_inv in Ht.
  rewrite has_col_with_column in Ht. cbn [String.eqb Ascii.eqb Bool.eqb] in Ht.
  rewrite orb_false_r in Ht.
  apply bind_ok_inv in H as (d & Hd & H). apply dropna_ok in Hd as [Hall ->].
  injection H as <-.
  assert (Hc : forall c, In c validations_required -> has_col c df = true).
  { intros c Hc. specialize (Hall c). rewrite !has_col_with_column in Hall.
    unfold validations_required in Hc. cbn [In] in Hc.
    destruct Hc as [<-|[<-|[<-|[<-|[]]]]]; try assumption;
      (unfold validations_subset in Hall; cbn [In String.eqb Ascii.eqb Bool.eqb] in Hall;
       rewrite !orb_false_r in Hall; apply Hall; auto 10). }
  split; [exact Hc|].
  set (Y := with_column "pct_validations" _ df) in *.
  set (X := with_column "heure" _ Y) in *.
  assert (HY : columns Y = columns df)
    by (apply columns_with_column_present; exact Hp).
  assert (HhY : has_col "heure" Y = has_col "heure" df).
  { unfold Y. rewrite has_col_with_column. apply orb_false_r. }
  assert (HX : columns X = if has_col "heure" df then columns df
                           else (columns df ++ ["heure"%string])%list).
  { unfold X. unfold with_column at 1. cbn [columns]. now rewrite HhY, HY. }
  rewrite !columns_with_column_present; [exact HX | |].
  - apply (Hall "heure"%string). unfold validations_subset. cbn [In]. auto 10.
  - rewrite has_col_with_column. apply orb_true_iff. left.
    apply (Hall "gare"%string). unfold validations_subset. cbn [In]. auto 10.
Qed.

(** The validations loader fails exactly when one of the four labels it
    reads is missing after the renaming, and then with a [KeyError]: on the
    percentage first, on the hour label next.  The frame is one whose labels
    are distinct and whose hours fit [int64], which the model of
    [astype(int)] takes for granted. *)
Theorem load_validations_data_errors (P : Platform) (csv : DataFrame) :
  List.NoDup (columns (rename_columns validations_renames csv)) ->
  hours_fit P (rename_columns validations_renames csv) = true ->
  let df := rename_columns validations_renames csv in
  (has_col "pct_validations" df = false ->
     load_validations_data P csv = Raise (KeyError "pct_validations"))
  /\ (has_col "pct_validations" df = true -> has_col "tranche_horaire" df = false ->
     load_validations_data P csv = Raise (KeyError "tranche_horaire"))
  /\ ((exists out, load_validations_data P csv = Ok out)
      <-> forall c, In c validations_required -> has_col c df = true)
  /\ (forall e, load_validations_data P csv = Raise e ->
        exists c, e = KeyError c /\ In c validations_required /\ has_col c df = false).
Proof.
  intros _ _ df. split; [|split; [|split]].
  - intros Hp. unfold load_validations_data. fold df.
    now rewrite (require_raise _ df Hp).
  - intros Hp Ht. unfold load_validations_data. fold df.
    rewrite (require_ok _ df Hp). cbn [mbind result_bind].
    rewrite require_raise; [reflexivity|].
    rewrite has_col_with_column, Ht. reflexivity.
  - split.
    + intros [out Hout]. exact (proj1 (load_validations_data_columns P csv out Hout)).
    + apply load_validations_data_total.
  - intros e H. unfold load_validations_data in H. fold df in H.
    apply bind_raise_inv in H as [H|(u1 & Hp & H)].
    { apply require_raise_inv in H as He. exists "pct_validations"%string.
      split; [exact He|]. split; [cbn; auto|].
      unfold require in H. now destruct (has_col "pct_validations" df). }
    apply require_inv in Hp.
    apply bind_raise_inv in H as [H|(u2 & Ht & H)].
    { apply require_raise_inv in H as He. exists "tranche_horaire"%string.
      split; [exact He|]. split; [cbn; auto|].
      unfold require in H. rewrite has_col_with_column in H.
      cbn [String.eqb Ascii.eqb Bool.eqb] in H. rewrite orb_false_r in H.
      now destruct (has_col "tranche_horaire" df). }
    apply bind_raise_inv in H as [H|(d & _ & H)]; [|discriminate H].
    apply dropna_raise in H as (c & Hc & Hn & ->).
    exists c. split; [reflexivity|]. rewrite !has_col_with_column in Hn.
    apply orb_false_iff in Hn as [Hn Hh]. apply orb_false_iff in Hn as [Hn _].
    split; [|exact Hn].
    unfold validations_subset in Hc. unfold validations_required. cbn [In] in *.
    destruct Hc as [<-|[<-|[<-|[<-|[<-|[]]]]]]; auto 10.
    cbn in Hh. discriminate Hh.
Qed.

Lemma load_validations_data_errors_witness :
  exists out, load_validations_data sample validations_csv = Ok out.
Proof.
  apply (proj1 (proj2 (proj2 (load_validations_data_errors sample validations_csv
           ltac:(vm_compute; repeat constructor; cbn; intuition discriminate)
           ltac:(vm_compute; reflexivity))))).
  intros c Hc. vm_compute in Hc.
  destruct Hc as [<-|[<-|[<-|[<-|[]]]]]; vm_compute; reflexivity.
Defined.

Lemma validation_kept_true P r :
  validation_kept P r = true ->
  isna (cell r "gare") = false /\ isna (cell r "type_jour") = false
  /\ isna (cell r "tranche_horaire") = false
  /\ isna (to_numeric P (cell r "pct_validations")) = false
  /\ exists h, parse_heure P (cell r "tranche_horaire") = PInt h.
Proof.
  unfold validation_kept. rewrite !andb_true_iff, !negb_true_iff.
  intros ((((Hg & Hj) & Ht) & Hp) & Hh). repeat split; try assumption.
  destruct (parse_heure_int_or_none P (cell r "tranche_horaire")) as [[h Hx]|Hx].
  - eauto.
  - rewrite Hx in Hh. discriminate Hh.
Qed.

Lemma to_numeric_not_text P v : is_text (to_numeric P v) = false.
Proof.
  destruct v as [|b|z|f|s]; try reflexivity.
  destruct s as [|c s]; [reflexivity|]. unfold to_numeric.
  now destruct (to_double P (c :: s)).
Qed.

(** Every record of the loaded validations comes from one line of the
    file: its hour is an integer that is not negative, its percentage is a
    number and not null, its name is the normalised name of the line, and
    every other cell is the cell of the line, day type and hour label not
    null.  The loader adds no line.  The hour labels of the file have at
    most 640 characters and its hours are at most 2^53 ([hours_exact]), so
    that the columns the hour goes through keep it as it is. *)
Theorem load_validations_data_records (P : Platform) (csv out : DataFrame) :
  (forall c d, unicode_decimal P c = Some d -> 0 <= d) ->
  hours_exact P (rename_columns validations_renames csv) = true ->
  load_validations_data P csv = Ok out ->
  let df := rename_columns validations_renames csv in
  columns out = (if has_col "heure" df then columns df
                 else (columns df ++ ["heure"%string])%list)
  /\ (length (rows out) <= length (rows df))%nat
  /\ forall o, In o (rows out) ->
       exists r, In r (rows df)
         /\ (exists h, cell o "heure" = PInt h /\ 0 <= h)
         /\ cell o "pct_validations" = to_numeric P (cell r "pct_validations")
         /\ isna (cell o "pct_validations") = false
         /\ is_text (cell o "pct_validations") = false
         /\ cell o "gare" = PStr (clean_name P (cell r "gare"))
         /\ isna (cell o "type_jour") = false
         /\ isna (cell o "tranche_horaire") = false
         /\ forall c, c <> "gare"%string -> c <> "heure"%string ->
                      c <> "pct_validations"%string -> cell o c = cell r c.
Proof.
  intros HP _ Hload df.
  pose proof (load_validations_data_rows P csv out Hload) as Hrows. fold df in Hrows.
  split; [exact (proj2 (load_validations_data_columns P csv out Hload))|]. split.
  - rewrite Hrows, length_map. apply List.filter_length_le.
  - intros o Ho. rewrite Hrows in Ho. apply in_map_iff in Ho as (r & <- & Hr).
    apply filter_In in Hr as [Hr Hk].
    apply validation_kept_true in Hk as (Hg & Hj & Ht & Hp & h & Hh).
    exists r. split; [exact Hr|]. unfold validation_record.
    split; [|split; [|split; [|split; [|split; [|split; [|split]]]]]].
    + exists h. cells. split; [exact Hh|]. exact (parse_heure_nonneg P _ h HP Hh).
    + now cells.
    + cells. exact Hp.
    + cells. apply to_numeric_not_text.
    + now cells.
    + cells. exact Hj.
    + cells. exact Ht.
    + intros c H1 H2 H3. now rewrite !cell_insert_ne by congruence.
Qed.

Lemma sample_decimal_nonneg c d : sample_decimal c = Some d -> 0 <= d.
Proof.
  unfold sample_decimal. destruct ((1632 <=? c)%N && (c <=? 1641)%N) eqn:H; [|discriminate].
  intros [= <-]. apply andb_true_iff in H as [H _]. apply N.leb_le in H. lia.
Qed.

Lemma load_validations_data_records_witness :
  (length (rows (get (load_validations_data sample validations_csv)))
   <= length (rows (rename_columns validations_renames validations_csv)))%nat.
Proof.
  apply (load_validations_data_records sample validations_csv
           (get (load_validations_data sample validations_csv)) sample_decimal_nonneg).
  - vm_compute. reflexivity.
  - vm_compute. reflexivity.
Defined.

(* ===================================================================== *)
(** ** [split_geo]: texts with one comma *)
(* ===================================================================== *)

Lemma split_on_no_sep sep b : ~ In sep b -> split_on sep b = [b].
Proof.
  induction b as [|c b IH]; intros Hb; [reflexivity|]. cbn [split_on].
  destruct (N.eqb_spec c sep) as [->|_]; [exfalso; apply Hb; now left|].
  rewrite IH; [reflexivity|]. intros H. apply Hb. now right.
Qed.

Lemma split_on_app sep a rest :
  ~ In sep a -> split_on sep (a ++ sep :: rest) = a :: split_on sep rest.
Proof.
  induction a as [|c a IH]; intros Ha; cbn [app split_on].
  - now rewrite N.eqb_refl.
  - destruct (N.eqb_spec c sep) as [->|_]; [exfalso; apply Ha; now left|].
    rewrite IH; [reflexivity|]. intros H. apply Ha. now right.
Qed.

Lemma split_on_nonempty sep s : split_on sep s <> [].
Proof.
  destruct s as [|c s]; [discriminate|]. cbn [split_on].
  destruct (c =? sep)%N; [discriminate|]. destruct (split_on sep s); discriminate.
Qed.

Lemma split_on_inv sep s a ws :
  split_on sep s = a :: ws ->
  ~ In sep a /\
  match ws with
  | [] => s = a
  | _ => exists rest, s = a ++ sep :: rest /\ split_on sep rest = ws
  end.
Proof.
  revert a ws. induction s as [|c s IH]; intros a ws; cbn [split_on].
  - intros [= <- <-]. split; [intros [] | reflexivity].
  - destruct (N.eqb_spec c sep) as [->|Hne].
    + intros [= <- <-]. split; [intros []|].
      pose proof (split_on_nonempty sep s) as Hn.
      destruct (split_on sep s) as [|w ws'] eqn:E; [congruence|].
      exists s. split; [reflexivity | exact E].
    + destruct (split_on sep s) as [|w ws'] eqn:E.
      * exfalso. exact (split_on_nonempty sep s E).
      * intros [= <- <-]. destruct (IH w ws' eq_refl) as [Hw Hrest]. split.
        -- intros [H|H]; [congruence | now apply Hw].
        -- destruct ws' as [|w2 ws2]; [now subst|].
           destruct Hrest as (rest & -> & Hr). exists rest. split; [reflexivity | exact Hr].
Qed.

Lemma split_on_two sep t a b :
  split_on sep t = [a; b] <-> t = a ++ sep :: b /\ ~ In sep a /\ ~ In sep b.
Proof.
  split.
  - intros H. apply split_on_inv in H as [Ha (rest & -> & Hr)].
    apply split_on_inv in Hr as [Hb ->]. auto.
  - intros (-> & Ha & Hb). rewrite split_on_app by exact Ha.
    now rewrite split_on_no_sep by exact Hb.
Qed.

(** [split_geo] gives two texts exactly on a text with one comma: the
    trimmed texts before and after it.  On anything else, a text without
    comma or with several, or a value that is not text, it gives two
    nulls. *)
Theorem split_geo_one_comma (v : pyval) :
  (forall a b, v = PStr (a ++ 44%N :: b) -> ~ In 44%N a -> ~ In 44%N b ->
     split_geo v = (PStr (strip a), PStr (strip b)))
  /\ ((forall a b, v = PStr (a ++ 44%N :: b) -> In 44%N a \/ In 44%N b) ->
      split_geo v = (PNone, PNone))
  /\ (forall x y, split_geo v = (PStr x, PStr y) ->
        exists a b, v = PStr (a ++ 44%N :: b) /\ ~ In 44%N a /\ ~ In 44%N b
                    /\ x = strip a /\ y = strip b).
Proof.
  split; [|split].
  - intros a b -> Ha Hb. apply split_geo_two. apply split_on_two. auto.
  - intros H. apply split_geo_none. intros t -> Hlen.
    destruct (split_on 44 t) as [|a [|b [|c l]]] eqn:E; try discriminate Hlen.
    apply split_on_two in E as (-> & Ha & Hb).
    destruct (H a b eq_refl) as [H1|H1]; contradiction.
  - intros x y H. destruct v as [| | | |t]; try discriminate H.
    unfold split_geo in H.
    destruct (split_on 44 t) as [|a [|b [|c l]]] eqn:E; try discriminate H.
    injection H as <- <-. apply split_on_two in E as (-> & Ha & Hb).
    exists a, b. auto.
Qed.

(* ===================================================================== *)
(** ** [load_gares_data]: failures, labels and colours *)
(* ===================================================================== *)

Lemma rows_stations_source_nil_iff csv : rows (stations_source csv) = [] <-> rows csv = [].
Proof.
  unfold stations_source. destruct (has_col "nom_long" csv); [|reflexivity].
  cbn [rows rename_column]. destruct (rows csv); [reflexivity|]. split; discriminate.
Qed.

Lemma extract_lat_lon_raise P df e :
  extract_lat_lon P df = Raise e ->
  has_col "geo_point_2d" df = true /\ rows df = []
  /\ e = ValueError "Columns must be same length as key".
Proof.
  unfold extract_lat_lon. destruct (has_col "geo_point_2d" df); [|discriminate].
  destruct (rows df); [|discriminate]. now intros [= <-].
Qed.

(** The stations loader succeeds exactly when the file names its stations
    and, if it has the coordinates column, has at least one line.  With the
    coordinates column and no line it raises [ValueError]; otherwise,
    without a name column, [KeyError].  The labels of the file are distinct
    once [nom_long] is read as [gare]. *)
Theorem load_gares_data_errors (P : Platform) (csv : DataFrame) :
  List.NoDup (columns (stations_source csv)) ->
  (has_col "geo_point_2d" csv = true -> rows csv = [] ->
     load_gares_data P csv = Raise (ValueError "Columns must be same length as key"))
  /\ ((has_col "geo_point_2d" csv = false \/ rows csv <> []) ->
      has_col "gare" (stations_source csv) = false ->
      load_gares_data P csv = Raise (KeyError "gare"))
  /\ ((exists out, load_gares_data P csv = Ok out)
      <-> has_col "gare" (stations_source csv) = true
          /\ (has_col "geo_point_2d" csv = false \/ rows csv <> [])).
Proof.
  intros _.
  assert (Hgeo : has_col "geo_point_2d" (stations_source csv) = has_col "geo_point_2d" csv)
    by (apply has_col_stations_source; discriminate).
  pose proof (rows_stations_source_nil_iff csv) as Hnil.
  split; [|split].
  - intros Hg Hr. unfold load_gares_data, extract_lat_lon.
    rewrite Hgeo, Hg, (proj2 Hnil Hr). reflexivity.
  - intros Hok Hgare. unfold load_gares_data.
    revert Hgeo Hnil Hgare. generalize (stations_source csv). intros src Hgeo Hnil Hgare.
    assert (H2 : exists df2, extract_lat_lon P src = Ok df2).
    { unfold extract_lat_lon. rewrite Hgeo.
      destruct (has_col "geo_point_2d" csv); [|eauto].
      destruct (rows src) eqn:E; [|eauto].
      destruct Hok as [Hok|Hok]; [discriminate | exfalso; apply Hok, Hnil; reflexivity]. }
    destruct H2 as [df2 H2].
    pose proof (extract_lat_lon_ok P src df2 H2) as [_ Hcols2].
    etransitivity; [apply bind_ok; exact H2|].
    unfold dropna.
    assert (Hreq : require_all ["gare"%string]
                     (keep_columns (infer_mode_column (fill_indicators df2)))
                   = Raise (KeyError "gare")).
    { unfold require_all. cbn [find]. unfold keep_columns.
      rewrite has_col_select, (keep_columns_of_source src df2 Hcols2).
      unfold station_keep. rewrite existsb_filter, Hgare.
      cbn [String.eqb Ascii.eqb Bool.eqb orb andb is_indicator indicator_columns
           existsb keep_cols negb].
      now rewrite andb_false_r. }
    now rewrite Hreq.
  - split.
    + intros [out Hout].
      split; [exact (proj1 (load_gares_data_rows P csv out Hout))|].
      unfold load_gares_data in Hout.
      apply bind_ok_inv in Hout as (df2 & H2 & _).
      unfold extract_lat_lon in H2. rewrite Hgeo in H2.
      destruct (has_col "geo_point_2d" csv); [|now left].
      right. intros Hr. apply Hnil in Hr. rewrite Hr in H2. discriminate H2.
    + intros [Hgare Hok]. apply load_gares_data_total; [exact Hgare|].
      rewrite Hgeo. destruct Hok as [Hok|Hok]; [now right|].
      left. intros Hr. apply Hok, Hnil, Hr.
Qed.

Lemma load_gares_data_errors_witness :
  exists out, load_gares_data sample stations_csv = Ok out.
Proof.
  apply (proj2 (proj2 (load_gares_data_errors sample stations_csv
           ltac:(vm_compute; repeat constructor; cbn; intuition discriminate)))).
  split; [vm_compute; reflexivity|]. right. discriminate.
Defined.

Lemma lookup_select_row cols (r : row) c :
  select_row cols r !! c = if existsb (String.eqb c) cols then Some (cell r c) else None.
Proof.
  unfold select_row. induction cols as [|d cols IH]; [reflexivity|].
  cbn [map existsb]. rewrite list_to_map_cons.
  destruct (String.eqb_spec c d) as [->|Hne].
  - cbn [orb]. apply lookup_insert_eq.
  - cbn [orb]. rewrite lookup_insert_ne by congruence. exact IH.
Qed.

Lemma load_gares_data_columns P csv out :
  load_gares_data P csv = Ok out ->
  columns out = station_keep (fun c => has_col c (stations_source csv)).
Proof.
  unfold load_gares_data. generalize (stations_source csv). intros src Hload.
  apply bind_ok_inv in Hload as (df2 & H2 & Hload).
  apply bind_ok_inv in Hload as (df6 & H6 & Hload).
  injection Hload as <-.
  apply extract_lat_lon_ok in H2 as [_ Hcols2].
  apply dropna_ok in H6 as [Hg ->].
  specialize (Hg "gare"%string (or_introl eq_refl)).
  pose proof (keep_columns_of_source src df2 Hcols2) as Hkeep.
  revert Hg Hkeep. unfold keep_columns.
  generalize (infer_mode_column (fill_indicators df2)). intros d Hg Hkeep.
  rewrite has_col_select in Hg.
  rewrite columns_with_column_present.
  - cbn [columns select]. exact Hkeep.
  - unfold has_col. cbn [columns select]. exact Hg.
Qed.

(** The loaded stations carry the labels of [keep_cols] that the file has
    or that the loader makes, in the order of [keep_cols], and nothing
    else: the name, the mode and the five indicators always, the
    coordinates when the file has them or has the coordinates column.  A
    record has a cell under each of these labels and under no other. *)
Theorem load_gares_data_labels (P : Platform) (csv out : DataFrame) :
  load_gares_data P csv = Ok out ->
  let has := fun c => has_col c (stations_source csv) in
  columns out =
    List.filter (fun c => has c
                          || has "geo_point_2d"%string
                             && (String.eqb c "lat" || String.eqb c "lon")
                          || is_indicator c || String.eqb c "mode")
      keep_cols
  /\ (forall c, In c ["gare"; "mode"; "termetro"; "terrer"; "tertrain"; "tertram";
                       "terval"]%string -> In c (columns out))
  /\ (forall c, In c (columns out) -> In c keep_cols)
  /\ (forall o c, In o (rows out) -> (is_Some (o !! c) <-> In c (columns out))).
Proof.
  intros Hload has.
  pose proof (load_gares_data_columns P csv out Hload) as Hcols. fold has in Hcols.
  destruct (load_gares_data_rows P csv out Hload) as [Hgare Hrows].
  change (has "gare"%string = true) in Hgare. fold has in Hrows.
  assert (Hin : forall c, In c (columns out) <->
                  In c keep_cols /\
                  (has c || has "geo_point_2d"%string
                            && (String.eqb c "lat" || String.eqb c "lon")
                   || is_indicator c || String.eqb c "mode") = true).
  { intros c. rewrite Hcols. unfold station_keep. now rewrite filter_In. }
  split; [exact Hcols|]. split; [|split].
  - intros c Hc. apply Hin. cbn [In] in Hc.
    destruct Hc as [<-|[<-|[<-|[<-|[<-|[<-|[<-|[]]]]]]]];
      (split; [unfold keep_cols; cbn [In]; auto 12|]);
      try (rewrite Hgare; reflexivity);
      cbn [is_indicator indicator_columns existsb String.eqb Ascii.eqb Bool.eqb orb];
      rewrite ?orb_true_r; reflexivity.
  - intros c Hc. now apply Hin in Hc.
  - intros o c Ho. rewrite Hrows in Ho. apply in_map_iff in Ho as (r & <- & _).
    unfold station_record. cbv zeta.
    assert (Hg : In "gare"%string (columns out)).
    { apply Hin. split; [now left|]. now rewrite Hgare. }
    destruct (String.eqb_spec c "gare") as [->|Hne].
    + rewrite lookup_insert_eq. split; [intros _; exact Hg | eauto].
    + rewrite lookup_insert_ne by congruence.
      unfold station_prepared. rewrite lookup_select_row, Hcols.
      destruct (existsb (String.eqb c) (station_keep has)) eqn:E.
      * apply existsb_eqb_In in E. split; [intros _; exact E | eauto].
      * split; [intros [x Hx]; discriminate Hx|].
        intros Hc. apply existsb_eqb_In in Hc. congruence.
Qed.

Lemma load_gares_data_labels_witness :
  columns (get (load_gares_data sample stations_csv))
  = ["gare"; "lat"; "lon"; "mode"; "exploitant"; "termetro"; "terrer"; "tertrain";
     "tertram"; "terval"]%string.
Proof.
  rewrite (proj1 (load_gares_data_labels sample stations_csv
                    (get (load_gares_data sample stations_csv))
                    ltac:(vm_compute; reflexivity))).
  vm_compute. reflexivity.
Defined.




Lemma mode_of_indicators_cases o :
  In (mode_of_indicators o)
     [Metro; str "RER"; str "Train"; str "Tram"; str "VAL"; str "Autre"].
Proof.
  unfold mode_of_indicators.
  repeat match goal with |- context [py_eq_1 ?x] => destruct (py_eq_1 x) end;
    cbn [In]; auto 10.
Qed.

(** When the file has no mode column, every record of the loaded stations
    has one of the six modes of [MODE_COLOR_MAP], so every station has a
    colour on the map and in the box plot. *)
Theorem load_gares_data_mode_has_color (P : Platform) (csv out : DataFrame) :
  has_col "mode" csv = false ->
  load_gares_data P csv = Ok out ->
  forall o, In o (rows out) ->
  exists m colour, cell o "mode" = PStr m /\ mode_color m = Some colour.
Proof.
  intros Hmode Hload o Ho.
  destruct (load_gares_data_rows P csv out Hload) as [_ Hrows].
  rewrite Hrows in Ho. apply in_map_iff in Ho as (r & <- & _).
  rewrite station_record_cell by discriminate.
  rewrite station_prepared_mode
    by (rewrite has_col_stations_source by discriminate; exact Hmode).
  pose proof (mode_of_indicators_cases
    (station_prepared P (fun c => has_col c (stations_source csv)) r)) as Hc.
  revert Hc. generalize (mode_of_indicators
    (station_prepared P (fun c => has_col c (stations_source csv)) r)).
  intros m Hc. exists m. cbn [In] in Hc.
  destruct Hc as [<-|[<-|[<-|[<-|[<-|[<-|[]]]]]]];
    eexists; (split; [reflexivity | vm_compute; reflexivity]).
Qed.

Lemma load_gares_data_mode_has_color_witness :
  exists m colour,
    cell (nth 1 (rows (get (load_gares_data sample stations_csv))) ∅) "mode" = PStr m
    /\ mode_color m = Some colour.
Proof.
  apply (load_gares_data_mode_has_color sample stations_csv
           (get (load_gares_data sample stations_csv))).
  - vm_compute. reflexivity.
  - vm_compute. reflexivity.
  - apply nth_In. vm_compute. lia.
Defined.

(* ===================================================================== *)
(** ** [merge_validations_gares]: how many rows *)
(* ===================================================================== *)

Lemma filter_nil_key key (l : row) rs :
  (forall s, In s rs -> cell s key <> cell l key) ->
  List.filter (fun r => bool_decide (cell r key = cell l key)) rs = [].
Proof.
  induction rs as [|r rs IH]; intros H; [reflexivity|]. cbn [List.filter].
  rewrite bool_decide_eq_false_2 by (apply H; now left).
  apply IH. intros s Hs. apply H. now right.
Qed.

Lemma matches_unique key l rs :
  List.NoDup (map (fun s => cell s key) rs) -> (length (matches key l rs) <= 1)%nat.
Proof.
  unfold matches. induction rs as [|r rs IH]; intros Hnd; [cbn; lia|].
  cbn [map] in Hnd. apply List.NoDup_cons_iff in Hnd as [Hr Hnd].
  cbn [List.filter]. destruct (bool_decide_reflect (cell r key = cell l key)) as [E|_].
  - replace (List.filter _ rs) with (@nil row); [cbn; lia|].
    symmetry. apply filter_nil_key. intros s Hs Es. apply Hr.
    apply in_map_iff. exists s. split; [congruence | exact Hs].
  - now apply IH.
Qed.

Lemma flat_map_length_bounds {A B : Type} (f : A -> list B) (l : list A) (n : nat) :
  (forall a, 1 <= length (f a) <= n)%nat ->
  (length l <= length (flat_map f l) <= length l * n)%nat.
Proof.
  intros H. induction l as [|a l IH]; [cbn; lia|].
  cbn [flat_map length]. rewrite length_app. specialize (H a). lia.
Qed.

Lemma flat_map_length_strict {A B : Type} (f : A -> list B) (l : list A) a :
  (forall x, 1 <= length (f x))%nat -> In a l -> (2 <= length (f a))%nat ->
  (length l < length (flat_map f l))%nat.
Proof.
  intros H Ha H2. induction l as [|x l IH]; [contradiction|].
  cbn [flat_map length]. rewrite length_app.
  pose proof (flat_map_length_bounds f l (S (length (flat_map f l)))) as Hb.
  assert (length l <= length (flat_map f l))%nat.
  { clear - H. induction l as [|y l IH]; [cbn; lia|].
    cbn [flat_map length]. rewrite length_app. specialize (H y). lia. }
  destruct Ha as [->|Ha]; [lia|]. specialize (IH Ha). specialize (H x). lia.
Qed.

(** The join never loses a validations row and never has more rows than
    validations rows times stations, the stations counted as one when
    there is none.  When the names of the stations are
    pairwise distinct it has exactly one row per validations row, in
    order.  When two stations have the name of a validations row, which
    happens as soon as two spellings normalise to the same name, the join
    has more rows than the validations. *)
Theorem merge_row_count (df_val df_gares out : DataFrame) :
  merge_validations_gares df_val df_gares = Ok out ->
  (length (rows df_val) <= length (rows out)
   <= length (rows df_val) * Nat.max 1 (length (rows df_gares)))%nat
  /\ (List.NoDup (map (fun s => cell s "gare") (rows df_gares)) ->
      length (rows out) = length (rows df_val)
      /\ rows out =
         map (fun v => join_row "gare" (columns df_val) (columns df_gares) v
                         (head (matches "gare" v (rows df_gares))))
           (rows df_val))
  /\ (forall v s1 s2 l1 l2 l3,
        In v (rows df_val) ->
        rows df_gares = l1 ++ s1 :: l2 ++ s2 :: l3 ->
        cell s1 "gare" = cell v "gare" -> cell s2 "gare" = cell v "gare" ->
        (length (rows df_val) < length (rows out))%nat).
Proof.
  intros H. apply merge_left_ok in H as (_ & _ & _ & Hrows). rewrite Hrows.
  set (block := join_block "gare" (columns df_val) (columns df_gares) (rows df_gares)).
  assert (Hlen : forall v, length (block v)
                           = Nat.max 1 (length (matches "gare" v (rows df_gares))))
    by (intros v; apply join_block_length).
  assert (Hm : forall v, (length (matches "gare" v (rows df_gares))
                          <= length (rows df_gares))%nat)
    by (intros v; apply List.filter_length_le).
  split; [|split].
  - apply flat_map_length_bounds. intros v. rewrite Hlen. specialize (Hm v). lia.
  - intros Hnd.
    assert (Hb : forall v, block v =
                [join_row "gare" (columns df_val) (columns df_gares) v
                   (head (matches "gare" v (rows df_gares)))]).
    { intros v. pose proof (matches_unique "gare" v (rows df_gares) Hnd) as Hu.
      unfold block, join_block.
      destruct (matches "gare" v (rows df_gares)) as [|m [|m2 ms]]; try reflexivity.
      cbn [length] in Hu. lia. }
    assert (Hmap : forall l, flat_map block l
                   = map (fun v => join_row "gare" (columns df_val) (columns df_gares) v
                                     (head (matches "gare" v (rows df_gares)))) l).
    { intros l. induction l as [|v vs IH]; [reflexivity|].
      cbn [flat_map map]. now rewrite Hb, IH. }
    split; [|apply Hmap]. now rewrite Hmap, length_map.
  - intros v s1 s2 l1 l2 l3 Hv Hg H1 H2.
    apply (flat_map_length_strict block (rows df_val) v); [|exact Hv|].
    + intros x. rewrite Hlen. lia.
    + rewrite Hlen, Hg. unfold matches.
      rewrite List.filter_app. cbn [List.filter].
      rewrite (bool_decide_eq_true_2 _ H1).
      rewrite List.filter_app. cbn [List.filter].
      rewrite (bool_decide_eq_true_2 _ H2).
      rewrite length_app. cbn [length]. rewrite length_app. cbn [length]. lia.
Qed.

Lemma merge_row_count_witness :
  (length (rows sample_validations) <= length (rows sample_merged)
   <= length (rows sample_validations) * Nat.max 1 (length (rows sample_gares)))%nat.
Proof.
  apply (merge_row_count sample_validations sample_gares sample_merged).
  vm_compute. reflexivity.
Defined.

(* ===================================================================== *)
(** ** [plot_profil_horaire]: the order of the points *)
(* ===================================================================== *)

Lemma str_leb_total a b : str_leb a b = true \/ str_leb b a = true.
Proof.
  revert b. induction a as [|x a IH]; intros [|y b]; cbn [str_leb]; auto.
  destruct (N.ltb_spec x y), (N.ltb_spec y x); auto; lia.
Qed.

Lemma str_leb_refl a : str_leb a a = true.
Proof. induction a as [|x a IH]; [reflexivity|]. cbn [str_leb]. now rewrite N.ltb_irrefl. Qed.

Lemma float_leb_total a b :
  a <> FNaN -> b <> FNaN -> float_leb a b = true \/ float_leb b a = true.
Proof.
  intros Ha Hb. destruct a as [x|[]|], b as [y|[]|]; cbn [float_leb]; auto; try congruence.
  destruct (Qclt_le_dec x y) as [H%Qclt_le_weak|H];
    [left | right]; now apply bool_decide_eq_true.
Qed.

Lemma as_number_notna v :
  isna v = false -> is_text v = false -> exists f, as_number v = Some f /\ f <> FNaN.
Proof.
  destruct v as [|b|z|[q|s|]|s]; try discriminate; cbn [as_number]; intros _ _;
    eexists; (split; [reflexivity | discriminate]).
Qed.

Lemma cell_leb_total a b : cell_leb a b = true \/ cell_leb b a = true.
Proof.
  unfold cell_leb. destruct (isna b) eqn:Hb; [now left|].
  destruct (isna a) eqn:Ha; [now right|].
  destruct (is_text a) eqn:Ta, (is_text b) eqn:Tb.
  - destruct a, b; try discriminate. apply str_leb_total.
  - right. destruct a, b; try discriminate; reflexivity.
  - left. destruct a, b; try discriminate; reflexivity.
  - destruct (as_number_notna a Ha Ta) as (x & Hx & Nx).
    destruct (as_number_notna b Hb Tb) as (y & Hy & Ny).
    destruct (float_leb_total x y Nx Ny) as [H|H]; [left | right];
      destruct a as [|?|?|[?|?|]|?], b as [|?|?|[?|?|]|?]; try discriminate;
      cbn [as_number] in Hx, Hy; injection Hx as <-; injection Hy as <-; exact H.
Qed.

Lemma keys_leb_total a b : keys_leb a b = true \/ keys_leb b a = true.
Proof.
  revert b. induction a as [|x a IH]; intros [|y b]; cbn [keys_leb]; auto.
  destruct (cell_leb x y) eqn:Hxy, (cell_leb y x) eqn:Hyx; auto.
  destruct (cell_leb_total x y); congruence.
Qed.

Lemma ordered_cons {A : Type} (le : A -> A -> bool) x l :
  ordered le (x :: l) = match l with y :: _ => le x y && ordered le l | [] => true end.
Proof. destruct l; reflexivity. Qed.

Lemma insert_sorted_ordered {A : Type} (le : A -> A -> bool) x l :
  (forall a b, le a b = true \/ le b a = true) ->
  ordered le l = true -> ordered le (insert_sorted le x l) = true.
Proof.
  intros Htot. induction l as [|y l IH]; intros Hl; [reflexivity|].
  cbn [insert_sorted]. destruct (le x y) eqn:Hxy.
  - rewrite ordered_cons. now rewrite Hxy, Hl.
  - assert (Hyx : le y x = true) by (destruct (Htot x y); congruence).
    rewrite ordered_cons in Hl. rewrite ordered_cons.
    destruct l as [|z l].
    + cbn [insert_sorted]. now rewrite Hyx.
    + apply andb_true_iff in Hl as [Hyz Hl]. specialize (IH Hl).
      cbn [insert_sorted] in *. destruct (le x z); now rewrite ?Hyx, ?Hyz, IH.
Qed.

Lemma sort_by_ordered {A : Type} (le : A -> A -> bool) l :
  (forall a b, le a b = true \/ le b a = true) -> ordered le (sort_by le l) = true.
Proof.
  intros Htot. unfold sort_by. induction l as [|x l IH]; [reflexivity|].
  cbn [fold_right]. now apply insert_sorted_ordered.
Qed.

Lemma ordered_app_inv {A : Type} (le : A -> A -> bool) l1 a b l2 :
  ordered le (l1 ++ a :: b :: l2) = true -> le a b = true.
Proof.
  induction l1 as [|x l1 IH]; cbn [app].
  - rewrite ordered_cons. now intros [H _]%andb_true_iff.
  - rewrite ordered_cons. destruct (l1 ++ a :: b :: l2) eqn:E.
    + now destruct l1.
    + intros [_ H]%andb_true_iff. exact (IH H).
Qed.

Lemma sort_values_ok by_ df out :
  sort_values by_ df = Ok out ->
  columns out = columns df
  /\ rows out = sort_by (fun a b => keys_leb (key_of by_ a) (key_of by_ b)) (rows df).
Proof.
  unfold sort_values. intros H. apply bind_ok_inv in H as ([] & _ & H).
  destruct (forallb _ by_); [|discriminate]. now injection H as <-.
Qed.

(** The points of the hourly profile are the rows given, all of them and
    no other, ordered by station and then by hour: between two rows that
    follow each other, with names [ga], [gb] and hours [ha], [hb], the name
    [ga] is not after [gb], and [ha <= hb] when the name is the same. *)
Theorem plot_profil_horaire_sorted (df d : DataFrame) :
  plot_profil_horaire df = Ok (Figure d) ->
  columns d = columns df
  /\ Permutation (rows d) (rows df)
  /\ ordered profil_leb (rows d) = true
  /\ (forall l1 a b l2 ga gb ha hb,
        rows d = l1 ++ a :: b :: l2 ->
        cell a "gare" = PStr ga -> cell b "gare" = PStr gb ->
        cell a "heure" = PInt ha -> cell b "heure" = PInt hb ->
        str_leb ga gb = true /\ (ga = gb -> ha <= hb)).
Proof.
  unfold plot_profil_horaire. destruct (df_empty df); [discriminate|]. intros H.
  apply bind_ok_inv in H as (sorted & Hs & H).
  apply bind_ok_inv in H as ([] & _ & H). injection H as <-.
  apply sort_values_ok in Hs as [Hcols Hrows].
  assert (Hord : ordered profil_leb (rows sorted) = true).
  { rewrite Hrows. apply sort_by_ordered. intros a b. apply keys_leb_total. }
  split; [exact Hcols|]. split; [rewrite Hrows; apply sort_by_perm|].
  split; [exact Hord|].
  intros l1 a b l2 ga gb ha hb E Hga Hgb Hha Hhb. rewrite E in Hord.
  apply ordered_app_inv in Hord. unfold profil_leb, key_of in Hord.
  cbn [map keys_leb] in Hord. rewrite Hga, Hgb, Hha, Hhb in Hord.
  unfold cell_leb at 1 2 in Hord. cbn [isna] in Hord.
  destruct (str_leb ga gb) eqn:Hab; [|discriminate Hord]. split; [reflexivity|].
  intros <-. rewrite str_leb_refl in Hord.
  destruct (cell_leb (PInt ha) (PInt hb)) eqn:Hh; [|discriminate Hord].
  unfold cell_leb in Hh. cbn [isna as_number float_leb] in Hh.
  apply bool_decide_eq_true in Hh. now apply Z2Qc_inj_le.
Qed.

Lemma plot_profil_horaire_sorted_witness :
  map (fun r => (cell r "gare", cell r "heure"))
      (rows (get_figure (plot_profil_horaire sample_validations)))
  = [(PStr (str "chatelet"), PInt 8); (PStr (str "chatelet"), PInt 8);
     (PStr (str "nation"), PInt 8); (PStr (str "orly"), PInt 9)]
  /\ ordered profil_leb (rows (get_figure (plot_profil_horaire sample_validations))) = true.
Proof.
  split; [vm_compute; reflexivity|].
  apply (plot_profil_horaire_sorted sample_validations).
  vm_compute. reflexivity.
Defined.

(* ===================================================================== *)
(** ** [plot_heatmap]: the cells of the matrix *)
(* ===================================================================== *)

Lemma groupby_reduce_inv reduce keys col df out :
  groupby_reduce reduce keys col df = Ok out ->
  let rs := List.filter (row_notna keys) (rows df) in
  columns out = (keys ++ [col])%list
  /\ Forall2
       (fun k g => exists v,
          reduce (map (fun r => cell r col) (group keys k rs)) = Ok v /\
          g = (list_to_map (combine keys k ++ [(col, v)]) : row))
       (sort_by keys_leb (distinct (map (key_of keys) rs))) (rows out).
Proof.
  intros H rs. unfold groupby_reduce in H.
  apply bind_ok_inv in H as ([] & _ & H).
  apply bind_ok_inv in H as ([] & _ & H).
  apply bind_ok_inv in H as (gs & Hgs & H). injection H as <-.
  fold rs in Hgs. split; [reflexivity|].
  apply collect_ok in Hgs. cbn [rows].
  eapply Forall2_impl; [exact Hgs|].
  intros k g Hk. apply bind_ok_inv in Hk as (v & Hv & Hk). injection Hk as <-.
  eauto.
Qed.

Lemma heatmap_row_cells (r : row) v :
  let g : row := list_to_map (combine heatmap_keys (key_of heatmap_keys r)
                              ++ [("pct_validations"%string, v)]) in
  key_of heatmap_keys g = key_of heatmap_keys r /\ cell g "pct_validations" = v.
Proof.
  unfold key_of, heatmap_keys. cbn [map combine app].
  rewrite !list_to_map_cons. cbv zeta. split.
  - now cells.
  - now cells.
Qed.

Lemma mean_cells_ok vs v :
  mean_cells vs = Ok v ->
  exists ns, numbers_of vs = Ok ns /\
    v = match ns with
        | [] => NaN
        | _ => PFloat (fdiv_count (fsum ns) (length ns))
        end.
Proof.
  unfold mean_cells. intros H. apply bind_ok_inv in H as (ns & Hns & H).
  injection H as <-. eauto.
Qed.

Lemma Forall2_map_fst {A B : Type} (R : A -> B -> Prop) (f : B -> A) ks gs :
  Forall2 R ks gs -> (forall k g, In k ks -> R k g -> f g = k) -> map f gs = ks.
Proof.
  induction 1 as [|k g ks gs Hkg _ IH]; intros Hf; [reflexivity|].
  cbn [map]. f_equal; [apply (Hf k g); [now left | exact Hkg]|].
  apply IH. intros k' g' Hk'. apply Hf. now right.
Qed.

Lemma Forall2_In_r {A B : Type} (R : A -> B -> Prop) ks gs g :
  Forall2 R ks gs -> In g gs -> exists k, In k ks /\ R k g.
Proof.
  induction 1 as [|k g' ks gs Hkg _ IH]; [contradiction|].
  intros [->|Hg]; [exists k; split; [now left | exact Hkg]|].
  destruct (IH Hg) as (k' & Hk' & HR). exists k'. split; [now right | exact HR].
Qed.

(** The heat map has one cell per pair (day type, hour) found among the
    rows that have both, in the order of the pairs.  Its value is the mean
    of the percentages of the rows of that pair, nulls left out: their sum
    divided by their number, and null when the pair has no percentage. *)
Theorem plot_heatmap_means (df g : DataFrame) :
  plot_heatmap df = Ok (Figure g) ->
  let rs := List.filter (row_notna heatmap_keys) (rows df) in
  columns g = ["type_jour"; "heure"; "pct_validations"]%string
  /\ List.NoDup (map (key_of heatmap_keys) (rows g))
  /\ ordered keys_leb (map (key_of heatmap_keys) (rows g)) = true
  /\ (forall o, In o (rows g) ->
        exists r ns,
          In r rs /\ key_of heatmap_keys o = key_of heatmap_keys r /\
          numbers_of (map (fun x => cell x "pct_validations")
                        (group heatmap_keys (key_of heatmap_keys r) rs)) = Ok ns /\
          cell o "pct_validations"
          = match ns with
            | [] => NaN
            | _ => PFloat (fdiv_count (fsum ns) (length ns))
            end)
  /\ (forall r, In r rs ->
        exists o, In o (rows g) /\ key_of heatmap_keys o = key_of heatmap_keys r).
Proof.
  intros H rs. unfold plot_heatmap in H. destruct (df_empty df); [discriminate|].
  apply bind_ok_inv in H as (g0 & Hg & H). injection H as <-.
  apply groupby_reduce_inv in Hg as [Hcols Hrows].
  change ["type_jour"%string; "heure"%string] with heatmap_keys in Hrows.
  fold rs in Hrows.
  set (ks := sort_by keys_leb (distinct (map (key_of heatmap_keys) rs))) in *.
  assert (Hks : forall k, In k ks <-> exists r, In r rs /\ key_of heatmap_keys r = k).
  { intros k. unfold ks.
    rewrite (Permutation_in' (eq_refl k) (sort_by_perm keys_leb _)), distinct_In, in_map_iff.
    split; intros (r & H1 & H2); exists r; auto. }
  assert (Hrow : forall k o, In k ks ->
            (exists v, mean_cells (map (fun r => cell r "pct_validations")
                                    (group heatmap_keys k rs)) = Ok v /\
                       o = (list_to_map (combine heatmap_keys k
                                         ++ [("pct_validations"%string, v)]) : row)) ->
            key_of heatmap_keys o = k /\
            exists ns, numbers_of (map (fun x => cell x "pct_validations")
                                     (group heatmap_keys k rs)) = Ok ns /\
                       cell o "pct_validations"
                       = match ns with
                         | [] => NaN
                         | _ => PFloat (fdiv_count (fsum ns) (length ns))
                         end).
  { intros k o Hk (v & Hv & ->). apply Hks in Hk as (r & _ & <-).
    destruct (heatmap_row_cells r v) as [Hkey Hval].
    split; [exact Hkey|]. apply mean_cells_ok in Hv as (ns & Hns & ->).
    exists ns. split; [exact Hns | exact Hval]. }
  assert (Hkeys : map (key_of heatmap_keys) (rows g0) = ks).
  { apply (Forall2_map_fst _ _ _ _ Hrows). intros k o Hk Hko. now apply (Hrow k o). }
  split; [exact Hcols|]. split; [|split; [|split]].
  - rewrite Hkeys. unfold ks.
    eapply Permutation_NoDup; [symmetry; apply sort_by_perm|]. apply distinct_NoDup.
  - rewrite Hkeys. apply sort_by_ordered. apply keys_leb_total.
  - intros o Ho. destruct (Forall2_In_r _ _ _ _ Hrows Ho) as (k & Hk & Hv).
    destruct (Hrow k o Hk Hv) as (Hkey & ns & Hns & Hval).
    apply Hks in Hk as (r & Hr & <-). exists r, ns. auto.
  - intros r Hr.
    assert (Hk : In (key_of heatmap_keys r) ks) by (apply Hks; eauto).
    rewrite <- Hkeys in Hk. apply in_map_iff in Hk as (o & Hkey & Ho).
    exists o. auto.
Qed.

Lemma plot_heatmap_means_witness :
  map (fun o => (cell o "type_jour", cell o "heure"))
      (rows (get_figure (plot_heatmap sample_validations)))
  = [(PStr (str "samedi"), PInt 8); (PStr (str "semaine"), PInt 8);
     (PStr (str "semaine"), PInt 9)]
  /\ List.NoDup (map (key_of heatmap_keys)
                   (rows (get_figure (plot_heatmap sample_validations)))).
Proof.
  split; [vm_compute; reflexivity|].
  apply (plot_heatmap_means sample_validations). vm_compute. reflexivity.
Defined.

(* ===================================================================== *)
(** ** The charts of the validations on what the loader returns *)
(* ===================================================================== *)

Lemma numbers_of_total vs :
  Forall (fun v => is_text v = false) vs -> exists ns, numbers_of vs = Ok ns.
Proof.
  induction 1 as [|v vs Hv _ [ns IH]]; [now exists []|].
  cbn [numbers_of]. rewrite Hv, IH. cbn [mbind result_bind]. eauto.
Qed.


Lemma sum_cells_total vs :
  Forall (fun v => is_text v = false) vs -> exists v, sum_cells vs = Ok v.
Proof.
  intros H. destruct (numbers_of_total vs H) as [ns Hns].
  unfold sum_cells. rewrite Hns. cbn [mbind result_bind]. eauto.
Qed.

Lemma groupby_reduce_total reduce keys col df :
  (forall c, In c keys -> has_col c df = true) -> has_col col df = true ->
  (forall vs, Forall (fun v => is_text v = false) vs -> exists v, reduce vs = Ok v) ->
  (forall r, In r (rows df) -> is_text (cell r col) = false) ->
  exists out, groupby_reduce reduce keys col df = Ok out.
Proof.
  intros Hkeys Hcol Hred Hnum. unfold groupby_reduce.
  rewrite (proj2 (require_all_ok keys df) Hkeys). cbn [mbind result_bind].
  rewrite (require_ok col df Hcol). cbn [mbind result_bind].
  match goal with |- context [collect ?f ?l] => destruct (collect_total f l) as [gs Hgs] end.
  - intros k _.
    destruct (Hred (map (fun r => cell r col)
                      (group keys k (List.filter (row_notna keys) (rows df))))) as [v Hv].
    + apply List.Forall_forall. intros v Hv. apply in_map_iff in Hv as (r & <- & Hr).
      apply Hnum. apply group_spec in Hr as [Hr _]. now apply filter_In in Hr.
    + rewrite Hv. cbn [mbind result_bind]. eauto.
  - rewrite Hgs. cbn [mbind result_bind]. eauto.
Qed.





(* ===================================================================== *)
(** ** [show_map]: when it has data for the chart, when it has none, when it fails *)
(* ===================================================================== *)

Lemma df_empty_false df : df_empty df = false <-> rows df <> [] /\ columns df <> [].
Proof.
  unfold df_empty. destruct (rows df), (columns df); split; try discriminate;
    try (intros [H1 H2]; congruence); auto.
  all: intros _; split; discriminate.
Qed.

Lemma filter_nil_iff {A : Type} (p : A -> bool) l :
  List.filter p l = [] <-> forall x, In x l -> p x = false.
Proof.
  induction l as [|a l IH]; cbn [List.filter].
  - split; [intros _ x [] | reflexivity].
  - destruct (p a) eqn:Ha.
    + split; [discriminate|]. intros H. rewrite (H a) in Ha by now left. discriminate.
    + rewrite IH. split; [intros H x [<-|Hx]; auto | intros H x Hx; apply H; now right].
Qed.

Lemma require_all_first cs df c :
  find (fun c => negb (has_col c df)) cs = Some c -> require_all cs df = Raise (KeyError c).
Proof. unfold require_all. now intros ->. Qed.

(** The data preparation of [show_map] by cases.  Without the latitude or
    the longitude label it raises [KeyError].  With both, it reports that
    there is no data exactly when no row has both coordinates.  Otherwise
    it raises [KeyError] on the first of station, mode and operator that
    the frame lacks, and when none is missing and the percentages are
    numbers the grouping succeeds and the grouped frame is what the chart
    is given.  What the chart does with it, a negative total included, is
    not part of the statement. *)
Theorem show_map_outcome (df : DataFrame) :
  (has_col "lat" df = false \/ has_col "lon" df = false ->
     exists c, In c ["lat"; "lon"]%string /\ show_map df = Raise (KeyError c))
  /\ (show_map df = Ok NoData <->
        has_col "lat" df = true /\ has_col "lon" df = true /\
        forall r, In r (rows df) -> isna (cell r "lat") || isna (cell r "lon") = true)
  /\ (forall r c, has_col "lat" df = true -> has_col "lon" df = true ->
        In r (rows df) -> isna (cell r "lat") = false -> isna (cell r "lon") = false ->
        find (fun c => negb (has_col c df)) map_keys = Some c ->
        show_map df = Raise (KeyError c))
  /\ (forall r, In r (rows df) -> isna (cell r "lat") = false -> isna (cell r "lon") = false ->
        (forall c, In c map_keys -> has_col c df = true) ->
        has_col "pct_validations" df = true ->
        (forall x, In x (rows df) -> is_text (cell x "pct_validations") = false) ->
        exists agg, show_map df = Ok (Figure agg)).
Proof.
  assert (Hdrop : has_col "lat" df = true -> has_col "lon" df = true ->
            dropna ["lat"; "lon"]%string df
            = Ok {| columns := columns df;
                    rows := List.filter (row_notna ["lat"; "lon"]%string) (rows df) |}).
  { intros H1 H2. unfold dropna.
    rewrite (proj2 (require_all_ok ["lat"; "lon"]%string df)); [reflexivity|].
    intros c [<-|[<-|[]]]; assumption. }
  assert (Hloc : forall r, row_notna ["lat"; "lon"]%string r = true <->
                   isna (cell r "lat") = false /\ isna (cell r "lon") = false).
  { intros r. unfold row_notna. cbn [forallb].
    rewrite andb_true_r, andb_true_iff, !negb_true_iff. reflexivity. }
  assert (Hne : forall r, has_col "lat" df = true -> In r (rows df) ->
            isna (cell r "lat") = false -> isna (cell r "lon") = false ->
            df_empty {| columns := columns df;
                        rows := List.filter (row_notna ["lat"; "lon"]%string) (rows df) |}
            = false).
  { intros r Hlat Hr H1 H2. apply df_empty_false. cbn [rows columns]. split.
    - intros E. rewrite filter_nil_iff in E. specialize (E r Hr).
      rewrite (proj2 (Hloc r)) in E by auto. discriminate E.
    - apply has_col_In in Hlat. intros E. rewrite E in Hlat. contradiction. }
  split; [|split; [|split]].
  - intros H. unfold show_map, dropna.
    destruct (has_col "lat" df) eqn:Hlat.
    + destruct H as [H|H]; [discriminate|]. exists "lon"%string. split; [cbn; auto|].
      rewrite (require_all_first ["lat"; "lon"]%string df "lon"); [reflexivity|].
      cbn [find]. now rewrite Hlat, H.
    + exists "lat"%string. split; [cbn; auto|].
      rewrite (require_all_first ["lat"; "lon"]%string df "lat"); [reflexivity|].
      cbn [find]. now rewrite Hlat.
  - split.
    + intros H. unfold show_map in H.
      apply bind_ok_inv in H as (d & Hd & H). apply dropna_ok in Hd as [Hcols ->].
      assert (Hlat : has_col "lat" df = true) by (apply Hcols; cbn; auto).
      assert (Hlon : has_col "lon" df = true) by (apply Hcols; cbn; auto).
      split; [exact Hlat|]. split; [exact Hlon|]. intros r Hr.
      destruct (isna (cell r "lat")) eqn:H1; [reflexivity|].
      destruct (isna (cell r "lon")) eqn:H2; [reflexivity|].
      rewrite (Hne r Hlat Hr H1 H2) in H.
      apply bind_ok_inv in H as (g & _ & H). discriminate H.
    + intros (Hlat & Hlon & Hall). unfold show_map.
      rewrite (Hdrop Hlat Hlon). cbn [mbind result_bind].
      replace (List.filter _ (rows df)) with (@nil row); [reflexivity|].
      symmetry. apply filter_nil_iff. intros r Hr.
      destruct (row_notna ["lat"; "lon"]%string r) eqn:E; [|reflexivity].
      apply Hloc in E as [E1 E2]. specialize (Hall r Hr). rewrite E1, E2 in Hall.
      discriminate Hall.
  - intros r c Hlat Hlon Hr H1 H2 Hc. unfold show_map.
    rewrite (Hdrop Hlat Hlon). cbn [mbind result_bind].
    rewrite (Hne r Hlat Hr H1 H2). unfold groupby_reduce.
    rewrite (require_all_first map_keys _ c); [reflexivity|]. exact Hc.
  - intros r Hr H1 H2 Hkeys Hpct Hnum. unfold show_map.
    assert (Hlat : has_col "lat" df = true) by (apply Hkeys; unfold map_keys; cbn; auto).
    assert (Hlon : has_col "lon" df = true) by (apply Hkeys; unfold map_keys; cbn; auto).
    rewrite (Hdrop Hlat Hlon). cbn [mbind result_bind].
    rewrite (Hne r Hlat Hr H1 H2).
    destruct (groupby_reduce_total sum_cells map_keys "pct_validations"
                {| columns := columns df;
                   rows := List.filter (row_notna ["lat"; "lon"]%string) (rows df) |})
      as [g Hg].
    + exact Hkeys.
    + exact Hpct.
    + apply sum_cells_total.
    + intros x Hx. cbn [rows] in Hx. apply filter_In in Hx as [Hx _]. now apply Hnum.
    + rewrite Hg. cbn [mbind result_bind]. eauto.
Qed.

(* ===================================================================== *)
(** ** The map on the joined frame *)
(* ===================================================================== *)

Lemma merged_columns_no_overlap key lcols rcols :
  overlap key lcols rcols = [] ->
  merged_columns key lcols rcols = (lcols ++ right_cols key rcols)%list.
Proof.
  intros H. unfold merged_columns. rewrite H. cbv zeta.
  unfold suffixed. cbn [existsb]. now rewrite !map_id.
Qed.

Lemma overlap_nil key lcols rcols c :
  overlap key lcols rcols = [] -> In c lcols -> In c rcols -> c = key.
Proof.
  unfold overlap. intros H Hl Hr.
  rewrite filter_nil_iff in H. specialize (H c Hl).
  rewrite (proj2 (existsb_eqb_In c rcols) Hr), andb_true_r in H.
  apply negb_false_iff in H. now apply String.eqb_eq.
Qed.

Lemma NoDup_merged_columns key lcols rcols :
  overlap key lcols rcols = [] -> List.NoDup lcols -> List.NoDup rcols ->
  List.NoDup (merged_columns key lcols rcols).
Proof.
  intros Hov Hl Hr. rewrite (merged_columns_no_overlap key lcols rcols Hov).
  apply List.NoDup_app; [exact Hl | now apply List.NoDup_filter|].
  intros c Hc Hc'. unfold right_cols in Hc'. apply filter_In in Hc' as [Hc' Hk].
  apply negb_true_iff, String.eqb_neq in Hk.
  apply Hk. exact (overlap_nil key lcols rcols c Hov Hc Hc').
Qed.

Lemma has_col_merged key left right out c :
  merge_left key left right = Ok out ->
  overlap key (columns left) (columns right) = [] ->
  has_col c out = has_col c left || (negb (String.eqb c key) && has_col c right).
Proof.
  intros H Hov. apply merge_left_ok in H as (_ & _ & Hcols & _).
  unfold has_col at 1. rewrite Hcols, (merged_columns_no_overlap _ _ _ Hov).
  rewrite existsb_app. unfold right_cols. rewrite existsb_filter.
  fold (has_col c left). fold (has_col c right). now rewrite andb_comm.
Qed.

Lemma merged_row_left key left right out o c :
  merge_left key left right = Ok out ->
  overlap key (columns left) (columns right) = [] ->
  List.NoDup (columns left) -> List.NoDup (columns right) ->
  In o (rows out) -> In c (columns left) ->
  exists l, In l (rows left) /\ cell o c = cell l c.
Proof.
  intros H Hov Hl Hr Ho Hc. apply merge_left_ok in H as (_ & _ & _ & Hrows).
  rewrite Hrows in Ho. apply in_flat_map in Ho as (l & Hlin & Ho).
  exists l. split; [exact Hlin|].
  pose proof (NoDup_merged_columns key _ _ Hov Hl Hr) as Hnd.
  assert (Hcell : forall ro, cell (join_row key (columns left) (columns right) l ro) c
                             = cell l c).
  { intros ro. destruct (join_row_cells key (columns left) (columns right) l ro Hnd)
      as [Hleft _].
    specialize (Hleft c Hc). rewrite Hov in Hleft. exact Hleft. }
  unfold join_block in Ho. destruct (matches key l (rows right)) as [|m ms].
  - destruct Ho as [<-|[]]. apply Hcell.
  - apply in_map_iff in Ho as (r & <- & _). apply Hcell.
Qed.

Lemma NoDup_station_keep has : List.NoDup (station_keep has).
Proof.
  unfold station_keep. apply List.NoDup_filter. unfold keep_cols.
  repeat (apply List.NoDup_cons; [cbn [In]; intuition discriminate|]).
  apply List.NoDup_nil.
Qed.

(** The data preparation of the map on the join of the two loaded files,
    when validations and stations share no label but the name.  With
    coordinates and operator in the loaded stations it does not raise: it
    reports that nothing is located or hands the grouped frame to the
    chart (what the chart does with it is not part of the statement).
    Without the operator label, which the loader does not make up as it
    does the mode, it raises [KeyError] on it as soon as one row is
    located.  Without the latitude label it raises [KeyError]. *)
Theorem pipeline_show_map (P : Platform) (vcsv gcsv df_val df_gares merged : DataFrame) :
  load_validations_data P vcsv = Ok df_val ->
  load_gares_data P gcsv = Ok df_gares ->
  merge_validations_gares df_val df_gares = Ok merged ->
  List.NoDup (columns df_val) ->
  overlap "gare" (columns df_val) (columns df_gares) = [] ->
  (has_col "lat" df_gares = true -> has_col "lon" df_gares = true ->
   has_col "exploitant" df_gares = true ->
   exists v, show_map merged = Ok v)
  /\ (has_col "lat" df_gares = true -> has_col "lon" df_gares = true ->
      has_col "exploitant" df_gares = false -> has_col "exploitant" df_val = false ->
      forall o, In o (rows merged) ->
        isna (cell o "lat") = false -> isna (cell o "lon") = false ->
        show_map merged = Raise (KeyError "exploitant"))
  /\ (has_col "lat" df_gares = false -> has_col "lat" df_val = false ->
      exists c, show_map merged = Raise (KeyError c)).
Proof.
  intros Hval Hgares Hmerge Hnd Hov.
  pose proof (load_gares_data_columns P gcsv df_gares Hgares) as Hgc.
  assert (Hndg : List.NoDup (columns df_gares))
    by (rewrite Hgc; apply NoDup_station_keep).
  destruct (load_gares_data_labels P gcsv df_gares Hgares) as (_ & Halways & _ & _).
  destruct (load_validations_data_columns P vcsv df_val Hval) as [Hreq Hvc].
  cbv zeta in Hreq, Hvc.
  assert (Hv : forall c, In c validations_required -> has_col c df_val = true).
  { intros c Hc. apply has_col_In. rewrite Hvc.
    destruct (has_col "heure" (rename_columns validations_renames vcsv));
      [|apply in_or_app; left]; apply has_col_In, Hreq, Hc. }
  pose proof (fun c => has_col_merged "gare" df_val df_gares merged c Hmerge Hov) as Hm.
  assert (Hgare : has_col "gare" merged = true).
  { rewrite Hm, Hv by (unfold validations_required; cbn; auto). reflexivity. }
  assert (Hmode : has_col "mode" merged = true).
  { rewrite Hm. rewrite (proj2 (has_col_In "mode" df_gares)) by (apply Halways; cbn; auto 10).
    cbn [String.eqb Ascii.eqb Bool.eqb negb andb]. apply orb_true_r. }
  assert (Hpct : has_col "pct_validations" merged = true).
  { rewrite Hm, Hv by (unfold validations_required; cbn; auto 10). reflexivity. }
  destruct (show_map_outcome merged) as (Hmiss & Hnodata & Hkey & Hdraw).
  split; [|split].
  - intros Hlat Hlon Hexp.
    assert (Hlat' : has_col "lat" merged = true)
      by (rewrite Hm, Hlat; cbn [String.eqb Ascii.eqb Bool.eqb negb andb]; apply orb_true_r).
    assert (Hlon' : has_col "lon" merged = true)
      by (rewrite Hm, Hlon; cbn [String.eqb Ascii.eqb Bool.eqb negb andb]; apply orb_true_r).
    assert (Hexp' : has_col "exploitant" merged = true)
      by (rewrite Hm, Hexp; cbn [String.eqb Ascii.eqb Bool.eqb negb andb]; apply orb_true_r).
    destruct (List.filter (row_notna ["lat"; "lon"]%string) (rows merged)) as [|o os] eqn:E.
    + exists NoData. apply Hnodata. split; [exact Hlat'|]. split; [exact Hlon'|].
      intros r Hr. rewrite filter_nil_iff in E. specialize (E r Hr).
      unfold row_notna in E. cbn [forallb] in E. rewrite andb_true_r in E.
      destruct (isna (cell r "lat")), (isna (cell r "lon")); try reflexivity; discriminate E.
    + assert (Ho : In o (List.filter (row_notna ["lat"; "lon"]%string) (rows merged)))
        by (rewrite E; now left).
      apply filter_In in Ho as [Ho Hloc]. unfold row_notna in Hloc. cbn [forallb] in Hloc.
      rewrite andb_true_r in Hloc. apply andb_true_iff in Hloc as [H1 H2].
      apply negb_true_iff in H1, H2.
      destruct (Hdraw o Ho H1 H2) as [agg Hagg].
      * intros c Hc. unfold map_keys in Hc. cbn [In] in Hc.
        destruct Hc as [<-|[<-|[<-|[<-|[<-|[]]]]]]; assumption.
      * exact Hpct.
      * intros x Hx.
        destruct (merged_row_left "gare" df_val df_gares merged x "pct_validations"
                    Hmerge Hov Hnd Hndg Hx) as (l & Hl & ->).
        { apply has_col_In, Hv. unfold validations_required. cbn; auto 10. }
        rewrite (load_validations_data_rows P vcsv df_val Hval) in Hl.
        apply in_map_iff in Hl as (r0 & <- & _).
        unfold validation_record. cells. apply to_numeric_not_text.
      * eauto.
  - intros Hlat Hlon Hexp Hexpv o Ho H1 H2.
    assert (Hlat' : has_col "lat" merged = true)
      by (rewrite Hm, Hlat; cbn [String.eqb Ascii.eqb Bool.eqb negb andb]; apply orb_true_r).
    assert (Hlon' : has_col "lon" merged = true)
      by (rewrite Hm, Hlon; cbn [String.eqb Ascii.eqb Bool.eqb negb andb]; apply orb_true_r).
    apply (Hkey o "exploitant"%string Hlat' Hlon' Ho H1 H2).
    unfold map_keys. cbn [find]. rewrite Hgare, Hlat', Hlon', Hmode. cbn [negb].
    rewrite Hm, Hexp, Hexpv. reflexivity.
  - intros Hlat Hlatv. destruct Hmiss as (c & _ & Hc).
    + left. rewrite Hm, Hlat, Hlatv. reflexivity.
    + eauto.
Qed.

Lemma pipeline_show_map_witness :
  exists v,
    show_map (get (merge_validations_gares
                     (get (load_validations_data sample validations_csv))
                     (get (load_gares_data sample stations_csv)))) = Ok v.
Proof.
  apply (pipeline_show_map sample validations_csv stations_csv
           (get (load_validations_data sample validations_csv))
           (get (load_gares_data sample stations_csv))).
  - vm_compute. reflexivity.
  - vm_compute. reflexivity.
  - vm_compute. reflexivity.
  - vm_compute. repeat constructor; cbn; intuition discriminate.
  - vm_compute. reflexivity.
  - vm_compute. reflexivity.
  - vm_compute. reflexivity.
  - vm_compute. reflexivity.
Defined.

(* ===================================================================== *)
(** ** [locate_case_insensitive] and [first_existing] *)
(* ===================================================================== *)

Lemma locate_cases P d name :
  (path_exists d name = true /\ locate_case_insensitive P d name = name)
  \/ (path_exists d name = false /\
      exists l1 child l2,
        iterdir d = l1 ++ child :: l2 /\
        py_lower P child = py_lower P name /\
        (forall c, In c l1 -> py_lower P c <> py_lower P name) /\
        locate_case_insensitive P d name = child)
  \/ (path_exists d name = false /\
      (forall c, In c (iterdir d) -> py_lower P c <> py_lower P name) /\
      locate_case_insensitive P d name = name).
Proof.
  unfold locate_case_insensitive. destruct (path_exists d name); [now left | right].
  cbv zeta. induction (iterdir d) as [|c l IH]; cbn [find].
  - right. split; [reflexivity|]. split; [intros c []|reflexivity].
  - destruct (bool_decide_reflect (py_lower P c = py_lower P name)) as [E|E].
    + left. split; [reflexivity|]. exists [], c, l. repeat split; auto.
    + destruct IH as [(_ & l1 & child & l2 & -> & Hc & Hl1 & Hr)|(_ & Hall & Hr)].
      * left. split; [reflexivity|]. exists (c :: l1), child, l2.
        repeat split; auto. intros x [<-|Hx]; auto.
      * right. split; [reflexivity|]. split; [|exact Hr].
        intros x [<-|Hx]; auto.
Qed.

(** [locate_case_insensitive] returns the name itself when a file of that
    exact name exists, even if another spelling is listed before it;
    otherwise the first entry of the directory that is the name up to case;
    otherwise the name itself, which then does not exist.  The result is
    always the name up to case.  When every listed entry exists, the result
    exists exactly when the directory has the name in some case. *)
Theorem locate_case_insensitive_spec (P : Platform) (d : Directory) (name : pystr) :
  (forall c, In c (iterdir d) -> path_exists d c = true) ->
  py_lower P (locate_case_insensitive P d name) = py_lower P name
  /\ (path_exists d name = true -> locate_case_insensitive P d name = name)
  /\ (path_exists d name = false ->
      forall l1 child l2,
        iterdir d = l1 ++ child :: l2 ->
        py_lower P child = py_lower P name ->
        (forall c, In c l1 -> py_lower P c <> py_lower P name) ->
        locate_case_insensitive P d name = child)
  /\ (path_exists d (locate_case_insensitive P d name) = true <-> has_variant P d name)
  /\ (~ has_variant P d name -> locate_case_insensitive P d name = name).
Proof.
  intros Hlist.
  pose proof (locate_cases P d name) as Hc.
  split; [|split; [|split; [|split]]].
  - destruct Hc as [(_ & ->)|[(_ & l1 & child & l2 & _ & E & _ & ->)|(_ & _ & ->)]]; auto.
  - intros Hex. destruct Hc as [(_ & H)|[(Hn & _)|(Hn & _)]]; [exact H|congruence|congruence].
  - intros Hn l1 child l2 Hl Hchild Hl1.
    unfold locate_case_insensitive. rewrite Hn. cbv zeta. rewrite Hl.
    clear Hl. induction l1 as [|c l1 IH]; cbn [app find].
    + now rewrite bool_decide_eq_true_2.
    + rewrite bool_decide_eq_false_2 by (apply Hl1; now left).
      apply IH. intros x Hx. apply Hl1. now right.
  - unfold has_variant.
    destruct Hc as [(He & ->)|[(Hn & l1 & child & l2 & Hl & E & _ & ->)|(Hn & Hall & ->)]].
    + split; auto.
    + assert (Hin : In child (iterdir d)) by (rewrite Hl; apply in_elt).
      split; [intros _; right; eauto | intros _; now apply Hlist].
    + split; [auto|]. intros [H|(c & Hc & E)]; [exact H|]. now destruct (Hall c Hc).
  - unfold has_variant. intros Hno.
    destruct Hc as [(_ & H)|[(_ & l1 & child & l2 & Hl & E & _ & _)|(_ & _ & H)]]; auto.
    exfalso. apply Hno. right. exists child. split; [rewrite Hl; apply in_elt | exact E].
Qed.

Lemma locate_case_insensitive_spec_witness :
  locate_case_insensitive sample sample_dir (str "photo.png") = str "Photo.PNG"
  /\ path_exists sample_dir (locate_case_insensitive sample sample_dir (str "photo.png")) = true.
Proof.
  assert (Hlist : forall c, In c (iterdir sample_dir) -> path_exists sample_dir c = true).
  { intros c Hc. cbn [iterdir sample_dir In] in Hc.
    destruct Hc as [<-|[<-|[<-|[]]]]; vm_compute; reflexivity. }
  destruct (locate_case_insensitive_spec sample sample_dir (str "photo.png") Hlist)
    as (_ & _ & Hfirst & Hex & _).
  split.
  - apply (Hfirst ltac:(vm_compute; reflexivity) [str "app.py"] (str "Photo.PNG")
             [str "PHOTO.jpeg"]).
    + reflexivity.
    + vm_compute. reflexivity.
    + intros c [<-|[]]. vm_compute. discriminate.
  - apply Hex. right. exists (str "Photo.PNG"). split; [cbn; auto | vm_compute; reflexivity].
Defined.

Lemma first_located_skip P d l1 rest :
  (forall m, In m l1 -> path_exists d (locate_case_insensitive P d m) = false) ->
  first_located P d (l1 ++ rest) = first_located P d rest.
Proof.
  induction l1 as [|m l1 IH]; intros H; [reflexivity|].
  cbn [app first_located]. rewrite (H m) by now left.
  apply IH. intros x Hx. apply H. now right.
Qed.

(** [first_existing] returns the located path of the first candidate that
    the directory has in some case.  When it has none of them it returns
    the first candidate as written, which does not exist.  It fails only on
    an empty list of candidates, so [PHOTO_PATH] is always defined.  Every
    listed entry of the directory exists. *)
Theorem first_existing_spec (P : Platform) (d : Directory) (candidates : list pystr) :
  (forall c, In c (iterdir d) -> path_exists d c = true) ->
  (first_existing P d candidates = None <-> candidates = [])
  /\ (forall l1 n l2,
        candidates = l1 ++ n :: l2 ->
        (forall m, In m l1 -> ~ has_variant P d m) -> has_variant P d n ->
        first_existing P d candidates = Some (locate_case_insensitive P d n)
        /\ path_exists d (locate_case_insensitive P d n) = true)
  /\ (forall n rest,
        candidates = n :: rest ->
        (forall m, In m candidates -> ~ has_variant P d m) ->
        first_existing P d candidates = Some n /\ path_exists d n = false)
  /\ PHOTO_PATH P d <> None.
Proof.
  intros Hlist.
  assert (Hloc : forall m, path_exists d (locate_case_insensitive P d m) = true
                           <-> has_variant P d m).
  { intros m. apply (locate_case_insensitive_spec P d m Hlist). }
  assert (Hno : forall m, ~ has_variant P d m ->
                  path_exists d (locate_case_insensitive P d m) = false).
  { intros m Hm. destruct (path_exists d (locate_case_insensitive P d m)) eqn:E;
      [|reflexivity]. now apply Hloc in E. }
  assert (Hnone : forall l, first_existing P d l = None <-> l = []).
  { intros l. unfold first_existing. destruct (first_located P d l) eqn:E.
    - split; [discriminate|]. intros ->. discriminate E.
    - destruct l; cbn [head]; split; congruence. }
  split; [apply Hnone|]. split; [|split].
  - intros l1 n l2 -> Hl1 Hn. apply Hloc in Hn as Hex. split; [|exact Hex].
    unfold first_existing. rewrite first_located_skip by (intros m Hm; apply Hno, Hl1, Hm).
    cbn [first_located]. now rewrite Hex.
  - intros n rest -> Hall. split.
    + unfold first_existing.
      rewrite <- (app_nil_r (n :: rest)).
      rewrite first_located_skip by (intros m Hm; apply Hno, Hall, Hm).
      reflexivity.
    + destruct (path_exists d n) eqn:E; [|reflexivity].
      exfalso. apply (Hall n); [now left | now left].
  - intros H. apply Hnone in H. discriminate H.
Qed.

Lemma first_existing_spec_witness :
  PHOTO_PATH sample sample_dir = Some (str "PHOTO.jpeg").
Proof.
  assert (Hlist : forall c, In c (iterdir sample_dir) -> path_exists sample_dir c = true).
  { intros c Hc. cbn [iterdir sample_dir In] in Hc.
    destruct Hc as [<-|[<-|[<-|[]]]]; vm_compute; reflexivity. }
  destruct (first_existing_spec sample sample_dir
              [str "photo.jpg"; str "photo.jpeg"; str "photo.png"] Hlist)
    as (_ & Hfirst & _ & _).
  destruct (Hfirst [str "photo.jpg"] (str "photo.jpeg") [str "photo.png"] eq_refl)
    as [Hres _].
  - intros m [<-|[]] [H|(c & Hc & E)]; [vm_compute in H; discriminate H|].
    cbn [iterdir sample_dir In] in Hc.
    destruct Hc as [<-|[<-|[<-|[]]]]; vm_compute in E; discriminate E.
  - right. exists (str "PHOTO.jpeg"). split; [cbn; auto | vm_compute; reflexivity].
  - unfold PHOTO_PATH. rewrite Hres. vm_compute. reflexivity.
Defined.
